(** * youtube-rag-app: a shallow embedding of the transcript pipeline

    The development follows the two pipeline modules of the application,
    [vector_store.py] (identifier extraction, transcript fetching, chunking
    and indexing) and [query_engine.py] (retrieval-augmented answering),
    and the functions of [app.py] that set up and reset the session.

    Conventions.
    - A Python [str] is a Rocq [string], one [ascii] per code point, so the
      texts range over the code points below 256.
    - A Python [int] is a [Z]; [None] is the [None] of an [option] or the
      constructor [PyNone] of the value type [pyval].
    - A call that can raise is a computation in the monad [M]: it takes the
      current state and gives an [outcome] (a value or the raised exception)
      together with the state it leaves behind.  Only exceptions deriving
      from Python's [Exception] are modelled, which are the ones an
      [except Exception] clause catches.
    - The remote services (transcript source, embedding endpoint, vector
      index, chat model) are not part of the repository.  Each module has
      a class of the services it calls, and every theorem holds for all
      their behaviours or states what it assumes of them.  The
      deterministic library routines the code relies on ([urllib.parse],
      the recursive character splitter) are transcribed from the
      libraries.
    - [print] statements are omitted. *)

From Stdlib Require Import ZArith Lia Ascii String List DecimalString.
From stdpp Require Import base gmap strings list.

Local Open Scope Z_scope.

(** ** Exceptions and the state-and-exception monad *)

Inductive exn_class : Type :=
  | TranscriptsDisabled
  | NoTranscriptFound
  | ValueError
  | AttributeError
  | IndexError
  | UnboundLocalError
  | OtherError (name : string).

(** An exception object: its class and what [str(e)] gives. *)
Record exn : Type := Exn { exn_cls : exn_class; exn_str : string }.

Inductive outcome (A : Type) : Type :=
  | Ret (a : A)
  | Raise (e : exn).
Arguments Ret {A} a.
Arguments Raise {A} e.

Definition M (S A : Type) : Type := S -> outcome A * S.

Definition ret {S A} (a : A) : M S A := fun s => (Ret a, s).
Definition raise {S A} (e : exn) : M S A := fun s => (Raise e, s).
Definition bind {S A B} (c : M S A) (k : A -> M S B) : M S B :=
  fun s => match c s with
           | (Ret a, s') => k a s'
           | (Raise e, s') => (Raise e, s')
           end.
Definition get {S} : M S S := fun s => (Ret s, s).
Definition put {S} (s : S) : M S unit := fun _ => (Ret tt, s).

(** [try: body except Exception as e: handler e]. The state reached by the
    body when it raised is the one the handler starts from. *)
Definition try_except {S A} (body : M S A) (handler : exn -> M S A) : M S A :=
  fun s => match body s with
           | (Ret a, s') => (Ret a, s')
           | (Raise e, s') => handler e s'
           end.

Declare Scope py_scope.
Delimit Scope py_scope with py.
Notation "x <- c ;; k" := (bind c (fun x => k))
  (at level 100, c at next level, right associativity) : py_scope.
Notation "c ;;; k" := (bind c (fun _ => k))
  (at level 100, right associativity) : py_scope.
Local Open Scope py_scope.

(** [for x in xs: ys.append(f(x))], left to right. *)
Fixpoint for_append {S A B} (f : A -> M S B) (xs : list A) : M S (list B) :=
  match xs with
  | [] => ret []
  | x :: xs' => y <- f x ;; ys <- for_append f xs' ;; ret (y :: ys)
  end.

(** ** Python values held in dictionaries *)

#[warnings="-register-all"]
Inductive pyval : Type :=
  | PyNone
  | PyBool (b : bool)
  | PyInt (z : Z)
  | PyStr (s : string)
  | PyList (l : list pyval).

(** [len(l)] as a Python integer. *)
Definition py_len {A} (l : list A) : Z := Z.of_nat (length l).

(** A [Document]: only its text is used by the application. *)
Record Document : Type := { page_content : string }.

(** [sep.join(parts)]. *)
Fixpoint join (sep : string) (parts : list string) : string :=
  match parts with
  | [] => ""
  | [p] => p
  | p :: ps => p +:+ sep +:+ join sep ps
  end.

(** ** Python string operations *)

Module PyString.

Definition len (s : string) : Z := Z.of_nat (String.length s).

Definition is_empty (s : string) : bool :=
  match s with EmptyString => true | String _ _ => false end.

(** [str.isspace] on one character, for the code points below 256. *)
Definition is_space (c : ascii) : bool :=
  let n := nat_of_ascii c in
  ((9 <=? n) && (n <=? 13) || (28 <=? n) && (n <=? 32) ||
   (n =? 133) || (n =? 160))%nat.

(** [s.lstrip()], [s.rstrip()] and [s.strip()]. *)
Fixpoint lstrip (s : string) : string :=
  match s with
  | EmptyString => EmptyString
  | String c s' => if is_space c then lstrip s' else s
  end.

Fixpoint rstrip (s : string) : string :=
  match s with
  | EmptyString => EmptyString
  | String c s' =>
      let r := rstrip s' in
      if is_empty r && is_space c then EmptyString else String c r
  end.

Definition strip (s : string) : string := lstrip (rstrip s).

(** [s.startswith(p)]. *)
Definition startswith (s p : string) : bool := String.prefix p s.

(** [sub in s]. *)
Fixpoint contains (sub s : string) : bool :=
  String.prefix sub s ||
  match s with
  | EmptyString => false
  | String _ s' => contains sub s'
  end.

(** [list(s)]: the characters of [s], each as a string. *)
Fixpoint chars (s : string) : list string :=
  match s with
  | EmptyString => []
  | String c s' => String c EmptyString :: chars s'
  end.

(** The pieces of [s] between the occurrences of a non-empty [sep], found
    from the left and not overlapping.  [skip] counts the characters of an
    occurrence still to be passed over; [piece] is the current piece. *)
Fixpoint split_go (sep : string) (skip : nat) (piece s : string) : list string :=
  match s with
  | EmptyString => [piece]
  | String c s' =>
      match skip with
      | S n => split_go sep n piece s'
      | O =>
          if String.prefix sep s
          then piece :: split_go sep (String.length sep - 1) EmptyString s'
          else split_go sep 0 (piece +:+ String c EmptyString) s'
      end
  end.

(** [s.split(sep)] for a non-empty [sep]. *)
Definition split (sep s : string) : list string := split_go sep 0 EmptyString s.

(** The decimal numeral of an integer, as [str(n)] prints it. *)
Definition str_of_int (n : Z) : string :=
  DecimalString.NilZero.string_of_int (Z.to_int n).

End PyString.

(** ** URL parsing (urllib.parse)

    [urlsplit], [urlparse], [parse_qsl] and [parse_qs] of the standard
    library, transcribed for [str] arguments and the default keyword
    arguments.  Three routines that depend on Unicode tables or on the
    address parser are left to the class [Unicode]: they are reached only
    for a bracketed host, a host that is not ASCII, or a percent sign. *)

Module UrlParse.
Import PyString.

Fixpoint find_char (c : ascii) (s : string) : option nat :=
  match s with
  | EmptyString => None
  | String x s' => if Ascii.eqb x c then Some O else option_map S (find_char c s')
  end.

(** [c in s] for a character [c]. *)
Definition has_char (c : ascii) (s : string) : bool :=
  match find_char c s with Some _ => true | None => false end.

(** [s[:n]] and [s[n:]]. *)
Fixpoint take (n : nat) (s : string) : string :=
  match n, s with
  | S n', String x s' => String x (take n' s')
  | _, _ => EmptyString
  end.

Fixpoint drop (n : nat) (s : string) : string :=
  match n, s with
  | S n', String _ s' => drop n' s'
  | _, _ => s
  end.

(** [s.find(c, start)]. *)
Definition find_from (c : ascii) (start : nat) (s : string) : option nat :=
  option_map (fun i => (start + i)%nat) (find_char c (drop start s)).

(** [s.rfind(c)]. *)
Fixpoint rfind_char (c : ascii) (s : string) : option nat :=
  match s with
  | EmptyString => None
  | String x s' =>
      match rfind_char c s' with
      | Some i => Some (S i)
      | None => if Ascii.eqb x c then Some O else None
      end
  end.

(** [s.replace(c, "")] and [s.replace(a, b)] for characters. *)
Fixpoint remove_char (c : ascii) (s : string) : string :=
  match s with
  | EmptyString => EmptyString
  | String x s' => if Ascii.eqb x c then remove_char c s' else String x (remove_char c s')
  end.

Fixpoint replace_char (a b : ascii) (s : string) : string :=
  match s with
  | EmptyString => EmptyString
  | String x s' => String (if Ascii.eqb x a then b else x) (replace_char a b s')
  end.

(** [s.split(c, 1)] when [c] occurs in [s]: the text before the first
    occurrence and the text after it. *)
Definition split_once (c : ascii) (s : string) : option (string * string) :=
  match find_char c s with
  | Some i => Some (take i s, drop (S i) s)
  | None => None
  end.

(** [str.lower] on one character, for the code points below 256. *)
Definition lower_char (c : ascii) : ascii :=
  let n := nat_of_ascii c in
  if ((65 <=? n) && (n <=? 90) ||
      (192 <=? n) && (n <=? 222) && negb (n =? 215))%nat
  then ascii_of_nat (n + 32) else c.

Fixpoint lower (s : string) : string :=
  match s with
  | EmptyString => EmptyString
  | String x s' => String (lower_char x) (lower s')
  end.

Definition char_isascii (c : ascii) : bool := (nat_of_ascii c <? 128)%nat.

Fixpoint isascii (s : string) : bool :=
  match s with
  | EmptyString => true
  | String x s' => char_isascii x && isascii s'
  end.

(** [c.isascii() and c.isalpha()]. *)
Definition ascii_alpha (c : ascii) : bool :=
  let n := nat_of_ascii c in
  ((65 <=? n) && (n <=? 90) || (97 <=? n) && (n <=? 122))%nat.

Definition ascii_digit (c : ascii) : bool :=
  let n := nat_of_ascii c in ((48 <=? n) && (n <=? 57))%nat.

(** Membership in [scheme_chars]. *)
Definition scheme_char (c : ascii) : bool :=
  ascii_alpha c || ascii_digit c ||
  Ascii.eqb c "+" || Ascii.eqb c "-" || Ascii.eqb c ".".

Fixpoint all_chars (p : ascii -> bool) (s : string) : bool :=
  match s with
  | EmptyString => true
  | String x s' => p x && all_chars p s'
  end.

(** Membership in [_WHATWG_C0_CONTROL_OR_SPACE]. *)
Definition c0_control_or_space (c : ascii) : bool := (nat_of_ascii c <=? 32)%nat.

Fixpoint lstrip_c0 (s : string) : string :=
  match s with
  | EmptyString => EmptyString
  | String x s' => if c0_control_or_space x then lstrip_c0 s' else s
  end.

Definition uses_params : list string :=
  [""; "ftp"; "hdl"; "prospero"; "http"; "imap"; "https"; "shttp"; "rtsp";
   "rtspu"; "sip"; "sips"; "mms"; "sftp"; "tel"].

Record ParseResult : Type := {
  scheme : string;
  netloc : string;
  path : string;
  params : string;
  query : string;
  fragment : string
}.

(** - [check_bracketed_netloc]: the exception [_check_bracketed_netloc]
      raises for a netloc with both brackets, if any;
    - [check_nfkc]: the exception [_checknetloc] raises for a netloc that
      is not ASCII, if any;
    - [unquote_escapes]: [unquote] on a string that holds a percent sign. *)
Class Unicode : Type := {
  check_bracketed_netloc : string -> option exn;
  check_nfkc : string -> option exn;
  unquote_escapes : string -> string
}.

Section Parse.

Context {unicode : Unicode}.

Definition _splitnetloc (url : string) (start : nat) : string * string :=
  let delim :=
    fold_left
      (fun delim c =>
         match find_from c start url with
         | Some wdelim => Nat.min delim wdelim
         | None => delim
         end)
      ["/"; "?"; "#"]%char (String.length url) in
  (take (delim - start) (drop start url), drop delim url).

Definition _checknetloc (netloc : string) : option exn :=
  if is_empty netloc || isascii netloc then None else check_nfkc netloc.

(** The steps of [urlsplit], in order: the unsafe characters are dropped,
    then the scheme, the netloc, the fragment and the query are cut off. *)
Definition strip_unsafe (url : string) : string :=
  fold_left (fun url b => remove_char b url)
    [ascii_of_nat 9; ascii_of_nat 13; ascii_of_nat 10] (lstrip_c0 url).

Definition split_scheme (url : string) : string * string :=
  match find_char ":" url, url with
  | Some (S i), String first _ =>
      if ascii_alpha first && all_chars scheme_char (take (S i) url)
      then (lower (take (S i) url), drop (S (S i)) url)
      else (EmptyString, url)
  | _, _ => (EmptyString, url)
  end.

Definition split_netloc (url : string) : outcome (string * string) :=
  if String.eqb (take 2 url) "//" then
    let '(netloc, url) := _splitnetloc url 2 in
    if has_char "[" netloc && negb (has_char "]" netloc) ||
       has_char "]" netloc && negb (has_char "[" netloc)
    then Raise (Exn ValueError "Invalid IPv6 URL")
    else if has_char "[" netloc && has_char "]" netloc then
      match check_bracketed_netloc netloc with
      | Some e => Raise e
      | None => Ret (netloc, url)
      end
    else Ret (netloc, url)
  else Ret (EmptyString, url).

(** [url, rest = url.split(c, 1)] when [c] is in [url]. *)
Definition cut_at (c : ascii) (url : string) : string * string :=
  match split_once c url with
  | Some (before, after) => (before, after)
  | None => (url, EmptyString)
  end.

(** [urlsplit(url)]: scheme, netloc, path, query and fragment. *)
Definition urlsplit (url : string)
  : outcome (string * string * string * string * string) :=
  let url := strip_unsafe url in
  let '(scheme, url) := split_scheme url in
  match split_netloc url with
  | Raise e => Raise e
  | Ret (netloc, url) =>
      let '(url, fragment) := cut_at "#" url in
      let '(url, query) := cut_at "?" url in
      match _checknetloc netloc with
      | Some e => Raise e
      | None => Ret (scheme, netloc, url, query, fragment)
      end
  end.

Definition _splitparams (url : string) : string * string :=
  let cut i := (take i url, drop (S i) url) in
  match rfind_char "/" url with
  | Some slash =>
      match find_from ";" slash url with
      | Some i => cut i
      | None => (url, EmptyString)
      end
  | None =>
      match find_char ";" url with
      | Some i => cut i
      | None => (take (String.length url - 1) url, url)
      end
  end.

Definition urlparse (url : string) : outcome ParseResult :=
  match urlsplit url with
  | Raise e => Raise e
  | Ret (scheme, netloc, url, query, fragment) =>
      let '(url, params) :=
        if existsb (String.eqb scheme) uses_params && has_char ";" url
        then _splitparams url
        else (url, EmptyString) in
      Ret {| scheme := scheme; netloc := netloc; path := url; params := params;
             query := query; fragment := fragment |}
  end.

(** [unquote(string)]. *)
Definition unquote (s : string) : string :=
  if has_char "%" s then unquote_escapes s else s.

(** [parse_qsl(qs)]: the fields with a non-blank value, in order. *)
Definition parse_qsl (qs : string) : list (string * string) :=
  let query_args := if is_empty qs then [] else split "&" qs in
  flat_map
    (fun name_value =>
       if is_empty name_value then []
       else match split_once "=" name_value with
            | None => []
            | Some (nv0, nv1) =>
                if is_empty nv1 then []
                else [(unquote (replace_char "+" " " nv0),
                       unquote (replace_char "+" " " nv1))]
            end)
    query_args.

(** [parse_qs(qs)]: a dictionary from each name to its values in order. *)
Definition parse_qs (qs : string) : gmap string (list string) :=
  fold_left
    (fun parsed_result '(name, value) =>
       match parsed_result !! name with
       | Some values => <[name := values ++ [value]]> parsed_result
       | None => <[name := [value]]> parsed_result
       end)
    (parse_qsl qs) ∅.

End Parse.
End UrlParse.

(** ** The recursive character splitter (langchain_text_splitters)

    The splitter is library code.  Its algorithm is transcribed here:
    the checks of the constructor, [_split_text_with_regex], [_join_docs],
    [_merge_splits] and the recursive [_split_text].  Separators are taken
    literally ([is_separator_regex] is false) and the length function is
    [len]. *)

Module TextSplitter.
Import PyString.

Record Splitter : Type := {
  _chunk_size : Z;
  _chunk_overlap : Z;
  _keep_separator : bool;
  _strip_whitespace : bool;
  _separators : list string
}.

(** [RecursiveCharacterTextSplitter(chunk_size=..., chunk_overlap=...,
    length_function=len, separators=...)]; [keep_separator] and
    [strip_whitespace] take their defaults, both true. *)
Definition RecursiveCharacterTextSplitter
    (chunk_size chunk_overlap : Z) (separators : list string) : outcome Splitter :=
  if chunk_size <=? 0 then
    Raise (Exn ValueError ("chunk_size must be > 0, got " +:+ str_of_int chunk_size))
  else if chunk_overlap <? 0 then
    Raise (Exn ValueError ("chunk_overlap must be >= 0, got " +:+ str_of_int chunk_overlap))
  else if chunk_overlap >? chunk_size then
    Raise (Exn ValueError
             ("Got a larger chunk overlap (" +:+ str_of_int chunk_overlap +:+
              ") than chunk size (" +:+ str_of_int chunk_size +:+
              "), should be smaller."))
  else
    Ret {| _chunk_size := chunk_size; _chunk_overlap := chunk_overlap;
           _keep_separator := true; _strip_whitespace := true;
           _separators := separators |}.

(** [re.split] with the separator as a capture group: the pieces with the
    separator between them. *)
Fixpoint interleave (sep : string) (pieces : list string) : list string :=
  match pieces with
  | [] => []
  | [p] => [p]
  | p :: ps => p :: sep :: interleave sep ps
  end.

(** [[_splits[i] + _splits[i + 1] for i in range(1, len(_splits), 2)]],
    given [_splits[1:]]; the list has odd length, so every separator has a
    piece after it. *)
Fixpoint glue (from_1 : list string) : list string :=
  match from_1 with
  | a :: b :: rest => (a +:+ b) :: glue rest
  | _ => []
  end.

Definition _split_text_with_regex (text separator : string) (keep_separator : bool)
  : list string :=
  let splits :=
    if is_empty separator then chars text
    else if keep_separator then
      let _splits := interleave separator (split separator text) in
      match _splits with
      | [] => []
      | first :: from_1 => first :: glue from_1
      end
    else split separator text in
  filter (fun s => is_empty s = false) splits.

Section Merge.

Variable sp : Splitter.

Definition _join_docs (docs : list string) (separator : string) : option string :=
  let text := join separator docs in
  let text := if _strip_whitespace sp then strip text else text in
  if is_empty text then None else Some text.

Definition append_doc (docs : list string) (doc : option string) : list string :=
  match doc with
  | Some d => docs ++ [d]
  | None => docs
  end.

Definition nonempty {A} (l : list A) : bool :=
  match l with [] => false | _ :: _ => true end.

Definition longer_than_one {A} (l : list A) : bool :=
  match l with _ :: _ :: _ => true | _ => false end.

(** The [while] loop of [_merge_splits], which drops documents from the
    front of [current_doc]; indexing an empty [current_doc] raises. *)
Fixpoint pop_front (separator_len _len : Z) (current_doc : list string) (total : Z)
  : outcome (list string * Z) :=
  if (total >? _chunk_overlap sp) ||
     ((total + _len + (if nonempty current_doc then separator_len else 0)
         >? _chunk_size sp) && (total >? 0))
  then
    match current_doc with
    | [] => Raise (Exn IndexError "list index out of range")
    | first :: rest =>
        pop_front separator_len _len rest
          (total - (len first + (if longer_than_one current_doc then separator_len else 0)))
    end
  else Ret (current_doc, total).

(** The [for] loop of [_merge_splits] and the statements after it. *)
Fixpoint merge_loop (separator : string) (splits : list string)
    (docs current_doc : list string) (total : Z) : outcome (list string) :=
  let separator_len := len separator in
  match splits with
  | [] => Ret (append_doc docs (_join_docs current_doc separator))
  | d :: splits' =>
      let _len := len d in
      let append_d docs current_doc total :=
        let current_doc := current_doc ++ [d] in
        merge_loop separator splits' docs current_doc
          (total + (_len + (if longer_than_one current_doc then separator_len else 0))) in
      if (total + _len + (if nonempty current_doc then separator_len else 0)
            >? _chunk_size sp) && nonempty current_doc
      then
        let docs := append_doc docs (_join_docs current_doc separator) in
        match pop_front separator_len _len current_doc total with
        | Raise e => Raise e
        | Ret (current_doc, total) => append_d docs current_doc total
        end
      else append_d docs current_doc total
  end.

Definition _merge_splits (splits : list string) (separator : string)
  : outcome (list string) :=
  merge_loop separator splits [] [] 0.

(** The choice of the separator in [_split_text]: the first separator that
    is empty or occurs in the text, with the separators after it; the last
    separator and no further ones when none does. *)
Fixpoint choose_separator (candidates : list string) (text : string)
    (separator : string) : string * list string :=
  match candidates with
  | [] => (separator, [])
  | _s :: rest =>
      if is_empty _s then (_s, [])
      else if contains _s text then (_s, rest)
      else choose_separator rest text separator
  end.

(** The loop of [_split_text] over the splits and the statements after it;
    [recurse] is [self._split_text] on the separators that remain. *)
Fixpoint split_loop (recurse : list string -> string -> outcome (list string))
    (_separator : string) (new_separators : list string) (splits : list string)
    (final_chunks _good_splits : list string) : outcome (list string) :=
  match splits with
  | [] =>
      if nonempty _good_splits then
        match _merge_splits _good_splits _separator with
        | Raise e => Raise e
        | Ret merged_text => Ret (final_chunks ++ merged_text)
        end
      else Ret final_chunks
  | s :: splits' =>
      if len s <? _chunk_size sp then
        split_loop recurse _separator new_separators splits'
          final_chunks (_good_splits ++ [s])
      else
        match (if nonempty _good_splits then
                 match _merge_splits _good_splits _separator with
                 | Raise e => Raise e
                 | Ret merged_text => Ret (final_chunks ++ merged_text)
                 end
               else Ret final_chunks) with
        | Raise e => Raise e
        | Ret final_chunks =>
            if nonempty new_separators then
              match recurse new_separators s with
              | Raise e => Raise e
              | Ret other_info =>
                  split_loop recurse _separator new_separators splits'
                    (final_chunks ++ other_info) []
              end
            else
              split_loop recurse _separator new_separators splits'
                (final_chunks ++ [s]) []
        end
  end.

(** The body of [_split_text], with the recursive call as a parameter. *)
Definition split_text_body (recurse : list string -> string -> outcome (list string))
    (separators : list string) (text : string) : outcome (list string) :=
  match last separators with
  | None => Raise (Exn IndexError "list index out of range")
  | Some last_separator =>
      let '(separator, new_separators) :=
        choose_separator separators text last_separator in
      let splits := _split_text_with_regex text separator (_keep_separator sp) in
      let _separator := if _keep_separator sp then EmptyString else separator in
      split_loop recurse _separator new_separators splits [] []
  end.

(** [_split_text]: each recursive call receives fewer separators, so a
    depth of one more than their number is never exhausted. *)
Fixpoint split_text_depth (depth : nat) (separators : list string) (text : string)
  : outcome (list string) :=
  match depth with
  | O => Raise (Exn (OtherError "RecursionError") "maximum recursion depth exceeded")
  | S depth' => split_text_body (split_text_depth depth') separators text
  end.

Definition _split_text (separators : list string) (text : string)
  : outcome (list string) :=
  split_text_depth (S (length separators)) separators text.

Definition split_text (text : string) : outcome (list string) :=
  _split_text (_separators sp) text.

(** [create_documents([text])]: one document per chunk, in order. *)
Definition create_documents (text : string) : outcome (list Document) :=
  match split_text text with
  | Raise e => Raise e
  | Ret chunks => Ret (map (fun chunk => {| page_content := chunk |}) chunks)
  end.

End Merge.
End TextSplitter.

(** ** Configuration: where the authentication token comes from

    Both modules carry the same [get_api_token].  [HAS_STREAMLIT] records
    whether the import of streamlit succeeded; [st_secrets] is the secret
    store, whose access raises when no secrets file can be read; [environ]
    is the process environment after [load_dotenv()]. *)

Record Config : Type := {
  HAS_STREAMLIT : bool;
  st_secrets : outcome (gmap string string);
  environ : gmap string string
}.

Definition TOKEN_KEY : string := "HUGGINGFACEHUB_API_TOKEN".

Definition getenv (cfg : Config) (key : string) : option string :=
  environ cfg !! key.

Definition get_api_token (cfg : Config) : option string :=
  if HAS_STREAMLIT cfg then
    match st_secrets cfg with
    | Ret secrets => secrets !! TOKEN_KEY
    | Raise _ => getenv cfg TOKEN_KEY
    end
  else getenv cfg TOKEN_KEY.


(** ** [vector_store.py]: the manager, embeddings and the vector store *)

Module VectorStoreManager.
Import PyString TextSplitter.

(** The embedding endpoint and the vector index library:
    - [new_embeddings]: the constructor [HuggingFaceEndpointEmbeddings],
      given the model name and the token;
    - [from_documents]: [FAISS.from_documents(chunks, embedding_model)],
      which embeds every chunk remotely. *)
Class Backend : Type := {
  World : Type;
  EmbeddingModel : Type;
  VectorStore : Type;
  new_embeddings : string -> option string -> M World EmbeddingModel;
  from_documents : list Document -> option EmbeddingModel -> M World VectorStore
}.

Section Manager.

Context {backend : Backend}.

(** The attribute of a manager, and the world. *)
Record State : Type := {
  embedding_model : option EmbeddingModel;
  world : World
}.

Definition lift_world {A} (c : M World A) : M State A :=
  fun st => let '(r, w) := c (world st) in
            (r, {| embedding_model := embedding_model st; world := w |}).

Definition set_embedding_model (m : option EmbeddingModel) : M State unit :=
  fun st => (Ret tt, {| embedding_model := m; world := world st |}).

Definition EMBEDDING_MODEL_NAME : string :=
  "sentence-transformers/paraphrase-multilingual-mpnet-base-v2".

Definition _initialize_embeddings (cfg : Config) : M State unit :=
  try_except
    (m <- lift_world (new_embeddings EMBEDDING_MODEL_NAME (get_api_token cfg)) ;;
     set_embedding_model (Some m))
    (fun e => raise e).

(** [VectorStoreManager()]. *)
Definition __init__ (cfg : Config) : M State unit :=
  set_embedding_model None ;;;
  _initialize_embeddings cfg.

Definition SEPARATORS : list string :=
  [String (ascii_of_nat 10) (String (ascii_of_nat 10) EmptyString);
   String (ascii_of_nat 10) EmptyString;
   " ";
   ""].

(** A pure computation that can raise, run inside the manager. *)
Definition lift_outcome {A} (r : outcome A) : M State A := fun st => (r, st).

(** The first two statements of [create_vector_store]: the splitter is
    built and the transcript is cut into documents. *)
Definition chunk_transcript (transcript : string) (chunk_size chunk_overlap : Z)
  : outcome (list Document) :=
  match RecursiveCharacterTextSplitter chunk_size chunk_overlap SEPARATORS with
  | Raise e => Raise e
  | Ret splitter => create_documents splitter transcript
  end.

(** The tuple [(vector_store, num_chunks, error_message)]. *)
Definition create_vector_store (transcript : string) (chunk_size chunk_overlap : Z)
  : M State (option VectorStore * Z * option string) :=
  try_except
    (chunks <- lift_outcome (chunk_transcript transcript chunk_size chunk_overlap) ;;
     st <- get ;;
     vector_store <- lift_world (from_documents chunks (embedding_model st)) ;;
     ret (Some vector_store, py_len chunks, None))
    (fun e => ret (None, 0, Some ("Error creating vector store: " +:+ exn_str e))).

End Manager.

Section Extract.

Import UrlParse.
Context {unicode : Unicode}.

(** [s.split('/')[-1]]. *)
Definition last_segment (s : string) : outcome string :=
  match last (split "/" s) with
  | Some segment => Ret segment
  | None => Raise (Exn IndexError "list index out of range")
  end.

Definition extract_try (url : string) : outcome (option string) :=
  match urlparse url with
  | Raise e => Raise e
  | Ret parsed =>
      if String.eqb (lower (netloc parsed)) "youtu.be" then
        match last_segment (path parsed) with
        | Raise e => Raise e
        | Ret segment => Ret (Some segment)
        end
      else if startswith (lower (path parsed)) "/shorts" then
        match last_segment (path parsed) with
        | Raise e => Raise e
        | Ret segment => Ret (Some segment)
        end
      else
        match (if is_empty (query parsed) then None
               else parse_qs (query parsed) !! "v") with
        | Some (first :: _) => Ret (Some first)
        | _ =>
            if (String.length url =? 11)%nat && negb (has_char "/" url)
            then Ret (Some url)
            else Ret None
        end
  end.

Definition extract_video_id (url : string) : outcome (option string) :=
  match extract_try url with
  | Ret video_id => Ret video_id
  | Raise e => Ret None
  end.

End Extract.
End VectorStoreManager.

(** ** [vector_store.py]: fetching the transcript *)

Module Transcripts.

(** What [ytt_api.fetch] and [translated.fetch] return: the caption
    snippets in order (their texts), the language and whether the captions
    were generated. *)
Record FetchedTranscript : Type := {
  snippets : list string;
  language : string;
  is_generated : bool
}.

(** An entry of the transcript list. *)
Record TranscriptInfo : Type := {
  tr_language : string;
  tr_language_code : string;
  tr_is_generated : bool;
  is_translatable : bool
}.

(** The transcript source (youtube_transcript_api):
    - [new_api]: the constructor [YouTubeTranscriptApi()];
    - [api_fetch]: [ytt_api.fetch(video_id, languages=...)];
    - [api_list]: [ytt_api.list(video_id)];
    - [transcripts]: the attribute [transcript_list.transcripts], a
      dictionary kept as the list of its items in insertion order; the
      [TranscriptList] of the library defines no attribute of that name,
      so with the library the access raises [AttributeError];
    - [translate]: [transcript.translate(language_code)];
    - [transcript_fetch]: [transcript.fetch()].
    A transcript object carries the data of [info]. *)
Class Source : Type := {
  World : Type;
  Api : Type;
  TranscriptList : Type;
  Transcript : Type;
  info : Transcript -> TranscriptInfo;
  new_api : M World Api;
  api_fetch : Api -> string -> list string -> M World FetchedTranscript;
  api_list : Api -> string -> M World TranscriptList;
  transcripts : TranscriptList -> M World (list (string * Transcript));
  translate : Transcript -> string -> M World Transcript;
  transcript_fetch : Transcript -> M World FetchedTranscript
}.

Section Fetch.

Context {src : Source}.

(** The tuple [(transcript_text, language, is_generated, error_message)]. *)
Definition result : Type :=
  (option string * option string * option bool * option string)%type.

(** The local variable [ytt_api] is bound only once the constructor has
    returned; the handlers run in the same frame. *)
Record Frame : Type := { ytt_api : option Api; world : World }.

Definition lift_world {A} (c : M World A) : M Frame A :=
  fun fr => let '(r, w) := c (world fr) in (r, {| ytt_api := ytt_api fr; world := w |}).

Definition bind_ytt_api (api : Api) : M Frame unit :=
  fun fr => (Ret tt, {| ytt_api := Some api; world := world fr |}).

Definition read_ytt_api : M Frame Api :=
  fr <- get ;;
  match ytt_api fr with
  | Some api => ret api
  | None => raise (Exn UnboundLocalError
                     "cannot access local variable 'ytt_api' where it is not associated with a value")
  end.

Definition LANGUAGES : list string := ["hi"; "en"; "en-IN"; "hi-IN"].

Definition fetch_try (video_id : string) : M Frame result :=
  api <- lift_world new_api ;;
  bind_ytt_api api ;;;
  fetched_transcript <- lift_world (api_fetch api video_id LANGUAGES) ;;
  let transcript := join " " (snippets fetched_transcript) in
  ret (Some transcript,
       Some (language fetched_transcript),
       Some (is_generated fetched_transcript),
       None).

Definition translate_try (video_id : string) : M Frame result :=
  api <- read_ytt_api ;;
  transcript_list <- lift_world (api_list api video_id) ;;
  available_transcripts <- lift_world (transcripts transcript_list) ;;
  let not_found :=
    ret (None, None, None,
         Some "No Hindi or English transcript found, and translation not available") in
  match available_transcripts with
  | [] => not_found
  | (_, first_transcript) :: _ =>
      if is_translatable (info first_transcript) then
        translated <- lift_world (translate first_transcript "en") ;;
        fetched_transcript <- lift_world (transcript_fetch translated) ;;
        let transcript := join " " (snippets fetched_transcript) in
        ret (Some transcript,
             Some (tr_language (info first_transcript) +:+ " (translated to English)"),
             Some (tr_is_generated (info first_transcript)),
             None)
      else not_found
  end.

Definition fetch_except (video_id : string) (e : exn) : M Frame result :=
  match exn_cls e with
  | TranscriptsDisabled =>
      ret (None, None, None, Some "Transcripts are disabled for this video")
  | NoTranscriptFound =>
      try_except (translate_try video_id)
        (fun e' => ret (None, None, None, Some ("No transcript available: " +:+ exn_str e')))
  | _ =>
      ret (None, None, None, Some ("Error: " +:+ exn_str e))
  end.

Definition fetch_transcript (video_id : string) : M World result :=
  fun w =>
    let '(r, fr) := try_except (fetch_try video_id) (fetch_except video_id)
                      {| ytt_api := None; world := w |} in
    (r, world fr).

End Fetch.
End Transcripts.

(** ** [query_engine.py] *)

Module QueryEngine.

Definition loc := nat.

(** The services the engine calls: the state of the outside world, the
    vector index object built by the library, the chat model object, and

    - [similarity_retrieve]: the similarity search of a retriever, given the
      store it reads, its search type and keyword arguments, and the query
      (the query is embedded remotely);
    - [chat_invoke]: the chat model followed by the string output parser,
      system and user message in, text out;
    - [new_chat_model]: the two constructors of [_initialize_llm], given the
      authentication token. *)
Class Services : Type := {
  World : Type;
  VectorStore : Type;
  ChatModel : Type;
  similarity_retrieve :
    VectorStore -> string -> gmap string pyval -> string -> M World (list Document);
  chat_invoke : ChatModel -> string -> string -> M World string;
  new_chat_model : option string -> M World ChatModel
}.

Section Engine.

Context {svc : Services}.

(** The retriever made by [as_retriever]: it refers to its store and owns
    the dictionary of search keyword arguments. *)
Record Retriever : Type := {
  vectorstore : loc;
  search_type : string;
  search_kwargs : gmap string pyval
}.

(** The chain [parallel_chain | prompt | model | StrOutputParser()]: it
    holds the same retriever object as the engine, and the model. *)
Record RagChain : Type := {
  chain_retriever : loc;
  chain_model : ChatModel
}.

(** The attributes of a [QueryEngine] instance. *)
Record Engine : Type := {
  vector_store : option loc;
  k : Z;
  model : option ChatModel;
  rag_chain : option RagChain;
  retriever : option loc
}.

(** The objects reachable from an engine, the engine itself and the world. *)
Record State : Type := {
  self : Engine;
  stores : gmap loc VectorStore;
  retrievers : gmap loc Retriever;
  world : World
}.

Definition lift_world {A} (c : M World A) : M State A :=
  fun st => let '(r, w) := c (world st) in
            (r, {| self := self st; stores := stores st;
                   retrievers := retrievers st; world := w |}).

Definition set_self (e : Engine) : M State unit :=
  fun st => (Ret tt, {| self := e; stores := stores st;
                        retrievers := retrievers st; world := world st |}).

Definition set_retrievers (r : gmap loc Retriever) : M State unit :=
  fun st => (Ret tt, {| self := self st; stores := stores st;
                        retrievers := r; world := world st |}).

Definition none_has_no_attribute (attr : string) : exn :=
  Exn AttributeError ("'NoneType' object has no attribute '" +:+ attr +:+ "'").

(** Dereference of an object reference; a dangling one cannot occur in
    Python and is reported as an error of its own. *)
Definition dangling : exn := Exn (OtherError "dangling") "dangling reference".

(** [retriever.invoke(question)] on the retriever object at [r]. *)
Definition retriever_invoke (r : loc) (question : string) : M State (list Document) :=
  st <- get ;;
  match retrievers st !! r with
  | None => raise dangling
  | Some rt =>
      match stores st !! vectorstore rt with
      | None => raise dangling
      | Some vs =>
          lift_world (similarity_retrieve vs (search_type rt) (search_kwargs rt) question)
      end
  end.

Definition dquote : string := String (ascii_of_nat 34) EmptyString.

Definition system_message : string :=
"You are a helpful AI assistant that answers questions based on YouTube video transcripts.

    IMPORTANT INSTRUCTIONS:
    - Answer ONLY using information from the provided context
    - The context may be in Hindi, English, or any other language
    - **ALWAYS respond in ENGLISH, regardless of the question language or context language**
    - If the context is in Hindi or another language, translate the information to English in your response
    - If the context doesn't contain enough information, say: " +:+ dquote +:+
"I don't have enough information in the transcript to answer that" +:+ dquote +:+ "
    - Be concise, clear, and specific
    - Use direct quotes when relevant (translate them to English if needed)
    - Maintain a conversational but informative tone
    - Never respond in Hindi or any language other than English".

Definition user_message (context question : string) : string :=
"Context from video transcript (may be in any language):
    " +:+ context +:+ "

    Question: " +:+ question +:+ "

    Remember: Your response MUST be in ENGLISH only.

    Answer:".

Definition newline : string := String (ascii_of_nat 10) EmptyString.

Definition format_docs (retrieved_docs : list Document) : string :=
  join (newline +:+ newline) (map page_content retrieved_docs).

(** [chain.invoke(question)]: retrieve, format the context, fill the
    prompt, call the model, parse its output to a string. *)
Definition rag_chain_invoke (c : RagChain) (question : string) : M State string :=
  docs <- retriever_invoke (chain_retriever c) question ;;
  let context := format_docs docs in
  lift_world (chat_invoke (chain_model c) system_message (user_message context question)).

(** A dictionary literal. *)
Definition dict (items : list (string * pyval)) : gmap string pyval :=
  list_to_map items.

Definition query_try (question : string) : M State (gmap string pyval) :=
  st <- get ;;
  answer <- match rag_chain (self st) with
            | None => raise (none_has_no_attribute "invoke")
            | Some c => rag_chain_invoke c question
            end ;;
  source_docs <- match retriever (self st) with
                 | None => raise (none_has_no_attribute "invoke")
                 | Some r => retriever_invoke r question
                 end ;;
  let sources := map page_content source_docs in
  ret (dict [("success", PyBool true);
             ("question", PyStr question);
             ("answer", PyStr answer);
             ("sources", PyList (map PyStr sources));
             ("num_sources", PyInt (py_len sources));
             ("error", PyNone)]).

Definition query_except (question : string) (e : exn) : M State (gmap string pyval) :=
  ret (dict [("success", PyBool false);
             ("question", PyStr question);
             ("answer", PyNone);
             ("sources", PyList []);
             ("num_sources", PyInt 0);
             ("error", PyStr ("Error processing query: " +:+ exn_str e))]).

Definition query (question : string) : M State (gmap string pyval) :=
  try_except (query_try question) (query_except question).

Definition set_model (m : ChatModel) : M State unit :=
  st <- get ;;
  let s := self st in
  set_self {| vector_store := vector_store s; k := k s; model := Some m;
              rag_chain := rag_chain s; retriever := retriever s |}.

Definition _initialize_llm (cfg : Config) : M State unit :=
  try_except
    (m <- lift_world (new_chat_model (get_api_token cfg)) ;;
     set_model m)
    (fun e => raise e).

(** [vector_store.as_retriever(search_type=..., search_kwargs=...)]: a new
    retriever object referring to the store. *)
Definition as_retriever (vs : loc) (stype : string) (kwargs : gmap string pyval)
  : M State loc :=
  st <- get ;;
  let r := fresh (dom (retrievers st)) in
  set_retrievers (<[r := {| vectorstore := vs; search_type := stype;
                            search_kwargs := kwargs |}]> (retrievers st)) ;;;
  ret r.

Definition _build_rag_chain : M State unit :=
  try_except
    (st <- get ;;
     r <- match vector_store (self st) with
          | None => raise (none_has_no_attribute "as_retriever")
          | Some vs => as_retriever vs "similarity" (dict [("k", PyInt (k (self st)))])
          end ;;
     st <- get ;;
     let s := self st in
     set_self {| vector_store := vector_store s; k := k s; model := model s;
                 rag_chain := rag_chain s; retriever := Some r |} ;;;
     match model s with
     | None => raise (Exn (OtherError "TypeError") "unsupported operand type(s) for |")
     | Some m =>
         set_self {| vector_store := vector_store s; k := k s; model := model s;
                     rag_chain := Some {| chain_retriever := r; chain_model := m |};
                     retriever := Some r |}
     end)
    (fun e => raise e).

(** [QueryEngine(vector_store, k)]. *)
Definition __init__ (cfg : Config) (vector_store : option loc) (k : Z) : M State unit :=
  set_self {| vector_store := vector_store; k := k; model := None;
              rag_chain := None; retriever := None |} ;;;
  _initialize_llm cfg ;;;
  _build_rag_chain.

Definition update_k (new_k : Z) : M State unit :=
  st <- get ;;
  let s := self st in
  set_self {| vector_store := vector_store s; k := new_k; model := model s;
              rag_chain := rag_chain s; retriever := retriever s |} ;;;
  match retriever s with
  | None => raise (none_has_no_attribute "search_kwargs")
  | Some r =>
      match retrievers st !! r with
      | None => raise dangling
      | Some rt =>
          set_retrievers
            (<[r := {| vectorstore := vectorstore rt; search_type := search_type rt;
                       search_kwargs := <["k" := PyInt new_k]> (search_kwargs rt) |}]>
               (retrievers st))
      end
  end.

Definition batch_query (questions : list string) : M State (list (gmap string pyval)) :=
  for_append query questions.

End Engine.
End QueryEngine.

(** ** [vector_store.py]: the whole pipeline of a video *)

Module Pipeline.
Import PyString.

Section ProcessVideo.

Context {unicode : UrlParse.Unicode}.
Context {src : Transcripts.Source}.
Context {backend : VectorStoreManager.Backend}.

(** The values of the result dictionary: plain values, the vector store
    object, and the metadata dictionary. *)
Inductive value : Type :=
  | Py (v : pyval)
  | Store (vs : VectorStoreManager.VectorStore)
  | Dict (items : gmap string pyval).

(** The manager with the world of its backend, and the world of the
    transcript source.  Each service answers from its own history. *)
Record State : Type := {
  manager : VectorStoreManager.State;
  source : Transcripts.World
}.

Definition lift_manager {A} (c : M VectorStoreManager.State A) : M State A :=
  fun st => let '(r, m) := c (manager st) in (r, {| manager := m; source := source st |}).

Definition lift_source {A} (c : M Transcripts.World A) : M State A :=
  fun st => let '(r, w) := c (source st) in (r, {| manager := manager st; source := w |}).

(** The truth value of an optional string: [None] and [""] are false. *)
Definition truthy (s : option string) : bool :=
  match s with
  | Some (String _ _) => true
  | _ => false
  end.

Definition optional_str (s : option string) : pyval :=
  match s with Some s => PyStr s | None => PyNone end.

Definition optional_bool (b : option bool) : pyval :=
  match b with Some b => PyBool b | None => PyNone end.

Definition initial_result : gmap string value :=
  list_to_map [("success", Py (PyBool false));
               ("video_id", Py PyNone);
               ("vector_store", Py PyNone);
               ("metadata", Dict ∅);
               ("error", Py PyNone)].

(** [self.create_vector_store(transcript)] with the default sizes.  A null
    transcript, which [fetch_transcript] never returns without an error,
    makes the splitter raise inside the [try] of [create_vector_store]. *)
Definition create_default (transcript : option string)
  : M VectorStoreManager.State
      (option VectorStoreManager.VectorStore * Z * option string) :=
  match transcript with
  | Some text => VectorStoreManager.create_vector_store text 1000 200
  | None =>
      ret (None, 0,
           Some "Error creating vector store: expected string or bytes-like object, got 'NoneType'")
  end.

Definition process_video (video_url : string) : M State (gmap string value) :=
  let result := initial_result in
  video_id <- (fun st => (VectorStoreManager.extract_video_id video_url, st)) ;;
  match video_id with
  | Some (String c rest) =>
      let video_id := String c rest in
      let result := <["video_id" := Py (PyStr video_id)]> result in
      fetched <- lift_source (Transcripts.fetch_transcript video_id) ;;
      let '(transcript, language, is_generated, error) := fetched in
      if truthy error then ret (<["error" := Py (optional_str error)]> result)
      else
        created <- lift_manager (create_default transcript) ;;
        let '(vector_store, num_chunks, error) := created in
        if truthy error then ret (<["error" := Py (optional_str error)]> result)
        else
          let result := <["success" := Py (PyBool true)]> result in
          let result :=
            <["vector_store" :=
                match vector_store with Some vs => Store vs | None => Py PyNone end]>
              result in
          let result :=
            <["metadata" :=
                Dict (list_to_map
                        [("video_id", PyStr video_id);
                         ("language", optional_str language);
                         ("is_generated", optional_bool is_generated);
                         ("num_chunks", PyInt num_chunks);
                         ("transcript_length",
                          match transcript with
                          | Some text => PyInt (len text)
                          | None => PyNone
                          end)])]>
              result in
          ret result
  | _ => ret (<["error" := Py (PyStr "Invalid YouTube URL")]> result)
  end.

End ProcessVideo.
End Pipeline.

(** ** [query_engine.py]: the search with scores *)

Module SimilaritySearch.
Import QueryEngine.

(** [vector_store.similarity_search_with_score(query, k=k)] of the vector
    index library: the nearest documents with their distances. *)
Class ScoredSearch {svc : Services} : Type := {
  Score : Type;
  similarity_search_with_score :
    VectorStore -> string -> Z -> M World (list (Document * Score))
}.

Section Search.

Context {svc : Services} {scored : ScoredSearch}.

Definition similarity_search (query : string) (k : Z)
  : M State (list (Document * Score)) :=
  try_except
    (st <- get ;;
     match vector_store (self st) with
     | None => raise (none_has_no_attribute "similarity_search_with_score")
     | Some l =>
         match stores st !! l with
         | None => raise dangling
         | Some vs => lift_world (similarity_search_with_score vs query k)
         end
     end)
    (fun _ => ret []).

End Search.
End SimilaritySearch.

(** ** [app.py]: the variables of the session *)

Module Session.

(** A chat message: its role, its content and, for an answer, its sources. *)
Definition message : Type := gmap string pyval.

(** The values kept in [st.session_state]: null, a flag, a text, the list
    of messages, the metadata dictionary, and the manager or the engine. *)
Inductive session_value : Type :=
  | SNone
  | SBool (b : bool)
  | SStr (s : string)
  | SMessages (messages : list message)
  | SMetadata (metadata : gmap string pyval)
  | SObject (id : nat).

(** [if key not in st.session_state: st.session_state.key = default]. *)
Definition set_default (key : string) (default : session_value)
    (session_state : gmap string session_value) : gmap string session_value :=
  match session_state !! key with
  | Some _ => session_state
  | None => <[key := default]> session_state
  end.

Definition initialize_session_state (session_state : gmap string session_value)
  : gmap string session_value :=
  let session_state := set_default "messages" (SMessages []) session_state in
  let session_state := set_default "vector_store_manager" SNone session_state in
  let session_state := set_default "query_engine" SNone session_state in
  let session_state := set_default "current_video_id" SNone session_state in
  let session_state := set_default "video_metadata" (SMetadata ∅) session_state in
  let session_state := set_default "processing" (SBool false) session_state in
  session_state.

(** What [initialize_session_state] gives a variable that is missing. *)
Definition default_of (k : string) : option session_value :=
  initialize_session_state ∅ !! k.

Definition reset_app (session_state : gmap string session_value)
  : gmap string session_value :=
  let session_state := <["messages" := SMessages []]> session_state in
  let session_state := <["vector_store_manager" := SNone]> session_state in
  let session_state := <["query_engine" := SNone]> session_state in
  let session_state := <["current_video_id" := SNone]> session_state in
  let session_state := <["video_metadata" := SMetadata ∅]> session_state in
  let session_state := <["processing" := SBool false]> session_state in
  session_state.

(** The names of the six variables. *)
Definition VARIABLES : list string :=
  ["messages"; "vector_store_manager"; "query_engine"; "current_video_id";
   "video_metadata"; "processing"].

End Session.

(** Closed transcript sources, used to run the fetcher.  As with the
    library, a transcript list has no attribute [transcripts]: the access
    raises [AttributeError]. *)
Module DemoSource.
Import Transcripts.

Definition NO_TRANSCRIPTS_ATTRIBUTE : exn :=
  Exn AttributeError "'TranscriptList' object has no attribute 'transcripts'".

(** The first request has the given outcome, and the list request gives
    the transcripts [listed]. *)
Definition source (first : outcome FetchedTranscript)
    (listed : list (string * TranscriptInfo)) : Source := {|
  World := unit;
  Api := unit;
  TranscriptList := list (string * TranscriptInfo);
  Transcript := TranscriptInfo;
  info := fun t => t;
  new_api := fun w => (Ret tt, w);
  api_fetch := fun _ _ _ w => (first, w);
  api_list := fun _ _ w => (Ret listed, w);
  transcripts := fun _ w => (Raise NO_TRANSCRIPTS_ATTRIBUTE, w);
  translate := fun _ _ w => (Raise (Exn (OtherError "NotTranslatable") "not translatable"), w);
  transcript_fetch := fun _ w => (Raise (Exn (OtherError "RequestBlocked") "blocked"), w)
|}.

Definition captions_disabled : Source :=
  source (Raise (Exn TranscriptsDisabled "Subtitles are disabled for this video")) [].

Definition german_only : Source :=
  source (Raise (Exn NoTranscriptFound "No transcripts were found"))
         [("de", {| tr_language := "German"; tr_language_code := "de";
                    tr_is_generated := false; is_translatable := false |})].

Definition english : Source :=
  source (Ret {| snippets := ["hello"; "world"]; language := "English";
                 is_generated := true |}) [].

(** A source whose first request finds no transcript in the requested
    languages; [listing] is the outcome of the list request, and a listed
    transcript that is translated and fetched would give [translated]. *)
Definition fallback (listing : outcome (list (string * TranscriptInfo)))
    (translated : FetchedTranscript) : Source := {|
  World := unit;
  Api := unit;
  TranscriptList := list (string * TranscriptInfo);
  Transcript := TranscriptInfo;
  info := fun t => t;
  new_api := fun w => (Ret tt, w);
  api_fetch := fun _ _ _ w => (Raise (Exn NoTranscriptFound "No transcripts were found"), w);
  api_list := fun _ _ w => (listing, w);
  transcripts := fun _ w => (Raise NO_TRANSCRIPTS_ATTRIBUTE, w);
  translate := fun t _ w => (Ret t, w);
  transcript_fetch := fun _ w => (Ret translated, w)
|}.

Definition german : TranscriptInfo :=
  {| tr_language := "German"; tr_language_code := "de";
     tr_is_generated := false; is_translatable := false |}.

Definition spanish : TranscriptInfo :=
  {| tr_language := "Spanish (auto-generated)"; tr_language_code := "es";
     tr_is_generated := true; is_translatable := true |}.

Definition hello_world : FetchedTranscript :=
  {| snippets := ["hello"; "world"]; language := "English"; is_generated := false |}.

End DemoSource.

(** A closed backend, used to run the manager: the embedding client is
    built from any token, and the index is the list of its chunks. *)
Module DemoBackend.
Import VectorStoreManager.

Definition backend : Backend := {|
  World := unit;
  EmbeddingModel := unit;
  VectorStore := list Document;
  new_embeddings := fun _ _ w => (Ret tt, w);
  from_documents := fun chunks _ w => (Ret chunks, w)
|}.

(** Streamlit is installed, no secrets file can be read and the
    environment holds no token. *)
Definition no_token : Config :=
  {| HAS_STREAMLIT := true;
     st_secrets := Raise (Exn (OtherError "StreamlitSecretNotFoundError") "No secrets found");
     environ := ∅ |}.

(** Streamlit is installed and its secrets file is readable but has no
    entry for the token; the environment holds one. *)
Definition token_in_environment_only : Config :=
  {| HAS_STREAMLIT := true;
     st_secrets := Ret ∅;
     environ := {[ TOKEN_KEY := "hf_environment" ]} |}.


Definition ready_state : State (backend := backend) :=
  @Build_State backend (Some tt) tt.

End DemoBackend.

(** A closed instance of the Unicode routines, for inputs that reach none
    of them: no check fails and escapes are left as they are. *)
Module DemoUnicode.

Definition unicode : UrlParse.Unicode := {|
  UrlParse.check_bracketed_netloc := fun _ => None;
  UrlParse.check_nfkc := fun _ => None;
  UrlParse.unquote_escapes := fun s => s
|}.

End DemoUnicode.

(** A small closed instance of the services, used to run the engine on
    concrete inputs: the store is the list of its chunks, retrieval gives
    the first [k] of them, and the model echoes the user message. *)
Module Demo.
Import QueryEngine.

Definition first_k (kwargs : gmap string pyval) (docs : list Document) : list Document :=
  match kwargs !! "k" with
  | Some (PyInt n) => take (Z.to_nat n) docs
  | _ => docs
  end.

Definition services : Services := {|
  World := unit;
  VectorStore := list Document;
  ChatModel := unit;
  similarity_retrieve := fun vs _ kwargs _ w => (Ret (first_k kwargs vs), w);
  chat_invoke := fun _ _ user w => (Ret user, w);
  new_chat_model := fun _ w => (Ret tt, w)
|}.

Definition chunks : list Document :=
  [ {| page_content := "alpha" |}; {| page_content := "beta" |};
    {| page_content := "gamma" |} ].

(** An engine as [__init__] leaves it: one store, one retriever with k = 4,
    shared by the engine and its chain. *)
Definition retriever0 : Retriever :=
  {| vectorstore := 0%nat; search_type := "similarity";
     search_kwargs := dict [("k", PyInt 4)] |}.

Definition chain0 : RagChain (svc := services) :=
  @Build_RagChain services 0%nat tt.

Definition engine0 : Engine (svc := services) :=
  @Build_Engine services (Some 0%nat) 4 (Some tt) (Some chain0) (Some 0%nat).

Definition state0 : State (svc := services) :=
  @Build_State services engine0 {[ 0%nat := chunks ]} {[ 0%nat := retriever0 ]} tt.

(** Services whose index changes between two searches: the world counts
    the searches made, and each search skips that many chunks. *)
Definition drifting : Services := {|
  World := nat;
  VectorStore := list Document;
  ChatModel := unit;
  similarity_retrieve := fun vs _ kwargs _ w => (Ret (first_k kwargs (drop w vs)), S w);
  chat_invoke := fun _ _ user w => (Ret user, w);
  new_chat_model := fun _ w => (Ret tt, w)
|}.

Definition drifting_chain : RagChain (svc := drifting) :=
  @Build_RagChain drifting 0%nat tt.

Definition drifting_state : State (svc := drifting) :=
  @Build_State drifting
    (@Build_Engine drifting (Some 0%nat) 4 (Some tt) (Some drifting_chain) (Some 0%nat))
    {[ 0%nat := chunks ]} {[ 0%nat := retriever0 ]} 0%nat.

(** The search with scores of the closed instance: the first [k] chunks,
    each with its rank as distance. *)
Definition scored : SimilaritySearch.ScoredSearch (svc := services) :=
  @SimilaritySearch.Build_ScoredSearch services nat
    (fun (vs : list Document) _ k w =>
       (Ret (imap (fun i d => (d, i)) (take (Z.to_nat k) vs)), w)).

End Demo.

(** A closed pipeline: the manager of the closed backend, ready, and the
    world of a closed transcript source. *)
Module DemoPipeline.

Definition state (src : Transcripts.Source) (w : Transcripts.World)
  : Pipeline.State (src := src) (backend := DemoBackend.backend) :=
  @Pipeline.Build_State src DemoBackend.backend DemoBackend.ready_state w.

End DemoPipeline.

(** ** The vocabulary of the properties *)

Section ResultVocabulary.

(** The shape every result dictionary has: a boolean ['success'], a list
    ['sources'] whose length is ['num_sources'], and on failure no source
    and no answer. *)
Definition result_invariant (d : gmap string pyval) : Prop :=
  exists (b : bool) (srcs : list pyval),
    d !! "success" = Some (PyBool b) /\
    d !! "sources" = Some (PyList srcs) /\
    d !! "num_sources" = Some (PyInt (py_len srcs)) /\
    (b = false ->
       srcs = [] /\ d !! "num_sources" = Some (PyInt 0) /\
       d !! "answer" = Some PyNone).

End ResultVocabulary.

Section FetchVocabulary.

Import Transcripts.
Context {src : Source}.

(** The transcript list of the source is the one of the library: it has
    no attribute [transcripts], and the access raises [AttributeError]
    without a request to the service. *)
Definition transcripts_attribute_missing : Prop :=
  forall (tl : TranscriptList) (w : World),
    transcripts tl w =
      (Raise (Exn AttributeError "'TranscriptList' object has no attribute 'transcripts'"),
       w).

(** The messages [fetch_transcript] has for a video without a transcript
    in the requested languages. *)
Definition unavailable_message (msg : string) : Prop :=
  msg = "No Hindi or English transcript found, and translation not available" \/
  exists e : exn, msg = "No transcript available: " +:+ exn_str e.

End FetchVocabulary.

Section ExtractVocabulary.

Import PyString UrlParse.
Context {unicode : Unicode}.

(** The value of [parse_qs(parsed.query).get('v')] when the query is not
    empty. *)
Definition v_parameter (parsed : ParseResult) : option (list string) :=
  if is_empty (query parsed) then None else parse_qs (query parsed) !! "v".

(** The input has one of the recognized shapes: it parses, and the host is
    the short-link host, or the path begins with the shorts segment, or the
    query names a video; or it is a bare token of 11 characters without a
    path separator. *)
Definition recognized (url : string) : Prop :=
  (exists parsed,
     urlparse url = Ret parsed /\
     (lower (netloc parsed) = "youtu.be" \/
      startswith (lower (path parsed)) "/shorts" = true \/
      exists first rest, v_parameter parsed = Some (first :: rest))) \/
  (String.length url = 11%nat /\ has_char "/" url = false).

(** No character of [s] is one of [cs]. *)
Definition avoids (cs : list ascii) (s : string) : bool :=
  all_chars (fun x => negb (existsb (Ascii.eqb x) cs)) s.

(** The characters that the parser or the query decoder treats specially. *)
Definition SPECIAL : list ascii :=
  ["/"; "#"; "?"; "&"; "%"; "+"; ";";
   ascii_of_nat 9; ascii_of_nat 10; ascii_of_nat 13]%char.

Definition UNSAFE : list ascii := [ascii_of_nat 9; ascii_of_nat 13; ascii_of_nat 10].

End ExtractVocabulary.

Section ChunkVocabulary.

Import PyString TextSplitter.

(** The concatenation of a list of strings. *)
Definition concat_str (parts : list string) : string :=
  fold_right String.append "" parts.

(** A span of the transcript: the text carried over from the span before
    it, and the text that is new in it. *)
Definition span : Type := (string * string)%type.

Definition span_text (s : span) : string := s.1 +:+ s.2.

(** Consecutive spans overlap: what each span carries over is the end of
    the span before it; the first span carries nothing over. *)
Fixpoint overlapping (previous : string) (spans : list span) : Prop :=
  match spans with
  | [] => True
  | s :: rest =>
      (exists before, previous = before +:+ s.1) /\ overlapping (span_text s) rest
  end.

(** The non-overlapping parts of the spans, concatenated. *)
Definition new_text (spans : list span) : string := concat_str (map snd spans).

(** The chunk a span gives: its text without the whitespace at both ends,
    and no chunk when nothing is left. *)
Definition stripped_chunk (text : string) : option string :=
  let text := strip text in
  if is_empty text then None else Some text.

Definition chunks_of_spans (spans : list span) : list string :=
  omap (fun s => stripped_chunk (span_text s)) spans.

(** Lossless chunking, in the words of the specification: the chunks, in
    order, are spans of the text of which each begins with the end of the
    one before, and their non-overlapping parts concatenate to the text. *)
Definition lossless (chunks : list string) (text : string) : Prop :=
  exists spans,
    overlapping "" spans /\ new_text spans = text /\ chunks = map span_text spans.

Definition bounded (limit : Z) (chunks : list string) : Prop :=
  Forall (fun chunk => len chunk <= limit) chunks.

Definition last_text (previous : string) (spans : list span) : string :=
  match last spans with
  | Some s => span_text s
  | None => previous
  end.

(** What a call of the splitter gives: the stripped spans of its text, no
    chunk longer than the chunk size. *)
Definition splits_well (sp : Splitter) (r : outcome (list string)) (text : string)
  : Prop :=
  exists spans,
    r = Ret (chunks_of_spans spans) /\
    overlapping "" spans /\
    new_text spans = text /\
    bounded (_chunk_size sp) (chunks_of_spans spans).

(** [n] copies of a character. *)
Fixpoint copies (n : nat) (c : ascii) : string :=
  match n with
  | O => EmptyString
  | S n' => String c (copies n' c)
  end.

End ChunkVocabulary.

Section PipelineVocabulary.

Import PyString Pipeline.
Context {unicode : UrlParse.Unicode}.
Context {src : Transcripts.Source}.
Context {backend : VectorStoreManager.Backend}.

(** The metadata of a processed video. *)
Definition metadata_of (video_id language : string) (generated : bool)
    (chunks : list Document) (text : string) : gmap string pyval :=
  list_to_map [("video_id", PyStr video_id);
               ("language", PyStr language);
               ("is_generated", PyBool generated);
               ("num_chunks", PyInt (py_len chunks));
               ("transcript_length", PyInt (len text))].

(** [d] is the result of a successful run of [process_video] on
    [video_url] from [st]: the identifier is the one extracted from the
    URL, the transcript is the one fetched for it, the store is the one
    the index library built from the chunks of that transcript, and the
    metadata hold the identifier, the language and the flag of the fetch,
    the number of those chunks and the length of the transcript. *)
Definition pipeline_success (video_url : string) (st : State)
    (d : gmap string value) : Prop :=
  exists video_id text language generated w' chunks vs w2,
    VectorStoreManager.extract_video_id video_url = Ret (Some video_id) /\
    video_id <> "" /\
    Transcripts.fetch_transcript video_id (source st) =
      (Ret (Some text, Some language, Some generated, None), w') /\
    VectorStoreManager.chunk_transcript text 1000 200 = Ret chunks /\
    VectorStoreManager.from_documents chunks
      (VectorStoreManager.embedding_model (manager st))
      (VectorStoreManager.world (manager st)) = (Ret vs, w2) /\
    d !! "success" = Some (Py (PyBool true)) /\
    d !! "video_id" = Some (Py (PyStr video_id)) /\
    d !! "vector_store" = Some (Store vs) /\
    d !! "error" = Some (Py PyNone) /\
    d !! "metadata" =
      Some (Dict (metadata_of video_id language generated chunks text)).

(** Where a failed run of [process_video] on [video_url] from [st] stopped,
    with the identifier and the message it reports: at the extraction,
    which gave null or the empty string; at the fetch, which gave the
    message for the extracted identifier; or at the index library, which
    raised on the chunks of the fetched transcript. *)
Definition pipeline_stop (video_url : string) (st : State)
    (video_id : option string) (msg : string) : Prop :=
  (video_id = None /\
   msg = "Invalid YouTube URL" /\
   (VectorStoreManager.extract_video_id video_url = Ret None \/
    VectorStoreManager.extract_video_id video_url = Ret (Some ""))) \/
  (exists id,
     video_id = Some id /\
     VectorStoreManager.extract_video_id video_url = Ret (Some id) /\
     id <> "" /\
     ((exists w',
         Transcripts.fetch_transcript id (source st) =
           (Ret (None, None, None, Some msg), w')) \/
      (exists text language generated w' chunks e w2,
         Transcripts.fetch_transcript id (source st) =
           (Ret (Some text, Some language, Some generated, None), w') /\
         VectorStoreManager.chunk_transcript text 1000 200 = Ret chunks /\
         VectorStoreManager.from_documents chunks
           (VectorStoreManager.embedding_model (manager st))
           (VectorStoreManager.world (manager st)) = (Raise e, w2) /\
         msg = "Error creating vector store: " +:+ exn_str e))).

(** [d] is the result of a failed run of [process_video] on [video_url]
    from [st]: a non-empty message, no store, empty metadata, and the
    identifier and message of the place where the run stopped. *)
Definition pipeline_failure (video_url : string) (st : State)
    (d : gmap string value) : Prop :=
  exists video_id msg,
    pipeline_stop video_url st video_id msg /\
    msg <> "" /\
    d !! "success" = Some (Py (PyBool false)) /\
    d !! "video_id" = Some (Py (optional_str video_id)) /\
    d !! "vector_store" = Some (Py PyNone) /\
    d !! "metadata" = Some (Dict ∅) /\
    d !! "error" = Some (Py (PyStr msg)).

Definition RESULT_KEYS : list string :=
  ["success"; "video_id"; "vector_store"; "metadata"; "error"].

End PipelineVocabulary.

(** * Properties *)

(** ** The query engine *)

Section QueryEngineProperties.

Import QueryEngine.
Context {svc : Services}.

Lemma query_try_inv question st d st' :
  query_try question st = (Ret d, st') ->
  exists answer docs,
    d = dict [("success", PyBool true);
              ("question", PyStr question);
              ("answer", PyStr answer);
              ("sources", PyList (map PyStr (map page_content docs)));
              ("num_sources", PyInt (py_len (map page_content docs)));
              ("error", PyNone)].
Proof.
  unfold query_try, bind, get, ret, raise.
  intros H. repeat case_match; simplify_eq; eauto.
Qed.

Lemma pair_Ret_inj {A S} (a b : A) (s t : S) :
  (Ret a, s) = (Ret b, t) -> a = b /\ s = t.
Proof. intros H. split; congruence. Qed.

(** The two calls of the [try] block, one after the other. *)
Lemma query_try_steps question st c r :
  rag_chain (self st) = Some c -> retriever (self st) = Some r ->
  query_try question st =
    match rag_chain_invoke c question st with
    | (Raise e, st1) => (Raise e, st1)
    | (Ret answer, st1) =>
        match retriever_invoke r question st1 with
        | (Raise e, st2) => (Raise e, st2)
        | (Ret docs, st2) =>
            (Ret (dict [("success", PyBool true);
                        ("question", PyStr question);
                        ("answer", PyStr answer);
                        ("sources", PyList (map PyStr (map page_content docs)));
                        ("num_sources", PyInt (py_len (map page_content docs)));
                        ("error", PyNone)]), st2)
        end
    end.
Proof.
  intros Hc Hr. unfold query_try, bind, get, ret. rewrite Hc, Hr.
  destruct (rag_chain_invoke c question st) as [[a|e] st1]; [|reflexivity].
  destruct (retriever_invoke r question st1) as [[ds|e] st2]; reflexivity.
Qed.

Lemma query_total question st :
  query question st =
    match query_try question st with
    | (Ret d, st') => (Ret d, st')
    | (Raise e, st') =>
        (Ret (dict [("success", PyBool false);
                    ("question", PyStr question);
                    ("answer", PyNone);
                    ("sources", PyList []);
                    ("num_sources", PyInt 0);
                    ("error", PyStr ("Error processing query: " +:+ exn_str e))]), st')
    end.
Proof. unfold query, try_except. repeat case_match; simplify_eq; reflexivity. Qed.

Lemma query_result_invariant question st :
  exists d st', query question st = (Ret d, st') /\ result_invariant d.
Proof.
  rewrite query_total.
  destruct (query_try question st) as [[d|e] st'] eqn:Htry.
  - exists d, st'. split; [reflexivity|].
    apply query_try_inv in Htry as (answer & docs & ->).
    exists true, (map PyStr (map page_content docs)).
    repeat split; try reflexivity; try discriminate.
    unfold py_len. by rewrite !length_map.
  - eexists _, st'. split; [reflexivity|].
    exists false, []. repeat split; reflexivity.
Qed.

(** C1. For every question, [query] returns a result dictionary and never
    raises: the dictionary holds a boolean ['success']; when the retrieval
    and the generation both return, ['success'] is true, ['answer'] is the
    generated text and ['sources'] the texts of the retrieved chunks; when
    either raises, ['success'] is false and ['error'] is a string that
    describes the exception. *)
Theorem query_never_raises (question : string) (st : State) :
  exists d st',
    query question st = (Ret d, st') /\
    (exists b : bool, d !! "success" = Some (PyBool b)) /\
    match query_try question st with
    | (Ret _, _) =>
        d !! "success" = Some (PyBool true) /\
        d !! "error" = Some PyNone /\
        exists (answer : string) (docs : list Document),
          d !! "answer" = Some (PyStr answer) /\
          d !! "sources" = Some (PyList (map PyStr (map page_content docs)))
    | (Raise e, _) =>
        d !! "success" = Some (PyBool false) /\
        d !! "error" = Some (PyStr ("Error processing query: " +:+ exn_str e))
    end /\
    (forall c r, rag_chain (self st) = Some c -> retriever (self st) = Some r ->
       match rag_chain_invoke c question st with
       | (Raise e, st1) =>
           st' = st1 /\ d !! "success" = Some (PyBool false) /\
           d !! "error" = Some (PyStr ("Error processing query: " +:+ exn_str e))
       | (Ret answer, st1) =>
           match retriever_invoke r question st1 with
           | (Raise e, st2) =>
               st' = st2 /\ d !! "success" = Some (PyBool false) /\
               d !! "error" = Some (PyStr ("Error processing query: " +:+ exn_str e))
           | (Ret docs, st2) =>
               st' = st2 /\ d !! "success" = Some (PyBool true) /\
               d !! "answer" = Some (PyStr answer) /\
               d !! "sources" = Some (PyList (map PyStr (map page_content docs)))
           end
       end).
Proof.
  rewrite query_total.
  destruct (query_try question st) as [[d|e] st'] eqn:Htry.
  - exists d, st'. split; [reflexivity|].
    destruct (query_try_inv _ _ _ _ Htry) as (answer & docs & Hd).
    split; [exists true; by rewrite Hd|]. split.
    + rewrite Hd. repeat split; try reflexivity. by exists answer, docs.
    + intros c r Hc Hr. rewrite (query_try_steps _ _ _ _ Hc Hr) in Htry.
      destruct (rag_chain_invoke c question st) as [[a|e] st1];
        [|exfalso; congruence].
      destruct (retriever_invoke r question st1) as [[ds|e] st2];
        [|exfalso; congruence].
      apply pair_Ret_inj in Htry as [<- <-].
      repeat split; reflexivity.
  - eexists _, st'. split; [reflexivity|].
    split; [by exists false|]. split.
    + split; reflexivity.
    + intros c r Hc Hr. rewrite (query_try_steps _ _ _ _ Hc Hr) in Htry.
      destruct (rag_chain_invoke c question st) as [[a|e1] st1].
      * destruct (retriever_invoke r question st1) as [[ds|e2] st2];
          [exfalso; congruence|].
        assert (e2 = e /\ st2 = st') as [-> ->] by (split; congruence).
        repeat split; reflexivity.
      * assert (e1 = e /\ st1 = st') as [-> ->] by (split; congruence).
        repeat split; reflexivity.
Qed.

(** C9. Every dictionary returned by [query], and so every element of the
    list returned by [batch_query], has ['num_sources'] equal to the length
    of ['sources']; when ['success'] is false, ['sources'] is empty,
    ['num_sources'] is 0 and ['answer'] is null. *)
Theorem query_num_sources_invariant :
  (forall (question : string) (st : State),
     exists d st', query question st = (Ret d, st') /\ result_invariant d) /\
  (forall (questions : list string) (st : State),
     exists ds st',
       batch_query questions st = (Ret ds, st') /\
       length ds = length questions /\
       Forall result_invariant ds).
Proof.
  split; [exact query_result_invariant|].
  induction questions as [|q qs IH]; intros st.
  - exists [], st. repeat split. constructor.
  - destruct (query_result_invariant q st) as (d & st1 & Hq & Hd).
    destruct (IH st1) as (ds & st2 & Hb & Hlen & Hall).
    exists (d :: ds), st2. unfold batch_query in *. cbn.
    unfold bind at 1. rewrite Hq. unfold bind at 1. rewrite Hb.
    repeat split; [cbn; congruence|by constructor].
Qed.

End QueryEngineProperties.

Section EngineConstruction.

Import QueryEngine.
Context {svc : Services}.

(** An engine that [__init__] has built holds a retriever, shared with its
    chain, whose width is the [k] it was given and whose store is the one
    it was given. *)
Lemma init_shares_retriever cfg vs k0 st st' :
  __init__ cfg (Some vs) k0 st = (Ret tt, st') ->
  exists r rt c,
    retriever (self st') = Some r /\
    rag_chain (self st') = Some c /\
    chain_retriever c = r /\
    retrievers st' !! r = Some rt /\
    vectorstore rt = vs /\
    search_kwargs rt !! "k" = Some (PyInt k0) /\
    k (self st') = k0 /\
    stores st' = stores st.
Proof.
  unfold __init__, _initialize_llm, _build_rag_chain, as_retriever, set_model,
    set_self, set_retrievers, lift_world, try_except, bind, get, ret, raise.
  cbn.
  destruct (new_chat_model (get_api_token cfg) (world st)) as [[m|e] w];
    cbn; [|discriminate].
  intros [= <-]. cbn.
  eexists _, _, _.
  split; [reflexivity|]. split; [reflexivity|]. split; [reflexivity|].
  split; [apply lookup_insert_eq|]. repeat split.
Qed.

End EngineConstruction.

Section UpdateK.

Import QueryEngine.
Context {svc : Services}.

(** C8. On an engine that holds a retriever, [update_k new_k] returns
    having set the engine's [k] and the ["k"] entry of the retriever's
    keyword arguments to [new_k]; the later retrievals of that retriever
    use the new width; the other keyword arguments, the retriever's store
    and search type, every vector store, the other retrievers, the other
    attributes of the engine and the outside world are unchanged. *)
Theorem update_k_changes_only_k (st : State) (new_k : Z) (r : loc) (rt : Retriever) :
  retriever (self st) = Some r ->
  retrievers st !! r = Some rt ->
  exists st',
    update_k new_k st = (Ret tt, st') /\
    k (self st') = new_k /\
    (exists rt',
       retrievers st' !! r = Some rt' /\
       search_kwargs rt' !! "k" = Some (PyInt new_k) /\
       (forall key, key <> "k" -> search_kwargs rt' !! key = search_kwargs rt !! key) /\
       vectorstore rt' = vectorstore rt /\
       search_type rt' = search_type rt) /\
    (forall vs question,
       stores st !! vectorstore rt = Some vs ->
       retriever_invoke r question st' =
         lift_world (similarity_retrieve vs (search_type rt)
                       (<["k" := PyInt new_k]> (search_kwargs rt)) question) st') /\
    stores st' = stores st /\
    (forall r', r' <> r -> retrievers st' !! r' = retrievers st !! r') /\
    vector_store (self st') = vector_store (self st) /\
    model (self st') = model (self st) /\
    rag_chain (self st') = rag_chain (self st) /\
    retriever (self st') = retriever (self st) /\
    world st' = world st.
Proof.
  intros Hr Hrt.
  unfold update_k, bind, get, set_self, set_retrievers.
  rewrite Hr, Hrt. eexists. split; [reflexivity|]. cbn.
  split; [reflexivity|]. split.
  - eexists. split; [apply lookup_insert_eq|]. cbn.
    split; [apply lookup_insert_eq|].
    split; [|split; reflexivity].
    intros key Hkey. by apply lookup_insert_ne.
  - split.
    + intros vs question Hvs.
      unfold retriever_invoke, bind, get. cbn.
      rewrite lookup_insert_eq. cbn. rewrite Hvs. reflexivity.
    + repeat split. intros r' Hne. by apply lookup_insert_ne.
Qed.

End UpdateK.

Lemma update_k_changes_only_k_witness :
  exists st',
    QueryEngine.update_k (svc := Demo.services) 7 Demo.state0 = (Ret tt, st') /\
    QueryEngine.k (QueryEngine.self st') = 7 /\
    QueryEngine.stores st' = QueryEngine.stores Demo.state0.
Proof.
  destruct (update_k_changes_only_k (svc := Demo.services)
              Demo.state0 7 0%nat Demo.retriever0)
    as (st' & Hrun & Hk & _ & _ & Hstores & _).
  - reflexivity.
  - reflexivity.
  - exists st'. repeat split; assumption.
Defined.

(** ** The transcript fetcher *)

Section FetchProperties.

Import Transcripts.
Context {src : Source}.

(** The handler always returns a failure tuple or a translated transcript. *)
Lemma fetch_except_returns video_id e fr :
  exists r fr', fetch_except video_id e fr = (Ret r, fr') /\
    ((exists text lang gen, r = (Some text, Some lang, Some gen, None)) \/
     (exists msg, msg <> "" /\ r = (None, None, None, Some msg))).
Proof.
  unfold fetch_except.
  destruct (exn_cls e);
    try (eexists _, _; split; [reflexivity|]; right; eexists; split;
         [|reflexivity]; discriminate).
  unfold try_except.
  destruct (translate_try video_id fr) as [[r|e'] fr'] eqn:Htr.
  - exists r, fr'. split; [reflexivity|].
    revert Htr. unfold translate_try, bind, ret.
    repeat case_match; intros; simplify_eq;
      first [ left; eexists _, _, _; reflexivity
            | right; eexists; split; [|reflexivity]; discriminate ].
  - eexists _, _. split; [reflexivity|]. right. eexists. split; [|reflexivity].
    discriminate.
Qed.

(** C10. For every video identifier, [fetch_transcript] returns a 4-tuple of
    one of two shapes: a text with a null error, or a non-empty error with
    null text, language and generated flag. *)
Theorem fetch_transcript_two_shapes (video_id : string) (w : World) :
  exists r w',
    fetch_transcript video_id w = (Ret r, w') /\
    ((exists text lang gen, r = (Some text, Some lang, Some gen, None)) \/
     (exists msg, msg <> "" /\ r = (None, None, None, Some msg))).
Proof.
  unfold fetch_transcript, try_except.
  destruct (fetch_try video_id {| ytt_api := None; world := w |})
    as [[r|e] fr] eqn:Htry.
  - exists r, (world fr). split; [reflexivity|]. left.
    revert Htry. unfold fetch_try, bind, ret.
    repeat case_match; intros; simplify_eq. eexists _, _, _; reflexivity.
  - destruct (fetch_except_returns video_id e fr) as (r & fr' & -> & Hshape).
    exists r, (world fr'). split; [reflexivity|exact Hshape].
Qed.

(** What the handler of [NoTranscriptFound] gives with an error is one of
    the messages for a transcript that is not available. *)
Lemma translate_handler_messages video_id fr transcript language generated msg fr' :
  try_except (translate_try video_id)
    (fun e' => ret (None, None, None,
                    Some ("No transcript available: " +:+ exn_str e'))) fr =
    (Ret (transcript, language, generated, Some msg), fr') ->
  unavailable_message msg.
Proof.
  unfold try_except.
  destruct (translate_try video_id fr) as [[r|e'] fr0] eqn:Htr.
  - intros [= -> _]. revert Htr. unfold translate_try, bind, ret.
    repeat case_match; intros; simplify_eq. all: by left.
  - unfold ret. intros [= <- _]. right. by exists e'.
Qed.

Lemma unavailable_not_disabled msg :
  unavailable_message msg -> msg <> "Transcripts are disabled for this video".
Proof.
  intros [->|[e' ->]]; [discriminate|].
  change ("No transcript available: " +:+ exn_str e')
    with (String "N" ("o transcript available: " +:+ exn_str e')).
  discriminate.
Qed.

(** C5. When the first request fails, [fetch_transcript] returns an error
    tuple or a translation instead of raising.  If the failure is
    [TranscriptsDisabled] the message says the transcripts are disabled.  If
    it is [NoTranscriptFound], every message returned is one of those for a
    transcript that is not available: when the list request raises, or
    when it returns and the access to the attribute [transcripts] raises,
    as it does with the transcript list of the library, the message is
    [No transcript available: ] followed by the text of that exception.
    No message for a transcript that is not available is the one for
    disabled transcripts. *)
Theorem fetch_transcript_disabled_vs_not_found
    (video_id : string) (w : World) (api : Api) (w1 : World) (e : exn) (w2 : World) :
  new_api w = (Ret api, w1) ->
  api_fetch api video_id LANGUAGES w1 = (Raise e, w2) ->
  (exists r w', fetch_transcript video_id w = (Ret r, w')) /\
  (exn_cls e = TranscriptsDisabled ->
     fetch_transcript video_id w =
       (Ret (None, None, None, Some "Transcripts are disabled for this video"), w2)) /\
  (exn_cls e = NoTranscriptFound ->
     (forall transcript language generated msg w',
        fetch_transcript video_id w =
          (Ret (transcript, language, generated, Some msg), w') ->
        unavailable_message msg) /\
     (forall e' w3,
        api_list api video_id w2 = (Raise e', w3) ->
        fetch_transcript video_id w =
          (Ret (None, None, None, Some ("No transcript available: " +:+ exn_str e')),
           w3)) /\
     (forall tl w3 e' w4,
        api_list api video_id w2 = (Ret tl, w3) ->
        transcripts tl w3 = (Raise e', w4) ->
        fetch_transcript video_id w =
          (Ret (None, None, None, Some ("No transcript available: " +:+ exn_str e')),
           w4))) /\
  (forall msg,
     unavailable_message msg -> msg <> "Transcripts are disabled for this video").
Proof.
  intros Hnew Hfetch.
  assert (Htry : fetch_try video_id {| ytt_api := None; world := w |} =
                 (Raise e, {| ytt_api := Some api; world := w2 |})).
  { unfold fetch_try, bind, lift_world, bind_ytt_api. cbn.
    rewrite Hnew. cbn. rewrite Hfetch. reflexivity. }
  split; [|split; [|split]].
  - unfold fetch_transcript, try_except. rewrite Htry.
    destruct (fetch_except_returns video_id e {| ytt_api := Some api; world := w2 |})
      as (r & fr' & -> & _).
    by exists r, (world fr').
  - intros Hcls. unfold fetch_transcript, try_except. rewrite Htry.
    unfold fetch_except. rewrite Hcls. reflexivity.
  - intros Hcls. split; [|split].
    + intros transcript language generated msg w'.
      unfold fetch_transcript. unfold try_except at 1. rewrite Htry.
      unfold fetch_except. rewrite Hcls.
      destruct (try_except _ _ _) as [[r|e0] fr'] eqn:Hrun; [|discriminate].
      intros [= -> _]. by eapply translate_handler_messages.
    + intros e' w3 Hlist.
      unfold fetch_transcript, try_except. rewrite Htry.
      unfold fetch_except. rewrite Hcls.
      unfold try_except, translate_try, read_ytt_api, bind, get, ret, lift_world.
      cbn. rewrite Hlist. reflexivity.
    + intros tl w3 e' w4 Hlist Hattr.
      unfold fetch_transcript, try_except. rewrite Htry.
      unfold fetch_except. rewrite Hcls.
      unfold try_except, translate_try, read_ytt_api, bind, get, ret, lift_world.
      cbn. rewrite Hlist. cbn. rewrite Hattr. reflexivity.
  - exact unavailable_not_disabled.
Qed.

End FetchProperties.

Lemma fetch_transcript_disabled_vs_not_found_witness :
  Transcripts.fetch_transcript (src := DemoSource.captions_disabled) "Gfr50f6ZBvo" tt =
    (Ret (None, None, None, Some "Transcripts are disabled for this video"), tt) /\
  Transcripts.fetch_transcript (src := DemoSource.german_only) "Gfr50f6ZBvo" tt =
    (Ret (None, None, None,
          Some "No transcript available: 'TranscriptList' object has no attribute 'transcripts'"),
     tt).
Proof.
  split.
  - destruct (fetch_transcript_disabled_vs_not_found
                (src := DemoSource.captions_disabled) "Gfr50f6ZBvo" tt tt tt
                (Exn TranscriptsDisabled "Subtitles are disabled for this video") tt)
      as (_ & Hdisabled & _); [reflexivity|reflexivity|].
    apply Hdisabled. reflexivity.
  - destruct (fetch_transcript_disabled_vs_not_found
                (src := DemoSource.german_only) "Gfr50f6ZBvo" tt tt tt
                (Exn NoTranscriptFound "No transcripts were found") tt)
      as (_ & _ & Hnotfound & _); [reflexivity|reflexivity|].
    destruct (Hnotfound eq_refl) as (_ & _ & Hattribute).
    apply (Hattribute
             [("de", {| Transcripts.tr_language := "German";
                        Transcripts.tr_language_code := "de";
                        Transcripts.tr_is_generated := false;
                        Transcripts.is_translatable := false |})] tt
             DemoSource.NO_TRANSCRIPTS_ATTRIBUTE tt); reflexivity.
Defined.

(** ** Construction and the authentication token *)


Section Construction.

Context {backend : VectorStoreManager.Backend} {svc : QueryEngine.Services}.



End Construction.


(** ** Chunking and indexing *)

(** C6, as stated, fails: with [chunk_overlap] equal to [chunk_size] the
    splitter is accepted and, the embedding service answering, an index
    over the chunks is returned without an error message. *)
Lemma create_vector_store_accepts_equal_overlap :
  VectorStoreManager.create_vector_store (backend := DemoBackend.backend)
    "the quick brown fox" 1000 1000 DemoBackend.ready_state =
  (Ret (Some [ {| page_content := "the quick brown fox" |} ], 1, None),
   DemoBackend.ready_state).
Proof. vm_compute. reflexivity. Qed.

Section CreateVectorStore.

Import VectorStoreManager.
Context {backend : Backend}.

(** The constructor of the splitter rejects an overlap above the size. *)
Lemma splitter_rejects_larger_overlap chunk_size chunk_overlap separators :
  chunk_overlap > chunk_size ->
  exists msg,
    TextSplitter.RecursiveCharacterTextSplitter chunk_size chunk_overlap separators =
      Raise (Exn ValueError msg).
Proof.
  intros Hgt. unfold TextSplitter.RecursiveCharacterTextSplitter.
  repeat case_match; try (eexists; reflexivity). lia.
Qed.

(** C6, amended. For every transcript, [create_vector_store] with
    [chunk_overlap] greater than [chunk_size] returns no vector store, a
    chunk count of 0 and an error message, and calls no service. *)
Theorem create_vector_store_rejects_larger_overlap
    (transcript : string) (chunk_size chunk_overlap : Z) (st : State) :
  chunk_overlap > chunk_size ->
  exists msg,
    create_vector_store transcript chunk_size chunk_overlap st =
      (Ret (None, 0, Some ("Error creating vector store: " +:+ msg)), st).
Proof.
  intros Hgt.
  destruct (splitter_rejects_larger_overlap chunk_size chunk_overlap SEPARATORS Hgt)
    as [msg Hmsg].
  exists msg. unfold create_vector_store, chunk_transcript, try_except, bind, lift_outcome.
  rewrite Hmsg. reflexivity.
Qed.

End CreateVectorStore.

Lemma create_vector_store_rejects_larger_overlap_witness :
  1001 > 1000 /\
  exists msg,
    VectorStoreManager.create_vector_store (backend := DemoBackend.backend)
      "the quick brown fox" 1000 1001 DemoBackend.ready_state =
    (Ret (None, 0, Some ("Error creating vector store: " +:+ msg)),
     DemoBackend.ready_state).
Proof.
  split; [lia|].
  apply (create_vector_store_rejects_larger_overlap (backend := DemoBackend.backend)
           "the quick brown fox" 1000 1001 DemoBackend.ready_state).
  lia.
Defined.

(** ** The video identifier extractor *)

Section ExtractProperties.

Import PyString UrlParse VectorStoreManager.
Context {unicode : Unicode}.

Lemma split_go_nonempty sep skip piece s : split_go sep skip piece s <> [].
Proof.
  revert skip piece. induction s as [|c s IH]; intros skip piece; [discriminate|].
  cbn [split_go]. destruct skip; [|apply IH].
  destruct (String.prefix sep (String c s)); [discriminate|apply IH].
Qed.

Lemma last_segment_returns s : exists segment, last_segment s = Ret segment.
Proof.
  unfold last_segment, split.
  destruct (last (split_go "/" 0 "" s)) as [segment|] eqn:Hlast; [eauto|].
  apply last_None in Hlast. by apply split_go_nonempty in Hlast.
Qed.

(** C4. [extract_video_id] returns for every input string, whatever the
    parser does; for an input of none of the recognized shapes it returns
    null. *)
Theorem extract_video_id_total (url : string) :
  exists video_id,
    extract_video_id url = Ret video_id /\
    (~ recognized url -> video_id = None).
Proof.
  unfold extract_video_id.
  destruct (extract_try url) as [video_id|e] eqn:Htry.
  - exists video_id. split; [reflexivity|]. intros Hnot.
    destruct video_id as [v|]; [|reflexivity]. exfalso. apply Hnot.
    revert Htry. unfold extract_try.
    destruct (urlparse url) as [parsed|e] eqn:Hparse; [|discriminate].
    destruct (String.eqb (lower (netloc parsed)) "youtu.be") eqn:Hhost.
    { intros _. left. exists parsed. split; [exact Hparse|]. left.
      by apply String.eqb_eq. }
    destruct (startswith (lower (path parsed)) "/shorts") eqn:Hshorts.
    { intros _. left. exists parsed. split; [exact Hparse|]. right. by left. }
    fold (v_parameter parsed).
    destruct (v_parameter parsed) as [[|first rest]|] eqn:Hv.
    2:{ intros _. left. exists parsed. split; [exact Hparse|]. right. right. eauto. }
    all: destruct ((String.length url =? 11)%nat && negb (has_char "/" url)) eqn:Hbare;
      [|discriminate]; intros _; right;
      apply andb_true_iff in Hbare as [Hlen Hslash];
      apply Nat.eqb_eq in Hlen; apply negb_true_iff in Hslash; by split.
  - exists None. split; reflexivity.
Qed.

End ExtractProperties.

(** ** Facts about strings *)

Lemma append_cons (c : ascii) (s t : string) : String c s +:+ t = String c (s +:+ t).
Proof. reflexivity. Qed.

Lemma append_empty_r (s : string) : s +:+ "" = s.
Proof. induction s as [|c s IH]; [reflexivity|]. by rewrite append_cons, IH. Qed.

Lemma append_assoc (s1 s2 s3 : string) : (s1 +:+ s2) +:+ s3 = s1 +:+ (s2 +:+ s3).
Proof. induction s1 as [|c s1 IH]; [reflexivity|]. by rewrite !append_cons, IH. Qed.

Lemma append_length (s1 s2 : string) :
  String.length (s1 +:+ s2) = (String.length s1 + String.length s2)%nat.
Proof.
  induction s1 as [|c s1 IH]; [reflexivity|].
  rewrite append_cons. cbn [String.length]. by rewrite IH.
Qed.

Lemma prefix_append (p s : string) : String.prefix p (p +:+ s) = true.
Proof.
  induction p as [|c p IH]; [by destruct s|].
  rewrite append_cons. cbn [String.prefix]. by destruct (ascii_dec c c).
Qed.

Lemma prefix_one_char c x s :
  String.prefix (String c EmptyString) (String x s) = Ascii.eqb x c.
Proof.
  cbn [String.prefix]. destruct (ascii_dec c x) as [->|Hne].
  - rewrite Ascii.eqb_refl. by destruct s.
  - symmetry. apply Ascii.eqb_neq. congruence.
Qed.

Section ExtractShapes.

Import PyString UrlParse VectorStoreManager.
Context {unicode : Unicode}.

Lemma avoids_String cs x s :
  avoids cs (String x s) = negb (existsb (Ascii.eqb x) cs) && avoids cs s.
Proof. reflexivity. Qed.

Lemma avoids_cons cs x s :
  avoids cs (String x s) = true ->
  (forall c, In c cs -> Ascii.eqb x c = false) /\ avoids cs s = true.
Proof.
  rewrite avoids_String. intros [Hx Hs]%andb_true_iff. split; [|exact Hs].
  intros c Hc. apply negb_true_iff in Hx.
  destruct (Ascii.eqb x c) eqn:E; [|reflexivity].
  rewrite <- Hx. symmetry. apply existsb_exists. eauto.
Qed.

Lemma avoids_one cs c s : avoids cs s = true -> In c cs -> avoids [c] s = true.
Proof.
  intros Hs Hc. induction s as [|x s IH]; [reflexivity|].
  apply avoids_cons in Hs as [Hx Hs]. rewrite avoids_String, (IH Hs).
  cbn [existsb]. rewrite (Hx c Hc). reflexivity.
Qed.

Lemma avoids_incl cs cs' s :
  incl cs' cs -> avoids cs s = true -> avoids cs' s = true.
Proof.
  intros Hincl Hs. induction s as [|x s IH]; [reflexivity|].
  apply avoids_cons in Hs as [Hx Hs]. rewrite avoids_String, (IH Hs), andb_true_r.
  apply negb_true_iff, not_true_iff_false. intros (c & Hc & Heq)%existsb_exists.
  rewrite (Hx c (Hincl c Hc)) in Heq. discriminate.
Qed.

Lemma avoids_app cs p q : avoids cs (p +:+ q) = avoids cs p && avoids cs q.
Proof.
  induction p as [|x p IH]; [reflexivity|].
  rewrite append_cons, !avoids_String, IH. by rewrite andb_assoc.
Qed.

Lemma avoids_head c x s : avoids [c] (String x s) = true -> Ascii.eqb x c = false.
Proof. intros [Hx _]%avoids_cons. apply Hx. by left. Qed.

Lemma avoids_tail cs x s : avoids cs (String x s) = true -> avoids cs s = true.
Proof. by intros [_ Hs]%avoids_cons. Qed.

Lemma avoids_find c s : avoids [c] s = true -> find_char c s = None.
Proof.
  intros Hs. induction s as [|x s IH]; [reflexivity|].
  cbn [find_char]. by rewrite (avoids_head _ _ _ Hs), (IH (avoids_tail _ _ _ Hs)).
Qed.

Lemma avoids_has_char c s : avoids [c] s = true -> has_char c s = false.
Proof. intros Hs. unfold has_char. by rewrite avoids_find. Qed.

Lemma avoids_remove c s : avoids [c] s = true -> remove_char c s = s.
Proof.
  intros Hs. induction s as [|x s IH]; [reflexivity|].
  cbn [remove_char]. by rewrite (avoids_head _ _ _ Hs), (IH (avoids_tail _ _ _ Hs)).
Qed.

Lemma avoids_replace c b s : avoids [c] s = true -> replace_char c b s = s.
Proof.
  intros Hs. induction s as [|x s IH]; [reflexivity|].
  cbn [replace_char]. by rewrite (avoids_head _ _ _ Hs), (IH (avoids_tail _ _ _ Hs)).
Qed.

Lemma avoids_split c piece s :
  avoids [c] s = true ->
  split_go (String c EmptyString) 0 piece s = [piece +:+ s].
Proof.
  revert piece. induction s as [|x s IH]; intros piece Hs.
  - cbn [split_go]. by rewrite append_empty_r.
  - cbn [split_go].
    rewrite prefix_one_char, (avoids_head _ _ _ Hs), (IH _ (avoids_tail _ _ _ Hs)).
    by rewrite append_assoc.
Qed.

Lemma avoids_lstrip cs s : avoids cs s = true -> avoids cs (lstrip_c0 s) = true.
Proof.
  induction s as [|x s IH]; [done|]. intros Hs. cbn [lstrip_c0].
  destruct (c0_control_or_space x); [|exact Hs].
  apply IH. by apply avoids_tail in Hs.
Qed.

Lemma avoids_drop cs n s : avoids cs s = true -> avoids cs (drop n s) = true.
Proof.
  revert s. induction n as [|n IH]; intros [|x s] Hs; try exact Hs.
  cbn [drop]. apply IH. by apply avoids_tail in Hs.
Qed.

Lemma find_char_app c p q :
  avoids [c] p = true ->
  find_char c (p +:+ q) =
    option_map (fun i => (String.length p + i)%nat) (find_char c q).
Proof.
  intros Hp. induction p as [|x p IH].
  - change ("" +:+ q) with q. by destruct (find_char c q).
  - rewrite append_cons. cbn [find_char String.length].
    rewrite (avoids_head _ _ _ Hp), (IH (avoids_tail _ _ _ Hp)).
    by destruct (find_char c q).
Qed.

Lemma find_char_here c q : find_char c (String c q) = Some 0%nat.
Proof. cbn [find_char]. by rewrite Ascii.eqb_refl. Qed.

Lemma take_app p q : take (String.length p) (p +:+ q) = p.
Proof.
  induction p as [|x p IH]; [by destruct q|].
  rewrite append_cons. cbn [take String.length]. by rewrite IH.
Qed.

Lemma drop_app p q : drop (String.length p) (p +:+ q) = q.
Proof.
  induction p as [|x p IH]; [by destruct q|].
  rewrite append_cons. cbn [drop String.length]. exact IH.
Qed.

Lemma cut_at_absent c s : avoids [c] s = true -> cut_at c s = (s, "").
Proof. intros Hs. unfold cut_at, split_once. by rewrite avoids_find. Qed.

Lemma drop_app_S p c q : drop (S (String.length p)) (p +:+ String c q) = q.
Proof.
  induction p as [|x p IH]; [by destruct q|].
  rewrite append_cons. cbn [drop String.length]. exact IH.
Qed.

Lemma cut_at_found c p q :
  avoids [c] p = true -> cut_at c (p +:+ String c q) = (p, q).
Proof.
  intros Hp. unfold cut_at, split_once.
  rewrite (find_char_app _ _ _ Hp), find_char_here. cbn [option_map].
  by rewrite Nat.add_0_r, take_app, drop_app_S.
Qed.

Lemma strip_unsafe_keeps s :
  lstrip_c0 s = s ->
  avoids [ascii_of_nat 9; ascii_of_nat 13; ascii_of_nat 10] s = true ->
  strip_unsafe s = s.
Proof.
  intros Hfirst Hs. unfold strip_unsafe. rewrite Hfirst. cbn [fold_left].
  rewrite (avoids_remove (ascii_of_nat 9) s), (avoids_remove (ascii_of_nat 13) s),
    (avoids_remove (ascii_of_nat 10) s); try reflexivity;
    (apply (avoids_one _ _ _ Hs); cbn; tauto).
Qed.

Lemma split_netloc_slash host rest :
  avoids ["/"; "?"; "#"; "["; "]"]%char host = true ->
  split_netloc ("//" +:+ host +:+ "/" +:+ rest) = Ret (host, "/" +:+ rest).
Proof.
  intros Hhost.
  assert (Hc : forall c, In c ["/"; "?"; "#"; "["; "]"]%char -> avoids [c] host = true)
    by (intros c Hc; exact (avoids_one _ c host Hhost Hc)).
  set (R := "/" +:+ rest).
  assert (Hdelim :
            Nat.min (String.length ("//" +:+ host +:+ R)) (2 + String.length host)
              = (2 + String.length host)%nat).
  { change ("//" +:+ host +:+ R) with (String "/" (String "/" (host +:+ R))).
    cbn [String.length]. rewrite append_length. lia. }
  unfold split_netloc.
  change (String.eqb (take 2 ("//" +:+ host +:+ R)) "//") with true. cbv iota.
  unfold _splitnetloc, find_from. cbn [fold_left].
  change (drop 2 ("//" +:+ host +:+ R)) with (host +:+ R).
  rewrite !find_char_app by (apply Hc; cbn; tauto).
  change (find_char "/" R) with (Some 0%nat). cbn [option_map].
  rewrite Nat.add_0_r, Hdelim.
  assert (Hmin : forall c,
            match option_map (fun i => (2 + i)%nat)
                    (option_map (fun i => (String.length host + i)%nat)
                       (find_char c R)) with
            | Some wdelim => Nat.min (2 + String.length host) wdelim
            | None => (2 + String.length host)%nat
            end = (2 + String.length host)%nat).
  { intros c. destruct (find_char c R); cbn [option_map]; lia. }
  rewrite !Hmin.
  replace (2 + String.length host - 2)%nat with (String.length host) by lia.
  rewrite take_app.
  change (drop (2 + String.length host) ("//" +:+ host +:+ R))
    with (drop (String.length host) (host +:+ R)).
  rewrite drop_app.
  rewrite (avoids_has_char "[" host), (avoids_has_char "]" host)
    by (apply Hc; cbn; tauto).
  reflexivity.
Qed.

Lemma split_scheme_https rest :
  split_scheme ("https://" +:+ rest) = ("https", "//" +:+ rest).
Proof. reflexivity. Qed.

(** [urlsplit] on an https URL with a plain host: what is left is to cut
    the fragment and the query off the rest. *)
Lemma urlsplit_https host rest :
  avoids ["/"; "?"; "#"; "["; "]"]%char host = true ->
  isascii host = true ->
  avoids UNSAFE (host +:+ rest) = true ->
  urlsplit ("https://" +:+ host +:+ "/" +:+ rest) =
    let '(url, fragment) := cut_at "#" ("/" +:+ rest) in
    let '(url, query) := cut_at "?" url in
    Ret ("https", host, url, query, fragment).
Proof.
  intros Hhost Hascii Hunsafe. unfold urlsplit.
  rewrite strip_unsafe_keeps; [|reflexivity|].
  2:{ change ("https://" +:+ host +:+ "/" +:+ rest)
        with ("https://" +:+ (host +:+ "/" +:+ rest)).
      rewrite avoids_app. apply andb_true_iff. split; [reflexivity|].
      rewrite avoids_app in Hunsafe |- *.
      apply andb_true_iff in Hunsafe as [Hh Hr].
      apply andb_true_iff. by split. }
  rewrite split_scheme_https, split_netloc_slash by exact Hhost.
  destruct (cut_at "#" ("/" +:+ rest)) as [url fragment_].
  destruct (cut_at "?" url) as [url' query_].
  unfold _checknetloc. rewrite Hascii, orb_true_r. reflexivity.
Qed.

(** Side conditions: a closed prefix followed by a token free of the
    special characters avoids a subset of them. *)
Ltac incl_tac := unfold UNSAFE, SPECIAL, incl; cbn [In]; intros; tauto.

Ltac plain Ht :=
  rewrite ?avoids_app;
  repeat (match goal with |- _ && _ = true => apply andb_true_iff; split end);
  first [ reflexivity
        | apply (avoids_incl SPECIAL); [incl_tac|exact Ht] ].

Lemma urlparse_watch t :
  avoids SPECIAL t = true ->
  urlparse ("https://www.youtube.com/watch?v=" +:+ t) =
    Ret {| scheme := "https"; netloc := "www.youtube.com"; path := "/watch";
           params := ""; query := "v=" +:+ t; fragment := "" |}.
Proof.
  intros Ht. unfold urlparse.
  change ("https://www.youtube.com/watch?v=" +:+ t)
    with ("https://" +:+ "www.youtube.com" +:+ "/" +:+ ("watch?v=" +:+ t)).
  rewrite urlsplit_https; [|reflexivity|reflexivity|plain Ht].
  rewrite cut_at_absent by plain Ht.
  change ("/" +:+ "watch?v=" +:+ t) with ("/watch" +:+ String "?" ("v=" +:+ t)).
  rewrite cut_at_found by reflexivity.
  reflexivity.
Qed.

Lemma urlparse_path host segments t :
  avoids ["/"; "?"; "#"; "["; "]"]%char host = true ->
  isascii host = true ->
  avoids ["#"; "?"; ";"; ascii_of_nat 9; ascii_of_nat 13; ascii_of_nat 10]%char
    (host +:+ segments) = true ->
  avoids SPECIAL t = true ->
  urlparse ("https://" +:+ host +:+ "/" +:+ segments +:+ t) =
    Ret {| scheme := "https"; netloc := host; path := "/" +:+ segments +:+ t;
           params := ""; query := ""; fragment := "" |}.
Proof.
  intros Hhost Hascii Hsegments Ht. unfold urlparse.
  rewrite avoids_app in Hsegments. apply andb_true_iff in Hsegments as [Hh Hseg].
  rewrite urlsplit_https; [|exact Hhost|exact Hascii|].
  2:{ rewrite !avoids_app.
      apply andb_true_iff; split; [|apply andb_true_iff; split].
      - eapply avoids_incl; [|exact Hh]. incl_tac.
      - eapply avoids_incl; [|exact Hseg]. incl_tac.
      - plain Ht. }
  assert (Hrest : forall c, In c ["#"; "?"; ";"]%char ->
                            avoids [c] ("/" +:+ segments +:+ t) = true).
  { intros c Hc. rewrite !avoids_app.
    apply andb_true_iff; split; [|apply andb_true_iff; split].
    - cbn in Hc. by destruct Hc as [<-|[<-|[<-|[]]]].
    - eapply avoids_incl; [|exact Hseg]. intros ? [<-|[]]. revert Hc. incl_tac.
    - apply (avoids_incl SPECIAL); [|exact Ht]. intros ? [<-|[]]. revert Hc. incl_tac. }
  rewrite cut_at_absent by (apply Hrest; cbn; tauto).
  rewrite cut_at_absent by (apply Hrest; cbn; tauto).
  rewrite (avoids_has_char ";") by (apply Hrest; cbn; tauto).
  rewrite andb_false_r. reflexivity.
Qed.

Lemma split_scheme_avoids cs url :
  avoids cs url = true -> avoids cs (split_scheme url).2 = true.
Proof.
  intros Hurl. unfold split_scheme.
  destruct (find_char ":" url) as [[|i]|]; [exact Hurl| |exact Hurl].
  destruct url as [|first rest]; [exact Hurl|].
  destruct (ascii_alpha first && _); [|exact Hurl].
  by apply avoids_drop.
Qed.

Lemma split_netloc_no_slash url :
  avoids ["/"%char] url = true -> split_netloc url = Ret ("", url).
Proof.
  intros Hurl. unfold split_netloc.
  destruct url as [|x rest]; [reflexivity|].
  cbn [take]. cbn [String.eqb]. by rewrite (avoids_head _ _ _ Hurl).
Qed.

(** The parse of a token that holds none of the special characters: no
    netloc, no query, and a path without a separator. *)
Lemma urlparse_bare t :
  avoids SPECIAL t = true ->
  exists scheme_ path_,
    urlparse t = Ret {| scheme := scheme_; netloc := ""; path := path_;
                        params := ""; query := ""; fragment := "" |} /\
    avoids ["/"%char] path_ = true.
Proof.
  intros Ht. pose proof (avoids_lstrip _ _ Ht) as Hu.
  unfold urlparse, urlsplit, strip_unsafe. cbn [fold_left].
  rewrite (avoids_remove (ascii_of_nat 9)) by plain Hu.
  rewrite (avoids_remove (ascii_of_nat 13)) by plain Hu.
  rewrite (avoids_remove (ascii_of_nat 10)) by plain Hu.
  pose proof (split_scheme_avoids _ _ Hu) as Hrest.
  destruct (split_scheme (lstrip_c0 t)) as [scheme_ url]. cbn [snd] in Hrest.
  rewrite split_netloc_no_slash by plain Hrest.
  rewrite !cut_at_absent by plain Hrest.
  change (_checknetloc "") with (@None exn). cbv iota.
  rewrite (avoids_has_char ";") by plain Hrest. rewrite andb_false_r.
  exists scheme_, url. split; [reflexivity|plain Hrest].
Qed.

Lemma last_cons_nonempty {A} (x : A) (l : list A) : l <> [] -> last (x :: l) = last l.
Proof. by destruct l. Qed.

(** The last segment of a path that ends with a separator and a token. *)
Lemma last_segment_token before t :
  avoids ["/"%char] t = true ->
  last_segment (before +:+ "/" +:+ t) = Ret t.
Proof.
  intros Ht. unfold last_segment, split.
  assert (Hlast : forall piece,
            last (split_go "/" 0 piece (before +:+ "/" +:+ t)) = Some t).
  { induction before as [|x before IH]; intros piece.
    - change ("" +:+ "/" +:+ t) with (String "/" t). cbn [split_go].
      rewrite prefix_one_char, Ascii.eqb_refl. cbn [String.length Nat.sub].
      by rewrite avoids_split.
    - rewrite append_cons. cbn [split_go]. rewrite prefix_one_char.
      destruct (Ascii.eqb x "/"); [|apply IH].
      cbn [String.length Nat.sub].
      rewrite last_cons_nonempty by apply split_go_nonempty. apply IH. }
  by rewrite Hlast.
Qed.

Lemma lower_char_slash x : Ascii.eqb x "/" = false -> Ascii.eqb (lower_char x) "/" = false.
Proof.
  destruct x as [[] [] [] [] [] [] [] []]; vm_compute; congruence.
Qed.

Lemma not_shorts path_ :
  avoids ["/"%char] path_ = true -> startswith (lower path_) "/shorts" = false.
Proof.
  intros Hpath. unfold startswith. destruct path_ as [|x rest]; [reflexivity|].
  cbn [lower String.prefix].
  pose proof (lower_char_slash x (avoids_head _ _ _ Hpath)) as Hx.
  destruct (ascii_dec "/" (lower_char x)) as [Heq|_]; [|reflexivity].
  rewrite <- Heq in Hx. discriminate.
Qed.

(** The query of a watch URL names the video once. *)
Lemma parse_qs_v t :
  avoids SPECIAL t = true -> t <> "" ->
  parse_qs ("v=" +:+ t) = {[ "v" := [t] ]}.
Proof.
  intros Ht Hne. unfold parse_qs, parse_qsl.
  change (is_empty ("v=" +:+ t)) with false. cbv iota.
  unfold split. rewrite avoids_split by plain Ht.
  change ("" +:+ "v=" +:+ t) with ("v=" +:+ t). cbn [flat_map].
  change (is_empty ("v=" +:+ t)) with false. cbv iota.
  change (split_once "=" ("v=" +:+ t)) with (Some ("v", t)). cbv iota.
  destruct t as [|x t']; [done|]. cbn [is_empty].
  rewrite (avoids_replace "+" " " (String x t')) by plain Ht.
  unfold unquote. rewrite (avoids_has_char "%" (String x t')) by plain Ht.
  reflexivity.
Qed.

(** C3, amended. For every token of 11 characters that holds no path
    separator and none of the characters [#], [?], [&], [%], [+], [;], tab,
    line feed and carriage return, [extract_video_id] gives the token on
    the watch URL, the short-link URL, the shorts URL and the token itself. *)
Theorem extract_video_id_same_identifier (t : string) :
  String.length t = 11%nat ->
  avoids SPECIAL t = true ->
  extract_video_id ("https://www.youtube.com/watch?v=" +:+ t) = Ret (Some t) /\
  extract_video_id ("https://youtu.be/" +:+ t) = Ret (Some t) /\
  extract_video_id ("https://www.youtube.com/shorts/" +:+ t) = Ret (Some t) /\
  extract_video_id t = Ret (Some t).
Proof.
  intros Hlen Ht.
  assert (Hne : t <> "") by (intros ->; discriminate).
  assert (Hslash : avoids ["/"%char] t = true) by plain Ht.
  unfold extract_video_id, extract_try. repeat split.
  - rewrite urlparse_watch by exact Ht. cbn [netloc path query].
    change (String.eqb (lower "www.youtube.com") "youtu.be") with false.
    change (startswith (lower "/watch") "/shorts") with false. cbv iota.
    rewrite parse_qs_v by assumption.
    change (is_empty ("v=" +:+ t)) with false. cbv iota.
    by rewrite lookup_singleton_eq.
  - change ("https://youtu.be/" +:+ t)
      with ("https://" +:+ "youtu.be" +:+ "/" +:+ "" +:+ t).
    rewrite urlparse_path; [|reflexivity..|exact Ht]. cbn [netloc path].
    change (String.eqb (lower "youtu.be") "youtu.be") with true. cbv iota.
    change ("/" +:+ "" +:+ t) with ("" +:+ "/" +:+ t).
    by rewrite last_segment_token.
  - change ("https://www.youtube.com/shorts/" +:+ t)
      with ("https://" +:+ "www.youtube.com" +:+ "/" +:+ "shorts/" +:+ t).
    rewrite urlparse_path; [|reflexivity..|exact Ht]. cbn [netloc path].
    change (String.eqb (lower "www.youtube.com") "youtu.be") with false. cbv iota.
    change (startswith (lower ("/" +:+ "shorts/" +:+ t)) "/shorts") with true.
    cbv iota.
    change ("/" +:+ "shorts/" +:+ t) with ("/shorts" +:+ "/" +:+ t).
    by rewrite last_segment_token.
  - destruct (urlparse_bare t Ht) as (scheme_ & path_ & -> & Hpath).
    cbn [netloc path query].
    change (String.eqb (lower "") "youtu.be") with false. cbv iota.
    rewrite not_shorts by exact Hpath.
    change (is_empty "") with true. cbv iota.
    rewrite Hlen, (avoids_has_char "/" t) by exact Hslash. reflexivity.
Qed.

End ExtractShapes.

Lemma extract_video_id_same_identifier_witness :
  VectorStoreManager.extract_video_id (unicode := DemoUnicode.unicode)
    "https://www.youtube.com/watch?v=Gfr50f6ZBvo" = Ret (Some "Gfr50f6ZBvo") /\
  VectorStoreManager.extract_video_id (unicode := DemoUnicode.unicode)
    "https://youtu.be/Gfr50f6ZBvo" = Ret (Some "Gfr50f6ZBvo") /\
  VectorStoreManager.extract_video_id (unicode := DemoUnicode.unicode)
    "https://www.youtube.com/shorts/Gfr50f6ZBvo" = Ret (Some "Gfr50f6ZBvo") /\
  VectorStoreManager.extract_video_id (unicode := DemoUnicode.unicode)
    "Gfr50f6ZBvo" = Ret (Some "Gfr50f6ZBvo").
Proof.
  apply (extract_video_id_same_identifier (unicode := DemoUnicode.unicode) "Gfr50f6ZBvo");
    reflexivity.
Defined.

(** C3, as stated, fails: the token [abc#defghij] has 11 characters and no
    path separator, yet the watch URL built from it yields [abc] while the
    token alone yields the token. *)
Lemma extract_video_id_differs_on_fragment :
  String.length "abc#defghij" = 11%nat /\
  UrlParse.has_char "/" "abc#defghij" = false /\
  VectorStoreManager.extract_video_id (unicode := DemoUnicode.unicode)
    ("https://www.youtube.com/watch?v=" +:+ "abc#defghij") = Ret (Some "abc") /\
  VectorStoreManager.extract_video_id (unicode := DemoUnicode.unicode)
    "abc#defghij" = Ret (Some "abc#defghij").
Proof. repeat split; vm_compute; reflexivity. Qed.

(** The scenarios of the specification, and inputs that exercise each
    branch of the parser. *)
Example extract_scenario_watch :
  VectorStoreManager.extract_video_id (unicode := DemoUnicode.unicode)
    "https://www.youtube.com/watch?v=Gfr50f6ZBvo" = Ret (Some "Gfr50f6ZBvo").
Proof. vm_compute. reflexivity. Qed.

Example extract_scenario_malformed :
  VectorStoreManager.extract_video_id (unicode := DemoUnicode.unicode)
    "not a url" = Ret None.
Proof. vm_compute. reflexivity. Qed.

Example extract_unbalanced_bracket :
  VectorStoreManager.extract_video_id (unicode := DemoUnicode.unicode)
    "http://[youtu.be/abc" = Ret None.
Proof. vm_compute. reflexivity. Qed.

Example urlparse_all_components :
  UrlParse.urlparse (unicode := DemoUnicode.unicode) "HTTP://a.b/c;d?e=1&f=2#frag" =
    Ret {| UrlParse.scheme := "http"; UrlParse.netloc := "a.b"; UrlParse.path := "/c";
           UrlParse.params := "d"; UrlParse.query := "e=1&f=2";
           UrlParse.fragment := "frag" |}.
Proof. vm_compute. reflexivity. Qed.

Example parse_qsl_blank_values :
  UrlParse.parse_qsl (unicode := DemoUnicode.unicode) "a=1&b=&c&a=2+3&&=5" =
    [("a", "1"); ("a", "2 3"); ("", "5")].
Proof. vm_compute. reflexivity. Qed.

(** ** Chunking: what the splitter keeps of the transcript *)

Section Chunking.

Import PyString TextSplitter.

Lemma concat_str_app l1 l2 : concat_str (l1 ++ l2) = concat_str l1 +:+ concat_str l2.
Proof.
  induction l1 as [|x l1 IH]; [reflexivity|].
  cbn [app concat_str fold_right]. fold (concat_str (l1 ++ l2)).
  fold (concat_str l1). by rewrite IH, append_assoc.
Qed.

Lemma join_empty l : join "" l = concat_str l.
Proof.
  induction l as [|x [|y l] IH]; [reflexivity| |].
  - cbn. by rewrite append_empty_r.
  - change (join "" (x :: y :: l)) with (x +:+ "" +:+ join "" (y :: l)).
    rewrite IH. reflexivity.
Qed.

Lemma len_append s1 s2 : len (s1 +:+ s2) = len s1 + len s2.
Proof. unfold len. rewrite append_length. lia. Qed.

Lemma len_nonneg s : 0 <= len s.
Proof. unfold len. lia. Qed.

Lemma lstrip_length s : (String.length (lstrip s) <= String.length s)%nat.
Proof.
  induction s as [|c s IH]; [done|]. cbn [lstrip].
  destruct (is_space c); cbn [String.length]; lia.
Qed.

Lemma rstrip_length s : (String.length (rstrip s) <= String.length s)%nat.
Proof.
  induction s as [|c s IH]; [done|]. cbn [rstrip].
  destruct (is_empty (rstrip s) && is_space c); cbn [String.length]; lia.
Qed.

Lemma strip_len s : len (strip s) <= len s.
Proof.
  unfold strip, len.
  pose proof (lstrip_length (rstrip s)). pose proof (rstrip_length s). lia.
Qed.

Lemma stripped_chunk_len text chunk :
  stripped_chunk text = Some chunk -> len chunk <= len text.
Proof.
  unfold stripped_chunk. destruct (is_empty (strip text)); [discriminate|].
  intros [= <-]. apply strip_len.
Qed.

Lemma join_cons sep x l : l <> [] -> join sep (x :: l) = x +:+ sep +:+ join sep l.
Proof. by destruct l. Qed.

Lemma prefix_true p s : String.prefix p s = true -> exists rest, s = p +:+ rest.
Proof.
  revert s. induction p as [|c p IH]; intros s Hp; [by exists s|].
  destruct s as [|x s]; [discriminate|]. cbn [String.prefix] in Hp.
  destruct (ascii_dec c x) as [->|]; [|discriminate].
  destruct (IH s Hp) as [rest ->]. by exists rest.
Qed.

(** Passing over the rest of an occurrence. *)
Lemma split_go_skip sep pre piece rest :
  split_go sep (String.length pre) piece (pre +:+ rest) = split_go sep 0 piece rest.
Proof.
  induction pre as [|c pre IH]; [by destruct rest|].
  rewrite append_cons. cbn [String.length split_go]. exact IH.
Qed.

(** Joining the pieces with the separator gives the text back. *)
Lemma split_go_join sep :
  sep <> "" ->
  forall n s piece, (String.length s <= n)%nat ->
    join sep (split_go sep 0 piece s) = piece +:+ s.
Proof.
  intros Hsep. induction n as [|n IH]; intros s piece Hn.
  - destruct s; [|cbn in Hn; lia]. cbn. by rewrite append_empty_r.
  - destruct s as [|c s]; [cbn; by rewrite append_empty_r|].
    cbn [split_go]. destruct (String.prefix sep (String c s)) eqn:Hp.
    + apply prefix_true in Hp as [rest Hrest].
      destruct sep as [|c' sep']; [done|]. rewrite append_cons in Hrest.
      injection Hrest as -> ->.
      match goal with
      | |- context [(String.length (String ?a sep') - 1)%nat] =>
          replace (String.length (String a sep') - 1)%nat with (String.length sep')
            by (cbn [String.length]; lia)
      end.
      rewrite split_go_skip.
      rewrite join_cons by apply split_go_nonempty.
      rewrite IH; [reflexivity|].
      cbn [String.length] in Hn. rewrite append_length in Hn. lia.
    + rewrite IH by (cbn [String.length] in Hn; lia).
      by rewrite append_assoc.
Qed.

Lemma split_join sep s : sep <> "" -> join sep (split sep s) = s.
Proof. intros Hsep. unfold split. by rewrite (split_go_join sep Hsep (String.length s)). Qed.

Lemma glue_interleave sep p ps :
  match interleave sep (p :: ps) with
  | [] => []
  | first :: from_1 => first :: glue from_1
  end = p :: map (String.append sep) ps.
Proof.
  revert p. induction ps as [|q ps IH]; intros p; [reflexivity|].
  change (interleave sep (p :: q :: ps)) with (p :: sep :: interleave sep (q :: ps)).
  specialize (IH q). destruct (interleave sep (q :: ps)) as [|first from_1];
    [discriminate|].
  injection IH as -> IH. cbn [glue map]. by rewrite IH.
Qed.

Lemma concat_glued sep p ps :
  concat_str (p :: map (String.append sep) ps) = join sep (p :: ps).
Proof.
  revert p. induction ps as [|q ps IH]; intros p.
  - cbn. by rewrite append_empty_r.
  - change (join sep (p :: q :: ps)) with (p +:+ sep +:+ join sep (q :: ps)).
    rewrite <- IH. cbn [map concat_str fold_right]. by rewrite append_assoc.
Qed.

Lemma concat_chars s : concat_str (chars s) = s.
Proof. induction s as [|c s IH]; [reflexivity|]. cbn [chars concat_str fold_right]. fold (concat_str (chars s)). by rewrite IH. Qed.

Lemma concat_filter_nonempty l :
  concat_str (filter (fun s => is_empty s = false) l) = concat_str l.
Proof.
  induction l as [|x l IH]; [reflexivity|].
  rewrite filter_cons. destruct (decide (is_empty x = false)) as [Hx|Hx].
  - cbn [concat_str fold_right]. fold (concat_str l).
    fold (concat_str (filter (fun s => is_empty s = false) l)). by rewrite IH.
  - rewrite IH. destruct x; [reflexivity|]. by cbn in Hx.
Qed.

(** The splits of a text, concatenated, are the text. *)
Lemma split_text_with_regex_concat text separator :
  concat_str (_split_text_with_regex text separator true) = text.
Proof.
  unfold _split_text_with_regex. rewrite concat_filter_nonempty.
  destruct separator as [|c separator]; [apply concat_chars|].
  cbn [is_empty].
  destruct (split (String c separator) text) as [|p ps] eqn:Hsplit.
  { by apply split_go_nonempty in Hsplit. }
  rewrite glue_interleave, concat_glued, <- Hsplit. by apply split_join.
Qed.

(** *** Merging splits into chunks *)

Lemma overlapping_snoc previous spans s :
  overlapping previous spans ->
  (exists before, last_text previous spans = before +:+ s.1) ->
  overlapping previous (spans ++ [s]).
Proof.
  revert previous. induction spans as [|s0 spans IH]; intros previous Hov Hlast.
  - cbn. split; [exact Hlast|exact I].
  - destruct Hov as [Hfirst Hrest]. cbn [app overlapping]. split; [exact Hfirst|].
    apply IH; [exact Hrest|].
    unfold last_text in *. destruct spans as [|s1 spans]; [exact Hlast|].
    rewrite last_cons_cons in Hlast.
    destruct (last (s1 :: spans)) eqn:Hsome; [exact Hlast|].
    by apply last_None in Hsome.
Qed.

Lemma last_text_snoc previous spans s : last_text previous (spans ++ [s]) = span_text s.
Proof. unfold last_text. by rewrite last_snoc. Qed.

Lemma chunks_of_spans_snoc spans s :
  chunks_of_spans (spans ++ [s]) =
    chunks_of_spans spans ++
    match stripped_chunk (span_text s) with Some c => [c] | None => [] end.
Proof.
  unfold chunks_of_spans. rewrite omap_app. reflexivity.
Qed.

Lemma new_text_snoc spans s : new_text (spans ++ [s]) = new_text spans +:+ s.2.
Proof.
  unfold new_text. rewrite map_app, concat_str_app. cbn. by rewrite append_empty_r.
Qed.

Lemma len_concat_nonneg l : 0 <= len (concat_str l).
Proof. apply len_nonneg. Qed.

Lemma len_concat_app l1 l2 :
  len (concat_str (l1 ++ l2)) = len (concat_str l1) + len (concat_str l2).
Proof. by rewrite concat_str_app, len_append. Qed.

Lemma len_concat_one d : len (concat_str [d]) = len d.
Proof. cbn [concat_str fold_right]. by rewrite append_empty_r. Qed.

Lemma concat_str_cons x l : concat_str (x :: l) = x +:+ concat_str l.
Proof. reflexivity. Qed.

Section MergeSplits.

Variable sp : Splitter.
Hypothesis Hstrip : _strip_whitespace sp = true.
Hypothesis Hoverlap : 0 <= _chunk_overlap sp.

Lemma join_docs_stripped docs :
  _join_docs sp docs "" = stripped_chunk (concat_str docs).
Proof. unfold _join_docs, stripped_chunk. by rewrite Hstrip, join_empty. Qed.

Lemma append_doc_snoc spans carry fresh :
  append_doc (chunks_of_spans spans) (_join_docs sp (carry ++ fresh) "") =
    chunks_of_spans (spans ++ [(concat_str carry, concat_str fresh)]).
Proof.
  rewrite chunks_of_spans_snoc, join_docs_stripped. unfold span_text. cbn [fst snd].
  rewrite <- concat_str_app. unfold append_doc.
  destruct (stripped_chunk _); [reflexivity|by rewrite app_nil_r].
Qed.

(** The [while] loop leaves a suffix of [current_doc], short enough for
    the next split to be added or empty, and never indexes an empty list. *)
Lemma pop_front_spec _len current_doc :
  exists dropped kept,
    current_doc = dropped ++ kept /\
    pop_front sp 0 _len current_doc (len (concat_str current_doc)) =
      Ret (kept, len (concat_str kept)) /\
    (len (concat_str kept) + _len <= _chunk_size sp \/ len (concat_str kept) <= 0).
Proof.
  induction current_doc as [|first rest IH].
  - exists [], []. split; [reflexivity|]. cbn [pop_front nonempty].
    change (len (concat_str [])) with 0.
    destruct (0 >? _chunk_overlap sp) eqn:Hgt; [lia|]. cbn [orb].
    rewrite andb_false_r. split; [reflexivity|]. right. lia.
  - cbn [pop_front nonempty longer_than_one].
    destruct ((len (concat_str (first :: rest)) >? _chunk_overlap sp) || _) eqn:Hcond.
    + destruct IH as (dropped & kept & -> & Hrun & Hfit).
      exists (first :: dropped), kept. split; [reflexivity|].
      split; [|exact Hfit].
      match goal with
      | |- pop_front _ _ _ _ ?total = _ =>
          replace total with (len (concat_str (dropped ++ kept)));
            [exact Hrun|]
      end.
      rewrite concat_str_cons, len_append. destruct (dropped ++ kept); lia.
    + exists [], (first :: rest). split; [reflexivity|]. split; [reflexivity|].
      apply orb_false_iff in Hcond as [_ Hcond].
      apply andb_false_iff in Hcond as [Hcond|Hcond]; [left|right]; lia.
Qed.

Lemma bounded_snoc_span spans carry fresh :
  bounded (_chunk_size sp) (chunks_of_spans spans) ->
  len (concat_str (carry ++ fresh)) <= _chunk_size sp ->
  bounded (_chunk_size sp)
    (chunks_of_spans (spans ++ [(concat_str carry, concat_str fresh)])).
Proof.
  intros Hb Hlen. rewrite chunks_of_spans_snoc. apply Forall_app. split; [exact Hb|].
  unfold span_text. cbn [fst snd]. rewrite <- concat_str_app.
  destruct (stripped_chunk _) as [c|] eqn:Hc; [|constructor].
  apply stripped_chunk_len in Hc. repeat constructor. lia.
Qed.

(** The loop of [_merge_splits]: [current_doc] holds the text carried over
    from the last chunk followed by the splits not yet in a chunk. *)
Lemma merge_loop_spec splits :
  forall spans carry fresh,
    Forall (fun d => len d <= _chunk_size sp) splits ->
    len (concat_str (carry ++ fresh)) <= _chunk_size sp ->
    overlapping "" spans ->
    (exists before, last_text "" spans = before +:+ concat_str carry) ->
    bounded (_chunk_size sp) (chunks_of_spans spans) ->
    exists spans',
      merge_loop sp "" splits (chunks_of_spans spans) (carry ++ fresh)
        (len (concat_str (carry ++ fresh))) = Ret (chunks_of_spans spans') /\
      overlapping "" spans' /\
      new_text spans' = new_text spans +:+ concat_str fresh +:+ concat_str splits /\
      bounded (_chunk_size sp) (chunks_of_spans spans').
Proof.
  induction splits as [|d splits IH]; intros spans carry fresh Hsplits Hlen Hov Hlast Hb.
  - exists (spans ++ [(concat_str carry, concat_str fresh)]).
    cbn [merge_loop]. rewrite append_doc_snoc. split; [reflexivity|].
    split; [by apply overlapping_snoc|].
    split; [|by apply bounded_snoc_span].
    rewrite new_text_snoc. cbn [snd concat_str fold_right]. by rewrite append_empty_r.
  - apply Forall_cons_1 in Hsplits as [Hd Hsplits].
    pose proof (len_nonneg d) as Hd0.
    cbn [merge_loop]. change (len "") with 0.
    destruct ((len (concat_str (carry ++ fresh)) + len d +
                 (if nonempty (carry ++ fresh) then 0 else 0)
                 >? _chunk_size sp) && nonempty (carry ++ fresh)) eqn:Hflush.
    + rewrite append_doc_snoc.
      destruct (pop_front_spec (len d) (carry ++ fresh))
        as (dropped & kept & Hcd & -> & Hfit).
      set (spans1 := spans ++ [(concat_str carry, concat_str fresh)]).
      destruct (IH spans1 kept [d]) as (spans' & Hrun & Hov' & Hnew & Hb').
      * exact Hsplits.
      * rewrite len_concat_app, len_concat_one.
        pose proof (len_concat_nonneg kept). lia.
      * by apply overlapping_snoc.
      * exists (concat_str dropped). unfold spans1. rewrite last_text_snoc.
        unfold span_text. cbn [fst snd].
        by rewrite <- !concat_str_app, <- Hcd.
      * by apply bounded_snoc_span.
      * exists spans'. split; [|split; [exact Hov'|split; [|exact Hb']]].
        -- rewrite <- Hrun. f_equal.
           rewrite len_concat_app, len_concat_one.
           destruct (longer_than_one _); lia.
        -- rewrite Hnew. unfold spans1. rewrite new_text_snoc. cbn [snd].
           cbn [concat_str fold_right]. by rewrite append_empty_r, !append_assoc.
    + destruct (IH spans carry (fresh ++ [d])) as (spans' & Hrun & Hov' & Hnew & Hb').
      * exact Hsplits.
      * rewrite app_assoc, len_concat_app, len_concat_one.
        apply andb_false_iff in Hflush as [Hfit|Hempty].
        -- destruct (nonempty (carry ++ fresh)); lia.
        -- destruct (carry ++ fresh); [|discriminate].
           change (len (concat_str [])) with 0. lia.
      * exact Hov.
      * exact Hlast.
      * exact Hb.
      * exists spans'. split; [|split; [exact Hov'|split; [|exact Hb']]].
        -- rewrite <- Hrun, <- app_assoc. f_equal.
           rewrite (app_assoc carry), !len_concat_app, len_concat_one.
           destruct (longer_than_one _); lia.
        -- rewrite Hnew, concat_str_app. cbn [concat_str fold_right].
           by rewrite append_empty_r, !append_assoc.
Qed.

(** [_merge_splits] of splits no longer than the chunk size: chunks no
    longer than it, which are the stripped spans of the joined splits. *)
Lemma merge_splits_spec splits :
  Forall (fun d => len d <= _chunk_size sp) splits ->
  0 <= _chunk_size sp ->
  exists spans,
    _merge_splits sp splits "" = Ret (chunks_of_spans spans) /\
    overlapping "" spans /\
    new_text spans = concat_str splits /\
    bounded (_chunk_size sp) (chunks_of_spans spans).
Proof.
  intros Hsplits Hsize.
  destruct (merge_loop_spec splits [] [] [] Hsplits) as (spans & Hrun & Hov & Hnew & Hb).
  - exact Hsize.
  - exact I.
  - by exists "".
  - constructor.
  - exists spans. repeat split; assumption.
Qed.

End MergeSplits.

(** *** The recursive splitter *)

Lemma overlapping_weaken previous spans :
  overlapping "" spans -> overlapping previous spans.
Proof.
  destruct spans as [|s rest]; [done|]. intros [[before Hfirst] Hrest].
  split; [|exact Hrest].
  destruct before; [|discriminate]. change ("" +:+ s.1) with (s.1) in Hfirst.
  rewrite <- Hfirst. exists previous. by rewrite append_empty_r.
Qed.

Lemma overlapping_app previous spans1 spans2 :
  overlapping previous spans1 -> overlapping "" spans2 ->
  overlapping previous (spans1 ++ spans2).
Proof.
  revert previous. induction spans1 as [|s spans1 IH]; intros previous H1 H2.
  - by apply overlapping_weaken.
  - destruct H1 as [Hfirst Hrest]. split; [exact Hfirst|]. by apply IH.
Qed.

Lemma chunks_of_spans_app spans1 spans2 :
  chunks_of_spans (spans1 ++ spans2) = chunks_of_spans spans1 ++ chunks_of_spans spans2.
Proof. unfold chunks_of_spans. apply omap_app. Qed.

Lemma new_text_app spans1 spans2 :
  new_text (spans1 ++ spans2) = new_text spans1 +:+ new_text spans2.
Proof. unfold new_text. by rewrite map_app, concat_str_app. Qed.

Section SplitText.

Variable sp : Splitter.
Hypothesis Hstrip : _strip_whitespace sp = true.
Hypothesis Hkeep : _keep_separator sp = true.
Hypothesis Hoverlap : 0 <= _chunk_overlap sp.
Hypothesis Hsize : 1 < _chunk_size sp.

Lemma splits_well_append spans r text :
  overlapping "" spans ->
  bounded (_chunk_size sp) (chunks_of_spans spans) ->
  splits_well sp r text ->
  splits_well sp
    match r with
    | Raise e => Raise e
    | Ret chunks => Ret (chunks_of_spans spans ++ chunks)
    end (new_text spans +:+ text).
Proof.
  intros Hov Hb (spans2 & -> & Hov2 & Hnew2 & Hb2).
  exists (spans ++ spans2). rewrite chunks_of_spans_app.
  split; [reflexivity|]. split; [by apply overlapping_app|].
  split; [by rewrite new_text_app, Hnew2|]. by apply Forall_app.
Qed.

Lemma merge_splits_well splits :
  Forall (fun d => len d <= _chunk_size sp) splits ->
  splits_well sp (_merge_splits sp splits "") (concat_str splits).
Proof.
  intros Hsplits.
  destruct (merge_splits_spec sp Hstrip Hoverlap splits Hsplits) as (spans & H);
    [lia|].
  exists spans. exact H.
Qed.

(** The statement [if _good_splits: ...] that merges the good splits. *)
Lemma flush_good_well spans good :
  overlapping "" spans ->
  bounded (_chunk_size sp) (chunks_of_spans spans) ->
  Forall (fun d => len d <= _chunk_size sp) good ->
  splits_well sp
    (if nonempty good then
       match _merge_splits sp good "" with
       | Raise e => Raise e
       | Ret merged_text => Ret (chunks_of_spans spans ++ merged_text)
       end
     else Ret (chunks_of_spans spans))
    (new_text spans +:+ concat_str good).
Proof.
  intros Hov Hb Hgood. destruct good as [|g good].
  - cbn [nonempty concat_str fold_right]. rewrite append_empty_r.
    exists spans. repeat split; assumption.
  - cbn [nonempty]. apply splits_well_append; [exact Hov|exact Hb|].
    by apply merge_splits_well.
Qed.

Section Loop.

Variable recurse : list string -> string -> outcome (list string).
Variable new_separators : list string.
Hypothesis Hrecurse :
  nonempty new_separators = true ->
  forall text, splits_well sp (recurse new_separators text) text.

Lemma split_loop_spec splits :
  forall spans good,
    (nonempty new_separators = false ->
     Forall (fun s => len s < _chunk_size sp) splits) ->
    overlapping "" spans ->
    bounded (_chunk_size sp) (chunks_of_spans spans) ->
    Forall (fun d => len d <= _chunk_size sp) good ->
    splits_well sp
      (split_loop sp recurse "" new_separators splits (chunks_of_spans spans) good)
      (new_text spans +:+ concat_str good +:+ concat_str splits).
Proof.
  induction splits as [|s splits IH]; intros spans good Hshort Hov Hb Hgood.
  - cbn [split_loop concat_str fold_right]. rewrite append_empty_r.
    by apply flush_good_well.
  - cbn [split_loop]. destruct (len s <? _chunk_size sp) eqn:Hs.
    + replace (new_text spans +:+ concat_str good +:+ concat_str (s :: splits))
        with (new_text spans +:+ concat_str (good ++ [s]) +:+ concat_str splits).
      2:{ rewrite concat_str_app, concat_str_cons. cbn [concat_str fold_right].
          by rewrite append_empty_r, !append_assoc. }
      apply IH; [|exact Hov|exact Hb|].
      * intros Hnone. by apply Forall_cons_1 in Hshort as [_ ?].
      * apply Forall_app. split; [exact Hgood|]. repeat constructor. lia.
    + destruct (flush_good_well spans good Hov Hb Hgood)
        as (spans1 & -> & Hov1 & Hnew1 & Hb1).
      destruct (nonempty new_separators) eqn:Hnew.
      * destruct (Hrecurse eq_refl s) as (spans2 & -> & Hov2 & Hnew2 & Hb2).
        rewrite <- chunks_of_spans_app.
        replace (new_text spans +:+ concat_str good +:+ concat_str (s :: splits))
          with (new_text (spans1 ++ spans2) +:+ concat_str [] +:+ concat_str splits).
        2:{ rewrite new_text_app, Hnew1, Hnew2, concat_str_cons.
            change (concat_str []) with "". by rewrite !append_assoc. }
        apply IH; [|by apply overlapping_app
                  |rewrite chunks_of_spans_app; by apply Forall_app|constructor].
        intros Hnone. discriminate.
      * exfalso. apply Forall_cons_1 in Hshort as [Hlt _]; [|reflexivity]. lia.
Qed.

End Loop.

Lemma choose_separator_spec candidates text default :
  In "" candidates ->
  let '(separator, new_separators) := choose_separator candidates text default in
  (separator = "" /\ new_separators = []) \/
  (separator <> "" /\ In "" new_separators /\
   (length new_separators < length candidates)%nat).
Proof.
  induction candidates as [|s rest IH]; intros Hin; [destruct Hin|].
  cbn [choose_separator]. destruct s as [|c s].
  - cbn [is_empty]. by left.
  - cbn [is_empty]. destruct Hin as [|Hin]; [discriminate|].
    destruct (contains (String c s) text).
    + right. split; [discriminate|]. split; [exact Hin|cbn; lia].
    + specialize (IH Hin). destruct (choose_separator rest text default) as [sep new].
      destruct IH as [?|(? & ? & ?)]; [by left|right].
      split; [done|]. split; [done|cbn; lia].
Qed.

Lemma chars_short text :
  Forall (fun s => len s < _chunk_size sp)
    (filter (fun s => is_empty s = false) (chars text)).
Proof.
  induction text as [|c text IH]; [constructor|].
  cbn [chars]. rewrite filter_cons. destruct (decide _); [|exact IH].
  constructor; [|exact IH]. change (len (String c "")) with 1. exact Hsize.
Qed.

(** [_split_text] on separators that include the empty one, at a depth
    above their number. *)
Lemma split_text_depth_spec depth :
  forall separators text,
    In "" separators ->
    (length separators < depth)%nat ->
    splits_well sp (split_text_depth sp depth separators text) text.
Proof.
  induction depth as [|depth IH]; intros separators text Hin Hdepth; [lia|].
  cbn [split_text_depth]. unfold split_text_body.
  destruct (last separators) as [default|] eqn:Hlast.
  2:{ apply last_None in Hlast. subst. destruct Hin. }
  pose proof (choose_separator_spec separators text default Hin) as Hchoice.
  destruct (choose_separator separators text default) as [separator new_separators].
  rewrite Hkeep.
  pose proof (split_text_with_regex_concat text separator) as Hconcat.
  rewrite <- Hconcat at 2.
  change (concat_str (_split_text_with_regex text separator true))
    with ("" +:+ "" +:+ concat_str (_split_text_with_regex text separator true)).
  apply (split_loop_spec (split_text_depth sp depth) new_separators) with (spans := []);
    [| |exact I|constructor|constructor].
  - intros Hnew new_text_. apply IH.
    + destruct Hchoice as [[_ ->]|(_ & Hin' & _)]; [discriminate|exact Hin'].
    + destruct Hchoice as [[_ ->]|(_ & _ & Hlen)]; [discriminate|lia].
  - intros Hnone. destruct Hchoice as [[-> _]|(_ & Hin' & _)].
    + apply chars_short.
    + destruct new_separators; [destruct Hin'|discriminate].
Qed.

End SplitText.

End Chunking.

(** The splitter that [create_vector_store] builds by default. *)
Lemma default_splitter :
  TextSplitter.RecursiveCharacterTextSplitter 1000 200 VectorStoreManager.SEPARATORS =
    Ret {| TextSplitter._chunk_size := 1000; TextSplitter._chunk_overlap := 200;
           TextSplitter._keep_separator := true;
           TextSplitter._strip_whitespace := true;
           TextSplitter._separators := VectorStoreManager.SEPARATORS |}.
Proof. reflexivity. Qed.

(** C2, amended. For every transcript, chunking with [chunk_size] 1000 and
    [chunk_overlap] 200 returns, in document order, one chunk for each of a
    sequence of spans of the transcript, namely the span without the
    whitespace at its two ends (and no chunk for a span of whitespace
    only).  Each span begins with text from the end of the span before it,
    the parts that are new in the spans concatenate to the transcript
    exactly, and no chunk is longer than [chunk_size]. *)
Theorem chunk_transcript_covers (transcript : string) :
  exists spans : list span,
    VectorStoreManager.chunk_transcript transcript 1000 200 =
      Ret (map (fun chunk => {| page_content := chunk |}) (chunks_of_spans spans)) /\
    overlapping "" spans /\
    new_text spans = transcript /\
    Forall (fun chunk => PyString.len chunk <= 1000) (chunks_of_spans spans).
Proof.
  unfold VectorStoreManager.chunk_transcript. rewrite default_splitter.
  unfold TextSplitter.create_documents, TextSplitter.split_text, TextSplitter._split_text.
  cbn [TextSplitter._separators].
  destruct (split_text_depth_spec
              {| TextSplitter._chunk_size := 1000; TextSplitter._chunk_overlap := 200;
                 TextSplitter._keep_separator := true;
                 TextSplitter._strip_whitespace := true;
                 TextSplitter._separators := VectorStoreManager.SEPARATORS |}
              eq_refl eq_refl ltac:(cbn; lia) ltac:(cbn; lia)
              (S (length VectorStoreManager.SEPARATORS))
              VectorStoreManager.SEPARATORS transcript)
    as (spans & Hrun & Hov & Hnew & Hb).
  - cbn. tauto.
  - lia.
  - exists spans. rewrite Hrun. repeat split; assumption.
Qed.

(** A character of a text that is chunked without loss is in some chunk. *)
Lemma has_char_append c a b :
  UrlParse.has_char c (a +:+ b) = UrlParse.has_char c a || UrlParse.has_char c b.
Proof.
  unfold UrlParse.has_char. induction a as [|x a IH]; [reflexivity|].
  rewrite append_cons. cbn [UrlParse.find_char].
  destruct (Ascii.eqb x c); [reflexivity|].
  destruct (UrlParse.find_char c (a +:+ b)), (UrlParse.find_char c a);
    cbn in *; congruence.
Qed.

Lemma lossless_keeps_chars chunks text c :
  lossless chunks text ->
  UrlParse.has_char c text = true ->
  Exists (fun chunk => UrlParse.has_char c chunk = true) chunks.
Proof.
  intros (spans & _ & <- & ->). unfold new_text.
  induction spans as [|s spans IH]; [discriminate|].
  cbn [map concat_str fold_right]. rewrite has_char_append.
  intros [Hs|Hrest]%orb_true_iff.
  - left. unfold span_text. rewrite has_char_append, Hs. apply orb_true_r.
  - right. by apply IH.
Qed.

(** C2, as stated, fails: a space that begins the transcript, and the space
    between two words of 1000 letters, are in no chunk. *)
Lemma chunking_loses_whitespace :
  (VectorStoreManager.chunk_transcript " a" 1000 200 =
     Ret [ {| page_content := "a" |} ] /\
   ~ lossless ["a"] " a") /\
  (VectorStoreManager.chunk_transcript
     (copies 1000 "a" +:+ " " +:+ copies 1000 "b") 1000 200 =
     Ret [ {| page_content := copies 1000 "a" |};
           {| page_content := copies 999 "b" |};
           {| page_content := copies 201 "b" |} ] /\
   ~ lossless [copies 1000 "a"; copies 999 "b"; copies 201 "b"]
       (copies 1000 "a" +:+ " " +:+ copies 1000 "b")).
Proof.
  split; (split; [vm_compute; reflexivity|]).
  - intros Hl. apply (lossless_keeps_chars _ _ " "%char) in Hl; [|reflexivity].
    apply Exists_cons in Hl as [Hl|Hl]; [discriminate|]. by apply Exists_nil in Hl.
  - intros Hl. apply (lossless_keeps_chars _ _ " "%char) in Hl;
      [|vm_compute; reflexivity].
    repeat (apply Exists_cons in Hl as [Hl|Hl];
            [vm_compute in Hl; discriminate|]).
    by apply Exists_nil in Hl.
Qed.

(** ** The pipeline on closed inputs *)

Example fetch_english_captions :
  Transcripts.fetch_transcript (src := DemoSource.english) "Gfr50f6ZBvo" tt =
    (Ret (Some "hello world", Some "English", Some true, None), tt).
Proof. reflexivity. Qed.

Example query_uses_new_width :
  exists st1 d st2,
    QueryEngine.update_k (svc := Demo.services) 2 Demo.state0 = (Ret tt, st1) /\
    QueryEngine.query (svc := Demo.services) "What is the topic?" st1 = (Ret d, st2) /\
    d !! "success" = Some (PyBool true) /\
    d !! "sources" = Some (PyList [PyStr "alpha"; PyStr "beta"]) /\
    d !! "num_sources" = Some (PyInt 2).
Proof.
  pose (st1 := snd (QueryEngine.update_k (svc := Demo.services) 2 Demo.state0)).
  pose (run := QueryEngine.query (svc := Demo.services) "What is the topic?" st1).
  exists st1, (match fst run with Ret d => d | Raise _ => ∅ end), (snd run).
  repeat split; vm_compute; reflexivity.
Qed.

Example query_reports_unbuilt_chain :
  exists d st,
    QueryEngine.query (svc := Demo.services) "What is the topic?"
      (@QueryEngine.Build_State Demo.services
         (@QueryEngine.Build_Engine Demo.services None 4 None None None) ∅ ∅ tt)
      = (Ret d, st) /\
    d !! "success" = Some (PyBool false) /\
    d !! "error" =
      Some (PyStr "Error processing query: 'NoneType' object has no attribute 'invoke'").
Proof. eexists _, _. repeat split; vm_compute; reflexivity. Qed.

(** * Further properties of the code *)

(** ** The variables of the session *)

Section SessionProperties.

Import Session.

Lemma set_default_lookup key default session_state k :
  set_default key default session_state !! k =
    match session_state !! k with
    | Some v => Some v
    | None => if decide (key = k) then Some default else None
    end.
Proof.
  unfold set_default. destruct (session_state !! key) eqn:Hkey.
  - destruct (session_state !! k) eqn:Hk; [reflexivity|].
    destruct (decide (key = k)) as [->|]; [congruence|reflexivity].
  - rewrite lookup_insert. destruct (decide (key = k)) as [->|].
    + by rewrite Hkey.
    + by destruct (session_state !! k).
Qed.

Lemma initialize_lookup session_state k :
  initialize_session_state session_state !! k =
    match session_state !! k with
    | Some v => Some v
    | None => default_of k
    end.
Proof.
  unfold default_of, initialize_session_state. rewrite !set_default_lookup.
  rewrite lookup_empty. destruct (session_state !! k); reflexivity.
Qed.

Lemma default_of_variable k : In k VARIABLES -> is_Some (default_of k).
Proof.
  unfold VARIABLES. cbn [In].
  intros [<-|[<-|[<-|[<-|[<-|[<-|[]]]]]]]; eexists; vm_compute; reflexivity.
Qed.

Lemma default_of_other k : ~ In k VARIABLES -> default_of k = None.
Proof.
  unfold VARIABLES. cbn [In]. intros Hk.
  unfold default_of, initialize_session_state. rewrite !set_default_lookup, lookup_empty.
  repeat (case_decide; [exfalso; tauto|]). reflexivity.
Qed.

(** X1. [initialize_session_state] keeps every value that the session
    already holds and gives the missing variables their defaults; running
    it a second time changes nothing. *)
Theorem initialize_session_state_fills_missing
    (session_state : gmap string session_value) :
  (forall k v, session_state !! k = Some v ->
     initialize_session_state session_state !! k = Some v) /\
  (forall k, session_state !! k = None ->
     initialize_session_state session_state !! k =
       initialize_session_state ∅ !! k) /\
  (forall k, In k VARIABLES ->
     is_Some (initialize_session_state session_state !! k)) /\
  initialize_session_state (initialize_session_state session_state) =
    initialize_session_state session_state.
Proof.
  split; [|split; [|split]].
  - intros k v Hk. by rewrite initialize_lookup, Hk.
  - intros k Hk. by rewrite initialize_lookup, Hk.
  - intros k Hk. rewrite initialize_lookup.
    destruct (session_state !! k); [by eexists|].
    by apply default_of_variable.
  - apply map_eq. intros k. rewrite !initialize_lookup.
    destruct (session_state !! k); [reflexivity|]. by destruct (default_of k).
Qed.

Lemma reset_lookup session_state k :
  reset_app session_state !! k =
    if decide (In k VARIABLES) then default_of k else session_state !! k.
Proof.
  unfold reset_app, VARIABLES. cbn [In].
  destruct (decide (k = "processing")) as [->|H1];
    [rewrite lookup_insert_eq; by case_decide; [|tauto]|rewrite lookup_insert_ne by done].
  destruct (decide (k = "video_metadata")) as [->|H2];
    [rewrite lookup_insert_eq; by case_decide; [|tauto]|rewrite lookup_insert_ne by done].
  destruct (decide (k = "current_video_id")) as [->|H3];
    [rewrite lookup_insert_eq; by case_decide; [|tauto]|rewrite lookup_insert_ne by done].
  destruct (decide (k = "query_engine")) as [->|H4];
    [rewrite lookup_insert_eq; by case_decide; [|tauto]|rewrite lookup_insert_ne by done].
  destruct (decide (k = "vector_store_manager")) as [->|H5];
    [rewrite lookup_insert_eq; by case_decide; [|tauto]|rewrite lookup_insert_ne by done].
  destruct (decide (k = "messages")) as [->|H6];
    [rewrite lookup_insert_eq; by case_decide; [|tauto]|rewrite lookup_insert_ne by done].
  case_decide as Hin; [|reflexivity]. exfalso. intuition congruence.
Qed.

(** X2. [reset_app] gives each of the six variables the value a fresh
    session starts with, whatever it held, and leaves every other entry of
    the session as it is; [initialize_session_state] then changes nothing. *)
Theorem reset_app_restores_defaults (session_state : gmap string session_value) :
  (forall k, In k VARIABLES ->
     reset_app session_state !! k = initialize_session_state ∅ !! k) /\
  (forall k, ~ In k VARIABLES -> reset_app session_state !! k = session_state !! k) /\
  initialize_session_state (reset_app session_state) = reset_app session_state.
Proof.
  split; [|split].
  - intros k Hk. rewrite reset_lookup. by case_decide.
  - intros k Hk. rewrite reset_lookup. by case_decide.
  - apply map_eq. intros k. rewrite initialize_lookup, reset_lookup.
    case_decide as Hin; [by destruct (default_of k)|].
    rewrite (default_of_other k Hin). by destruct (session_state !! k).
Qed.

End SessionProperties.

(** ** The query engine: batches, width and construction *)

Section BatchProperties.

Import QueryEngine.
Context {svc : Services}.

Lemma query_echoes_question question st d st' :
  query question st = (Ret d, st') -> d !! "question" = Some (PyStr question).
Proof.
  rewrite query_total.
  destruct (query_try question st) as [[d0|e] st0] eqn:Htry; intros H;
    apply pair_Ret_inj in H as [<- _].
  - destruct (query_try_inv _ _ _ _ Htry) as (answer & docs & ->). reflexivity.
  - reflexivity.
Qed.

Lemma batch_query_cons question questions st :
  batch_query (question :: questions) st =
    match query question st with
    | (Ret d, st1) =>
        match batch_query questions st1 with
        | (Ret ds, st2) => (Ret (d :: ds), st2)
        | (Raise e, st2) => (Raise e, st2)
        end
    | (Raise e, st1) => (Raise e, st1)
    end.
Proof.
  unfold batch_query. cbn [for_append]. unfold bind at 1.
  destruct (query question st) as [[d|e] st1]; [|reflexivity].
  unfold bind at 1. by destruct (for_append query questions st1) as [[ds|e] st2].
Qed.

Lemma batch_query_returns questions st :
  exists ds st', batch_query questions st = (Ret ds, st').
Proof.
  revert st. induction questions as [|q qs IH]; intros st; [by eexists _, _|].
  rewrite batch_query_cons.
  destruct (query_result_invariant q st) as (d & st1 & -> & _).
  destruct (IH st1) as (ds & st2 & ->). by eexists _, _.
Qed.

(** X3. [batch_query] answers the questions in the order given: the i-th
    dictionary of the list it returns carries the i-th question, whether
    that question succeeded or failed. *)
Theorem batch_query_keeps_order (questions : list string) (st : State) :
  exists ds st',
    batch_query questions st = (Ret ds, st') /\
    map (fun d => d !! "question") ds = map (fun q => Some (PyStr q)) questions.
Proof.
  revert st. induction questions as [|q qs IH]; intros st.
  - by exists [], st.
  - rewrite batch_query_cons.
    destruct (query_result_invariant q st) as (d & st1 & Hq & _). rewrite Hq.
    destruct (IH st1) as (ds & st2 & -> & Hmap).
    exists (d :: ds), st2. split; [reflexivity|]. cbn [map].
    by rewrite Hmap, (query_echoes_question _ _ _ _ Hq).
Qed.

(** X4. A batch over two lists of questions is the batch over the first
    followed, from the state it leaves, by the batch over the second: the
    results are concatenated and no result of the first part is changed. *)
Theorem batch_query_append (questions1 questions2 : list string) (st : State) :
  exists ds1 st1 ds2 st2,
    batch_query questions1 st = (Ret ds1, st1) /\
    batch_query questions2 st1 = (Ret ds2, st2) /\
    batch_query (questions1 ++ questions2) st = (Ret (ds1 ++ ds2), st2).
Proof.
  revert st. induction questions1 as [|q qs IH]; intros st.
  - destruct (batch_query_returns questions2 st) as (ds2 & st2 & H2).
    by exists [], st, ds2, st2.
  - cbn [app]. rewrite !batch_query_cons.
    destruct (query_result_invariant q st) as (d & st0 & -> & _).
    destruct (IH st0) as (ds1 & st1 & ds2 & st2 & -> & H2 & ->).
    by exists (d :: ds1), st1, ds2, st2.
Qed.

End BatchProperties.

Section WidthProperties.

Import QueryEngine SimilaritySearch.
Context {svc : Services} {scored : ScoredSearch}.

(** X5. On an engine that holds a retriever, two calls of [update_k] in a
    row leave exactly the state that the second call alone leaves. *)
Theorem update_k_last_call_wins
    (st : State) (k1 k2 : Z) (r : loc) (rt : Retriever) :
  retriever (self st) = Some r ->
  retrievers st !! r = Some rt ->
  (update_k k1 ;;; update_k k2)%py st = update_k k2 st.
Proof.
  intros Hr Hrt.
  unfold update_k, bind, get, set_self, set_retrievers. rewrite Hr, Hrt. cbn.
  rewrite lookup_insert_eq. cbn.
  by rewrite !insert_insert_eq.
Qed.

Lemma similarity_search_returns (query : string) (k : Z) (st : State) :
  exists results st2, similarity_search query k st = (Ret results, st2).
Proof.
  unfold similarity_search, try_except, bind, get, raise, ret, lift_world.
  destruct (vector_store (self st)) as [l|]; [|by eexists _, _].
  destruct (stores st !! l) as [vs|]; [|by eexists _, _].
  destruct (similarity_search_with_score vs query k (world st)) as [[res|e] w];
    by eexists _, _.
Qed.

Lemma similarity_search_reads (query : string) (k : Z) (st st' : State) :
  vector_store (self st) = vector_store (self st') ->
  stores st = stores st' ->
  world st = world st' ->
  fst (similarity_search query k st) = fst (similarity_search query k st') /\
  world (snd (similarity_search query k st)) =
  world (snd (similarity_search query k st')).
Proof.
  destruct st as [e s rs w], st' as [e' s' rs' w']. cbn. intros Hv <- <-.
  unfold similarity_search, try_except, bind, get, raise, ret, lift_world.
  cbn. rewrite <- Hv.
  destruct (vector_store e) as [l|]; [|done].
  destruct (s !! l) as [vs|]; [|done].
  cbn. by destruct (similarity_search_with_score vs query k w) as [[res|ex] w1].
Qed.

(** X6. [similarity_search] never raises, and it takes its width from its
    own argument: after [update_k], on an engine that holds a retriever, it
    gives what it gave before. *)
Theorem similarity_search_ignores_update_k
    (st : State) (new_k : Z) (r : loc) (rt : Retriever) (query : string) (k : Z) :
  retriever (self st) = Some r ->
  retrievers st !! r = Some rt ->
  exists st1 results st2,
    update_k new_k st = (Ret tt, st1) /\
    similarity_search query k st = (Ret results, st2) /\
    exists st3, similarity_search query k st1 = (Ret results, st3) /\
                world st3 = world st2.
Proof.
  intros Hr Hrt.
  destruct (similarity_search_returns query k st) as (results & st2 & Hs).
  eexists _, results, st2. split.
  { unfold update_k, bind, get, set_self, set_retrievers.
    rewrite Hr, Hrt. reflexivity. }
  split; [exact Hs|].
  match goal with |- exists st3, similarity_search _ _ ?s = _ /\ _ =>
    destruct (similarity_search_reads query k st s) as [Hfst Hsnd];
      [reflexivity..|];
    destruct (similarity_search_returns query k s) as (results' & st3 & Hs')
  end.
  rewrite Hs, Hs' in Hfst, Hsnd. cbn in Hfst, Hsnd.
  exists st3. rewrite Hs'. split; [|done]. congruence.
Qed.

End WidthProperties.

Lemma update_k_last_call_wins_witness :
  (QueryEngine.update_k (svc := Demo.services) 7 ;;;
   QueryEngine.update_k (svc := Demo.services) 2)%py Demo.state0 =
  QueryEngine.update_k (svc := Demo.services) 2 Demo.state0.
Proof.
  apply (update_k_last_call_wins (svc := Demo.services)
           Demo.state0 7 2 0%nat Demo.retriever0); reflexivity.
Defined.

Lemma similarity_search_ignores_update_k_witness :
  exists st1 results st2,
    QueryEngine.update_k (svc := Demo.services) 7 Demo.state0 = (Ret tt, st1) /\
    SimilaritySearch.similarity_search (scored := Demo.scored) "beta" 2 Demo.state0 =
      (Ret results, st2) /\
    exists st3,
      SimilaritySearch.similarity_search (scored := Demo.scored) "beta" 2 st1 =
        (Ret results, st3) /\
      QueryEngine.world st3 = QueryEngine.world st2.
Proof.
  apply (similarity_search_ignores_update_k (scored := Demo.scored)
           Demo.state0 7 0%nat Demo.retriever0 "beta" 2); reflexivity.
Defined.

Section ConstructionProperties.

Import QueryEngine.
Context {svc : Services}.

(** X7. An engine that [__init__] has built over a store accepts every
    [update_k]: the call returns, and the one retriever that the engine and
    its chain share then searches the store the engine was given with the
    new width as its only keyword argument. *)
Theorem constructed_engine_accepts_update_k
    (cfg : Config) (vs : loc) (k0 new_k : Z) (st st' : State) :
  __init__ cfg (Some vs) k0 st = (Ret tt, st') ->
  exists st'' r rt c,
    update_k new_k st' = (Ret tt, st'') /\
    retriever (self st'') = Some r /\
    rag_chain (self st'') = Some c /\
    chain_retriever c = r /\
    retrievers st'' !! r = Some rt /\
    vectorstore rt = vs /\
    search_type rt = "similarity" /\
    search_kwargs rt = {[ "k" := PyInt new_k ]} /\
    k (self st'') = new_k /\
    stores st'' = stores st.
Proof.
  unfold __init__, _initialize_llm, _build_rag_chain, as_retriever, set_model,
    set_self, set_retrievers, lift_world, try_except, bind, get, ret, raise.
  cbn.
  destruct (new_chat_model (get_api_token cfg) (world st)) as [[m|e] w];
    cbn; [|discriminate].
  intros [= <-].
  unfold update_k, bind, get, set_self, set_retrievers. cbn.
  rewrite lookup_insert_eq. cbn.
  eexists _, _, _, _.
  split; [reflexivity|]. cbn.
  split; [reflexivity|]. split; [reflexivity|]. split; [reflexivity|].
  split; [apply lookup_insert_eq|]. cbn.
  split; [reflexivity|]. split; [reflexivity|].
  split; [|split; reflexivity].
  unfold dict. cbn [list_to_map foldr uncurry].
  by rewrite insert_insert_eq, insert_empty.
Qed.

(** X8. [QueryEngine(None)] never returns: it raises the exception of the
    chat model constructor or, when that constructor returns, the
    [AttributeError] of [None.as_retriever]; either way no retriever and no
    chain have been made, and no store has been touched. *)
Theorem init_without_store_raises (cfg : Config) (k0 : Z) (st : State) :
  exists e st',
    __init__ cfg None k0 st = (Raise e, st') /\
    retriever (self st') = None /\
    rag_chain (self st') = None /\
    retrievers st' = retrievers st /\
    stores st' = stores st /\
    match new_chat_model (get_api_token cfg) (world st) with
    | (Ret m, w) =>
        e = none_has_no_attribute "as_retriever" /\
        model (self st') = Some m /\ world st' = w
    | (Raise e', w) => e = e' /\ model (self st') = None /\ world st' = w
    end.
Proof.
  unfold __init__, _initialize_llm, _build_rag_chain, as_retriever, set_model,
    set_self, set_retrievers, lift_world, try_except, bind, get, ret, raise.
  cbn.
  destruct (new_chat_model (get_api_token cfg) (world st)) as [[m|e] w]; cbn;
    eexists _, _; (split; [reflexivity|]); cbn; repeat split.
Qed.

End ConstructionProperties.

Lemma constructed_engine_accepts_update_k_witness :
  exists st'' r rt c,
    QueryEngine.update_k (svc := Demo.services) 7
      (snd (QueryEngine.__init__ (svc := Demo.services) DemoBackend.no_token
              (Some 0%nat) 4 Demo.state0)) = (Ret tt, st'') /\
    QueryEngine.retriever (QueryEngine.self st'') = Some r /\
    QueryEngine.rag_chain (QueryEngine.self st'') = Some c /\
    QueryEngine.chain_retriever c = r /\
    QueryEngine.retrievers st'' !! r = Some rt /\
    QueryEngine.vectorstore rt = 0%nat /\
    QueryEngine.search_type rt = "similarity" /\
    QueryEngine.search_kwargs rt = {[ "k" := PyInt 7 ]} /\
    QueryEngine.k (QueryEngine.self st'') = 7 /\
    QueryEngine.stores st'' = QueryEngine.stores Demo.state0.
Proof.
  apply (constructed_engine_accepts_update_k (svc := Demo.services)
           DemoBackend.no_token 0%nat 4 7 Demo.state0).
  vm_compute. reflexivity.
Defined.

(** ** The transcript fetcher: the fallback *)

Section FallbackProperties.

Import Transcripts.
Context {src : Source}.

Lemma fetch_try_first_request_raises video_id w api w1 e w2 :
  new_api w = (Ret api, w1) ->
  api_fetch api video_id LANGUAGES w1 = (Raise e, w2) ->
  fetch_try video_id {| ytt_api := None; world := w |} =
    (Raise e, {| ytt_api := Some api; world := w2 |}).
Proof.
  intros Hnew Hfetch. unfold fetch_try, bind, lift_world, bind_ytt_api. cbn.
  rewrite Hnew. cbn. rewrite Hfetch. reflexivity.
Qed.

(** X9. With the transcript list of the library, which has no attribute
    [transcripts], [fetch_transcript] never translates: every transcript it
    returns is the one the first request gave, with the language and the
    generated flag of that request, and nothing is asked of the service
    after it. *)
Theorem fetch_transcript_never_translates
    (video_id : string) (w : World)
    (text language_ : string) (generated : bool) (w' : World) :
  transcripts_attribute_missing ->
  fetch_transcript video_id w =
    (Ret (Some text, Some language_, Some generated, None), w') ->
  exists api w1 fetched,
    new_api w = (Ret api, w1) /\
    api_fetch api video_id LANGUAGES w1 = (Ret fetched, w') /\
    text = join " " (snippets fetched) /\
    language_ = language fetched /\
    generated = is_generated fetched.
Proof.
  intros Hmissing. unfold fetch_transcript, try_except.
  destruct (fetch_try video_id {| ytt_api := None; world := w |})
    as [[r|e] fr] eqn:Htry.
  - intros [= -> <-]. revert Htry.
    unfold fetch_try, bind, ret, lift_world, bind_ytt_api. cbn.
    destruct (new_api w) as [[api|e] w1] eqn:Hnew; [|discriminate]. cbn.
    destruct (api_fetch api video_id LANGUAGES w1) as [[fetched|e] w2] eqn:Hfetch;
      [|discriminate].
    intros [= <- <- <- <-]. cbn. by exists api, w1, fetched.
  - unfold fetch_except.
    destruct (exn_cls e); try (unfold ret; discriminate).
    unfold try_except, translate_try, read_ytt_api, bind, get, ret, raise, lift_world.
    destruct (ytt_api fr) as [api|]; [|discriminate]. cbn.
    destruct (api_list api video_id (world fr)) as [[tl|e'] w3]; [|discriminate].
    cbn. rewrite Hmissing. discriminate.
Qed.

(** X10. Only the first request is sorted by the class of its exception:
    when it finds no transcript and the list request then raises, the
    result is the unavailable error with the text of that exception, also
    when that exception is [TranscriptsDisabled]. *)
Theorem fetch_transcript_fallback_failure
    (video_id : string) (w : World) (api : Api) (w1 : World) (e : exn) (w2 : World)
    (e' : exn) (w3 : World) :
  new_api w = (Ret api, w1) ->
  api_fetch api video_id LANGUAGES w1 = (Raise e, w2) ->
  exn_cls e = NoTranscriptFound ->
  api_list api video_id w2 = (Raise e', w3) ->
  fetch_transcript video_id w =
    (Ret (None, None, None, Some ("No transcript available: " +:+ exn_str e')), w3).
Proof.
  intros Hnew Hfetch Hcls Hlist.
  unfold fetch_transcript, try_except.
  rewrite (fetch_try_first_request_raises _ _ _ _ _ _ Hnew Hfetch).
  unfold fetch_except. rewrite Hcls.
  unfold try_except, translate_try, read_ytt_api, bind, get, ret, lift_world.
  cbn. rewrite Hlist. reflexivity.
Qed.

End FallbackProperties.

Lemma fetch_transcript_never_translates_witness :
  exists api w1 fetched,
    Transcripts.new_api (Source := DemoSource.english) tt = (Ret api, w1) /\
    Transcripts.api_fetch (Source := DemoSource.english)
      api "Gfr50f6ZBvo" Transcripts.LANGUAGES w1 = (Ret fetched, tt) /\
    "hello world" = join " " (Transcripts.snippets fetched) /\
    "English" = Transcripts.language fetched /\
    true = Transcripts.is_generated fetched.
Proof.
  apply (fetch_transcript_never_translates (src := DemoSource.english)
           "Gfr50f6ZBvo" tt "hello world" "English" true tt).
  - intros tl w. reflexivity.
  - reflexivity.
Defined.

Lemma fetch_transcript_fallback_failure_witness :
  Transcripts.fetch_transcript
    (src := DemoSource.fallback
              (Raise (Exn TranscriptsDisabled "Subtitles are disabled for this video"))
              DemoSource.hello_world)
    "Gfr50f6ZBvo" tt =
  (Ret (None, None, None,
        Some "No transcript available: Subtitles are disabled for this video"),
   tt).
Proof.
  apply (fetch_transcript_fallback_failure
           (src := DemoSource.fallback
                     (Raise (Exn TranscriptsDisabled "Subtitles are disabled for this video"))
                     DemoSource.hello_world)
           "Gfr50f6ZBvo" tt tt tt (Exn NoTranscriptFound "No transcripts were found") tt
           (Exn TranscriptsDisabled "Subtitles are disabled for this video") tt);
    reflexivity.
Defined.

Example fetch_reports_missing_attribute :
  Transcripts.fetch_transcript
    (src := DemoSource.fallback
              (Ret [("es", DemoSource.spanish); ("de", DemoSource.german)])
              DemoSource.hello_world)
    "Gfr50f6ZBvo" tt =
  (Ret (None, None, None,
        Some "No transcript available: 'TranscriptList' object has no attribute 'transcripts'"),
   tt).
Proof. vm_compute. reflexivity. Qed.

(** ** The vector store: what chunking gives to the index *)

Section BlankText.

Import PyString UrlParse.

Lemma all_chars_app p a b : all_chars p (a +:+ b) = all_chars p a && all_chars p b.
Proof.
  induction a as [|x a IH]; [reflexivity|].
  rewrite append_cons. cbn [all_chars]. by rewrite IH, andb_assoc.
Qed.

Lemma lstrip_blank s : lstrip s = "" <-> all_chars is_space s = true.
Proof.
  induction s as [|c s IH]; [done|].
  cbn [lstrip all_chars]. destruct (is_space c); [exact IH|].
  split; discriminate.
Qed.

Lemma rstrip_blank s : rstrip s = "" <-> all_chars is_space s = true.
Proof.
  induction s as [|c s IH]; [done|].
  cbn [rstrip all_chars].
  destruct (rstrip s) as [|x r]; cbn [is_empty andb].
  - destruct IH as [IH _]. rewrite (IH eq_refl), andb_true_r.
    by destruct (is_space c).
  - split; [discriminate|]. intros [_ Hs]%andb_true_iff.
    destruct IH as [_ IH]. by apply IH in Hs.
Qed.

Lemma all_space_rstrip s : all_chars is_space (rstrip s) = all_chars is_space s.
Proof.
  induction s as [|c s IH]; [reflexivity|].
  cbn [rstrip]. destruct (is_empty (rstrip s) && is_space c) eqn:Hc.
  - apply andb_true_iff in Hc as [Hr Hc]. cbn [all_chars]. rewrite Hc, <- IH.
    by destruct (rstrip s).
  - cbn [all_chars]. by rewrite IH.
Qed.

Lemma strip_blank s : strip s = "" <-> all_chars is_space s = true.
Proof. unfold strip. by rewrite lstrip_blank, all_space_rstrip. Qed.

Lemma lstrip_idem s : lstrip (lstrip s) = lstrip s.
Proof.
  induction s as [|c s IH]; [reflexivity|].
  cbn [lstrip]. destruct (is_space c) eqn:Hc; [exact IH|].
  cbn [lstrip]. by rewrite Hc.
Qed.

Lemma rstrip_idem s : rstrip (rstrip s) = rstrip s.
Proof.
  induction s as [|c s IH]; [reflexivity|].
  cbn [rstrip]. destruct (is_empty (rstrip s) && is_space c) eqn:Hc; [reflexivity|].
  cbn [rstrip]. by rewrite IH, Hc.
Qed.

Lemma rstrip_lstrip s : rstrip (lstrip s) = lstrip (rstrip s).
Proof.
  induction s as [|c s IH]; [reflexivity|].
  cbn [lstrip rstrip]. destruct (is_space c) eqn:Hc.
  - rewrite IH. destruct (rstrip s) as [|x r]; cbn [is_empty andb]; [reflexivity|].
    cbn [lstrip]. by rewrite Hc.
  - rewrite andb_false_r. cbn [rstrip lstrip]. by rewrite Hc, andb_false_r.
Qed.

Lemma strip_idem s : strip (strip s) = strip s.
Proof.
  unfold strip. by rewrite rstrip_lstrip, rstrip_idem, lstrip_idem.
Qed.

Lemma stripped_chunk_none text :
  stripped_chunk text = None <-> all_chars is_space text = true.
Proof.
  unfold stripped_chunk. rewrite <- strip_blank.
  destruct (strip text); cbn [is_empty]; split; done.
Qed.

Lemma stripped_chunk_some text chunk :
  stripped_chunk text = Some chunk -> chunk <> "" /\ strip chunk = chunk.
Proof.
  unfold stripped_chunk. destruct (strip text) as [|x r] eqn:Hs; [discriminate|].
  cbn [is_empty]. intros [= <-]. split; [discriminate|].
  rewrite <- Hs. apply strip_idem.
Qed.

Lemma chunks_of_spans_nil spans :
  chunks_of_spans spans = [] <->
  Forall (fun s => all_chars is_space (span_text s) = true) spans.
Proof.
  unfold chunks_of_spans. induction spans as [|s spans IH]; [by split|].
  cbn [omap list_omap]. rewrite Forall_cons, <- stripped_chunk_none.
  destruct (stripped_chunk (span_text s)) as [chunk|].
  - split; [discriminate|]. by intros [? _].
  - rewrite IH. split; [by split|by intros [_ ?]].
Qed.

Lemma chunks_of_spans_stripped spans :
  Forall (fun chunk => chunk <> "" /\ strip chunk = chunk) (chunks_of_spans spans).
Proof.
  unfold chunks_of_spans. induction spans as [|s spans IH]; [constructor|].
  cbn [omap list_omap].
  destruct (stripped_chunk (span_text s)) as [chunk|] eqn:Hs; [|exact IH].
  constructor; [by eapply stripped_chunk_some|exact IH].
Qed.

Lemma blank_spans previous spans :
  overlapping previous spans ->
  all_chars is_space previous = true ->
  Forall (fun s => all_chars is_space (span_text s) = true) spans <->
  all_chars is_space (new_text spans) = true.
Proof.
  unfold new_text.
  revert previous. induction spans as [|s spans IH]; intros previous Hov Hprev;
    [by split|].
  destruct Hov as [[before ->] Hov]. cbn [map concat_str fold_right].
  rewrite all_chars_app in Hprev. apply andb_true_iff in Hprev as [_ Hcarry].
  rewrite Forall_cons, all_chars_app, andb_true_iff.
  unfold span_text at 1. rewrite all_chars_app, Hcarry. cbn [andb].
  split.
  - intros [Hs Hrest]. split; [exact Hs|].
    apply (IH (span_text s)); [exact Hov| |exact Hrest].
    unfold span_text. by rewrite all_chars_app, Hcarry.
  - intros [Hs Hrest]. split; [exact Hs|].
    apply (IH (span_text s)); [exact Hov| |exact Hrest].
    unfold span_text. by rewrite all_chars_app, Hcarry.
Qed.

End BlankText.

Section IndexedChunks.

Import PyString TextSplitter VectorStoreManager.
Context {backend : Backend}.

(** The chunks of the default sizes are the stripped spans of a cover of
    the transcript. *)
Lemma default_chunks_of_spans transcript :
  exists spans,
    chunk_transcript transcript 1000 200 =
      Ret (map (fun chunk => {| page_content := chunk |}) (chunks_of_spans spans)) /\
    overlapping "" spans /\
    new_text spans = transcript /\
    bounded 1000 (chunks_of_spans spans).
Proof.
  unfold chunk_transcript. rewrite default_splitter.
  unfold create_documents, split_text, _split_text. cbn [_separators].
  destruct (split_text_depth_spec
              {| _chunk_size := 1000; _chunk_overlap := 200;
                 _keep_separator := true; _strip_whitespace := true;
                 _separators := SEPARATORS |}
              eq_refl eq_refl ltac:(cbn; lia) ltac:(cbn; lia)
              (S (length SEPARATORS)) SEPARATORS transcript)
    as (spans & Hrun & Hov & Hnew & Hb).
  - cbn. tauto.
  - lia.
  - exists spans. rewrite Hrun. repeat split; assumption.
Qed.

(** X11. With the default sizes the splitter gives no chunk exactly when
    the transcript is empty or whitespace only; every chunk it gives is
    non-empty, has no whitespace at either end and has at most 1000
    characters. *)
Theorem chunk_transcript_no_chunk_iff_blank (transcript : string) :
  exists chunks,
    chunk_transcript transcript 1000 200 = Ret chunks /\
    (chunks = [] <-> strip transcript = "") /\
    Forall (fun d => page_content d <> "" /\
                     strip (page_content d) = page_content d /\
                     len (page_content d) <= 1000) chunks.
Proof.
  destruct (default_chunks_of_spans transcript) as (spans & Hrun & Hov & Hnew & Hb).
  eexists. split; [exact Hrun|]. split.
  - rewrite strip_blank, <- Hnew, <- (blank_spans "" spans Hov eq_refl),
      <- chunks_of_spans_nil.
    destruct (chunks_of_spans spans); split; done.
  - apply Forall_map. cbn [page_content].
    pose proof (chunks_of_spans_stripped spans) as Hs.
    unfold bounded in Hb. rewrite Forall_forall in Hs, Hb |- *.
    intros chunk Hin. destruct (Hs chunk Hin). split; [|split]; auto.
Qed.

(** X12. For every transcript and all sizes, [create_vector_store] returns
    and never raises, and leaves the embedding model of the manager as it
    was.  It returns either a vector store with the number of chunks the
    splitter gave and no error, or no store, a count of 0 and a message
    that begins with [Error creating vector store: ]. *)
Theorem create_vector_store_two_shapes
    (transcript : string) (chunk_size chunk_overlap : Z) (st : State) :
  exists r st',
    create_vector_store transcript chunk_size chunk_overlap st = (Ret r, st') /\
    embedding_model st' = embedding_model st /\
    ((exists vs chunks,
        chunk_transcript transcript chunk_size chunk_overlap = Ret chunks /\
        r = (Some vs, py_len chunks, None)) \/
     (exists msg, r = (None, 0, Some ("Error creating vector store: " +:+ msg)))).
Proof.
  unfold create_vector_store, try_except, bind, lift_outcome, get, lift_world, ret.
  destruct (chunk_transcript transcript chunk_size chunk_overlap) as [chunks|e].
  - cbn. destruct (from_documents chunks (embedding_model st) (world st))
      as [[vs|e] w]; cbn.
    + eexists _, _. split; [reflexivity|]. split; [reflexivity|].
      left. by exists vs, chunks.
    + eexists _, _. split; [reflexivity|]. split; [reflexivity|].
      right. by eexists.
  - eexists _, _. split; [reflexivity|]. split; [reflexivity|].
    right. by eexists.
Qed.

(** X13. With the default sizes the splitter cannot fail, so the only
    error [create_vector_store] reports is the one of the index library:
    the library is called once, with the chunks of the transcript, and the
    count returned with the store is the number of those chunks. *)
Theorem create_vector_store_default_sizes (transcript : string) (st : State) :
  exists chunks,
    chunk_transcript transcript 1000 200 = Ret chunks /\
    create_vector_store transcript 1000 200 st =
      match from_documents chunks (embedding_model st) (world st) with
      | (Ret vs, w) =>
          (Ret (Some vs, py_len chunks, None),
           {| embedding_model := embedding_model st; world := w |})
      | (Raise e, w) =>
          (Ret (None, 0, Some ("Error creating vector store: " +:+ exn_str e)),
           {| embedding_model := embedding_model st; world := w |})
      end.
Proof.
  destruct (default_chunks_of_spans transcript) as (spans & Hrun & _).
  eexists. split; [exact Hrun|].
  unfold create_vector_store, try_except, bind, lift_outcome, get, lift_world, ret.
  rewrite Hrun. cbn.
  by destruct (from_documents _ (embedding_model st) (world st)) as [[vs|e] w].
Qed.

End IndexedChunks.

(** ** The video identifier extractor: further shapes *)

Section FurtherShapes.

Import PyString UrlParse VectorStoreManager.
Context {unicode : Unicode}.

Ltac incl_tac := unfold UNSAFE, SPECIAL, incl; cbn [In]; intros; tauto.

Ltac plain Ht :=
  rewrite ?avoids_app;
  repeat (match goal with |- _ && _ = true => apply andb_true_iff; split end);
  first [ reflexivity
        | eapply avoids_incl; [|exact Ht]; incl_tac ].

(** The pieces of a text cut at the first occurrence of a character. *)
Lemma split_found c piece p q :
  avoids [c] p = true ->
  split_go (String c EmptyString) 0 piece (p +:+ String c q) =
    (piece +:+ p) :: split_go (String c EmptyString) 0 EmptyString q.
Proof.
  revert piece. induction p as [|x p IH]; intros piece Hp.
  - change ("" +:+ String c q) with (String c q). cbn [split_go].
    rewrite prefix_one_char, Ascii.eqb_refl. cbn [String.length Nat.sub].
    by rewrite append_empty_r.
  - rewrite append_cons. cbn [split_go].
    rewrite prefix_one_char, (avoids_head _ _ _ Hp), (IH _ (avoids_tail _ _ _ Hp)).
    by rewrite append_assoc.
Qed.

(** Later fields of a query never displace the first value of a name. *)
Lemma parse_qs_fold_keeps_first (fields : list (string * string)) :
  forall (name first : string) (more : list string)
         (parsed_result : gmap string (list string)),
    parsed_result !! name = Some (first :: more) ->
    exists more',
      fold_left
        (fun parsed_result '(name, value) =>
           match parsed_result !! name with
           | Some values => <[name := values ++ [value]]> parsed_result
           | None => <[name := [value]]> parsed_result
           end)
        fields parsed_result !! name = Some (first :: more').
Proof.
  induction fields as [|[n v] fields IH]; intros name first more parsed_result Hv;
    [by exists more|].
  cbn [fold_left]. destruct (decide (n = name)) as [->|Hne].
  - rewrite Hv. apply (IH _ _ (more ++ [v])). by rewrite lookup_insert_eq.
  - apply (IH _ _ more).
    destruct (parsed_result !! n); by rewrite lookup_insert_ne.
Qed.

Lemma parse_qs_first_v t rest :
  avoids SPECIAL t = true -> t <> "" ->
  exists more, parse_qs ("v=" +:+ t +:+ "&" +:+ rest) !! "v" = Some (t :: more).
Proof.
  intros Ht Hne. unfold parse_qs, parse_qsl.
  change (is_empty ("v=" +:+ t +:+ "&" +:+ rest)) with false. cbv iota.
  unfold split.
  change ("v=" +:+ t +:+ "&" +:+ rest) with (("v=" +:+ t) +:+ String "&" rest).
  rewrite split_found by plain Ht.
  change ("" +:+ "v=" +:+ t) with ("v=" +:+ t). cbn [flat_map].
  change (is_empty ("v=" +:+ t)) with false. cbv iota.
  change (split_once "=" ("v=" +:+ t)) with (Some ("v", t)). cbv iota.
  destruct t as [|x t']; [done|]. cbn [is_empty].
  rewrite (avoids_replace "+" " " (String x t')) by plain Ht.
  unfold unquote at 2. rewrite (avoids_has_char "%" (String x t')) by plain Ht.
  change (unquote (replace_char "+" " " "v")) with "v".
  cbn [app fold_left]. rewrite lookup_empty.
  apply (parse_qs_fold_keeps_first _ "v" (String x t') []).
  by rewrite lookup_insert_eq.
Qed.

(** X14. Further parameters after the video parameter of a watch URL do
    not change the identifier: for a non-empty token free of the special
    characters, followed by [&] and any text without [#], tab, line feed
    and carriage return, [extract_video_id] gives the token, also when the
    text names [v] again. *)
Theorem extract_video_id_ignores_later_parameters (t rest : string) :
  avoids SPECIAL t = true ->
  t <> "" ->
  avoids ("#"%char :: UNSAFE) rest = true ->
  extract_video_id ("https://www.youtube.com/watch?v=" +:+ t +:+ "&" +:+ rest) =
    Ret (Some t).
Proof.
  intros Ht Hne Hrest.
  unfold extract_video_id, extract_try, urlparse.
  change ("https://www.youtube.com/watch?v=" +:+ t +:+ "&" +:+ rest)
    with ("https://" +:+ "www.youtube.com" +:+ "/" +:+
          ("watch?v=" +:+ t +:+ "&" +:+ rest)).
  rewrite urlsplit_https; [|reflexivity|reflexivity|].
  2:{ rewrite !avoids_app.
      repeat (match goal with |- _ && _ = true => apply andb_true_iff; split end);
        try reflexivity.
      - plain Ht.
      - eapply avoids_incl; [|exact Hrest]. incl_tac. }
  rewrite cut_at_absent.
  2:{ rewrite !avoids_app.
      repeat (match goal with |- _ && _ = true => apply andb_true_iff; split end);
        try reflexivity.
      - plain Ht.
      - eapply avoids_incl; [|exact Hrest]. incl_tac. }
  change ("/" +:+ "watch?v=" +:+ t +:+ "&" +:+ rest)
    with ("/watch" +:+ String "?" ("v=" +:+ t +:+ "&" +:+ rest)).
  rewrite cut_at_found by reflexivity.
  change (existsb (String.eqb "https") uses_params && has_char ";" "/watch")
    with false.
  cbv iota. cbn [netloc path query].
  change (String.eqb (lower "www.youtube.com") "youtu.be") with false.
  change (startswith (lower "/watch") "/shorts") with false. cbv iota.
  change (is_empty ("v=" +:+ t +:+ "&" +:+ rest)) with false. cbv iota.
  destruct (parse_qs_first_v t rest Ht Hne) as [more ->]. reflexivity.
Qed.

(** X15. A short link or a shorts URL that ends with a path separator
    gives the empty string, not null: the identifier is the text after the
    last separator, whatever stands before it. *)
Theorem extract_video_id_trailing_separator (t : string) :
  avoids SPECIAL t = true ->
  extract_video_id ("https://youtu.be/" +:+ t +:+ "/") = Ret (Some "") /\
  extract_video_id ("https://www.youtube.com/shorts/" +:+ t +:+ "/") = Ret (Some "").
Proof.
  intros Ht. unfold extract_video_id, extract_try. split.
  - assert (Hurl : "https://youtu.be/" +:+ t +:+ "/" =
                   "https://" +:+ "youtu.be" +:+ "/" +:+ (t +:+ "/") +:+ "")
      by (by rewrite append_empty_r).
    rewrite Hurl, urlparse_path; [|reflexivity|reflexivity| |reflexivity].
    2:{ rewrite !avoids_app.
        repeat (match goal with |- _ && _ = true => apply andb_true_iff; split end);
          try reflexivity.
        eapply avoids_incl; [|exact Ht]. incl_tac. }
    cbn [netloc path].
    change (String.eqb (lower "youtu.be") "youtu.be") with true. cbv iota.
    rewrite append_empty_r.
    change ("/" +:+ t +:+ "/") with (("/" +:+ t) +:+ "/" +:+ "").
    by rewrite last_segment_token.
  - assert (Hurl : "https://www.youtube.com/shorts/" +:+ t +:+ "/" =
                   "https://" +:+ "www.youtube.com" +:+ "/" +:+
                   ("shorts/" +:+ t +:+ "/") +:+ "")
      by (by rewrite append_empty_r).
    rewrite Hurl, urlparse_path; [|reflexivity|reflexivity| |reflexivity].
    2:{ rewrite !avoids_app.
        repeat (match goal with |- _ && _ = true => apply andb_true_iff; split end);
          try reflexivity.
        eapply avoids_incl; [|exact Ht]. incl_tac. }
    cbn [netloc path].
    change (String.eqb (lower "www.youtube.com") "youtu.be") with false. cbv iota.
    rewrite append_empty_r.
    change (startswith (lower ("/" +:+ "shorts/" +:+ t +:+ "/")) "/shorts") with true.
    cbv iota.
    change ("/" +:+ "shorts/" +:+ t +:+ "/") with (("/shorts/" +:+ t) +:+ "/" +:+ "").
    by rewrite last_segment_token.
Qed.

(** The parse of a text without a colon that does not begin with two
    separators: no scheme and no host, only a path and a query. *)
Lemma urlparse_without_scheme url :
  lstrip_c0 url = url ->
  String.eqb (take 2 url) "//" = false ->
  avoids (":"%char :: "#"%char :: ";"%char :: UNSAFE) url = true ->
  urlparse url =
    Ret {| scheme := ""; netloc := ""; path := (cut_at "?" url).1; params := "";
           query := (cut_at "?" url).2; fragment := "" |}.
Proof.
  intros Hfirst Hslashes Hurl.
  assert (Hc : forall c, In c (":"%char :: "#"%char :: ";"%char :: UNSAFE) ->
                         avoids [c] url = true)
    by (intros c Hc; exact (avoids_one _ c url Hurl Hc)).
  unfold urlparse, urlsplit.
  rewrite strip_unsafe_keeps;
    [|exact Hfirst|eapply avoids_incl; [|exact Hurl]; incl_tac].
  unfold split_scheme. rewrite (avoids_find ":") by (apply Hc; cbn; tauto).
  unfold split_netloc. rewrite Hslashes.
  rewrite (cut_at_absent "#") by (apply Hc; cbn; tauto).
  change (_checknetloc "") with (@None exn). cbv iota.
  assert (Hpath : has_char ";" (cut_at "?" url).1 = false).
  { unfold cut_at, split_once.
    destruct (find_char "?" url) as [i|] eqn:Hi; cbn [fst].
    - apply avoids_has_char.
      assert (Htake : forall n s, avoids [";"%char] s = true ->
                                  avoids [";"%char] (take n s) = true).
      { induction n as [|n IH]; intros [|y s] Hs; try reflexivity.
        cbn [take]. rewrite avoids_String.
        apply avoids_cons in Hs as [Hy Hs].
        rewrite (IH _ Hs), andb_true_r. cbn [existsb].
        by rewrite (Hy ";"%char (or_introl eq_refl)). }
      apply Htake, Hc. cbn; tauto.
    - apply avoids_has_char, Hc. cbn; tauto. }
  destruct (cut_at "?" url) as [path_ query_]. cbn [fst snd] in *.
  rewrite Hpath, andb_false_r. reflexivity.
Qed.

(** X16. Without a scheme the short link is not recognized although the
    watch URL is: for a non-empty token free of the special characters and
    of the colon, [extract_video_id] gives null on [youtu.be/] followed by
    the token and the token on [www.youtube.com/watch?v=] followed by it. *)
Theorem extract_video_id_without_scheme (t : string) :
  avoids (":"%char :: SPECIAL) t = true ->
  t <> "" ->
  extract_video_id ("youtu.be/" +:+ t) = Ret None /\
  extract_video_id ("www.youtube.com/watch?v=" +:+ t) = Ret (Some t).
Proof.
  intros Ht Hne.
  assert (Hs : avoids SPECIAL t = true)
    by (eapply avoids_incl; [|exact Ht]; unfold incl; cbn [In]; tauto).
  unfold extract_video_id, extract_try. split.
  - rewrite urlparse_without_scheme; [|reflexivity|reflexivity|].
    2:{ rewrite avoids_app. apply andb_true_iff. split; [reflexivity|].
        eapply avoids_incl; [|exact Ht]. unfold UNSAFE, SPECIAL, incl. cbn [In]. tauto. }
    rewrite cut_at_absent by (rewrite avoids_app; apply andb_true_iff; split;
                              [reflexivity|plain Hs]).
    cbn [netloc path query fst snd].
    change (String.eqb (lower "") "youtu.be") with false. cbv iota.
    change (startswith (lower ("youtu.be/" +:+ t)) "/shorts") with false. cbv iota.
    change (is_empty "") with true. cbv iota.
    change (has_char "/" ("youtu.be/" +:+ t)) with true.
    by rewrite andb_false_r.
  - rewrite urlparse_without_scheme; [|reflexivity|reflexivity|].
    2:{ rewrite avoids_app. apply andb_true_iff. split; [reflexivity|].
        eapply avoids_incl; [|exact Ht]. unfold UNSAFE, SPECIAL, incl. cbn [In]. tauto. }
    change ("www.youtube.com/watch?v=" +:+ t)
      with ("www.youtube.com/watch" +:+ String "?" ("v=" +:+ t)).
    rewrite cut_at_found by reflexivity.
    cbn [netloc path query fst snd].
    change (String.eqb (lower "") "youtu.be") with false. cbv iota.
    change (startswith (lower "www.youtube.com/watch") "/shorts") with false.
    cbv iota.
    change (is_empty ("v=" +:+ t)) with false. cbv iota.
    rewrite parse_qs_v by assumption.
    by rewrite lookup_singleton_eq.
Qed.

End FurtherShapes.

Lemma extract_video_id_ignores_later_parameters_witness :
  VectorStoreManager.extract_video_id (unicode := DemoUnicode.unicode)
    ("https://www.youtube.com/watch?v=" +:+ "Gfr50f6ZBvo" +:+ "&" +:+
     "t=42s&v=other&list=PL1") = Ret (Some "Gfr50f6ZBvo").
Proof.
  apply (extract_video_id_ignores_later_parameters (unicode := DemoUnicode.unicode)
           "Gfr50f6ZBvo" "t=42s&v=other&list=PL1");
    [reflexivity|discriminate|reflexivity].
Defined.

Lemma extract_video_id_trailing_separator_witness :
  VectorStoreManager.extract_video_id (unicode := DemoUnicode.unicode)
    ("https://youtu.be/" +:+ "Gfr50f6ZBvo" +:+ "/") = Ret (Some "") /\
  VectorStoreManager.extract_video_id (unicode := DemoUnicode.unicode)
    ("https://www.youtube.com/shorts/" +:+ "Gfr50f6ZBvo" +:+ "/") = Ret (Some "").
Proof.
  apply (extract_video_id_trailing_separator (unicode := DemoUnicode.unicode)
           "Gfr50f6ZBvo").
  reflexivity.
Defined.

Lemma extract_video_id_without_scheme_witness :
  VectorStoreManager.extract_video_id (unicode := DemoUnicode.unicode)
    ("youtu.be/" +:+ "Gfr50f6ZBvo") = Ret None /\
  VectorStoreManager.extract_video_id (unicode := DemoUnicode.unicode)
    ("www.youtube.com/watch?v=" +:+ "Gfr50f6ZBvo") = Ret (Some "Gfr50f6ZBvo").
Proof.
  apply (extract_video_id_without_scheme (unicode := DemoUnicode.unicode)
           "Gfr50f6ZBvo"); [reflexivity|discriminate].
Defined.

(** ** The pipeline of a video *)

Section PipelineProperties.

Import PyString Pipeline.
Context {unicode : UrlParse.Unicode}.
Context {src : Transcripts.Source}.
Context {backend : VectorStoreManager.Backend}.

(** What the test [if error:] of [process_video] sees of a fetched tuple:
    without an error all three values are there, and an error is never the
    empty string. *)
Lemma fetch_transcript_truthy video_id w :
  exists r w',
    Transcripts.fetch_transcript video_id w = (Ret r, w') /\
    ((exists text language generated,
        r = (Some text, Some language, Some generated, None)) \/
     (exists msg, truthy (Some msg) = true /\ r = (None, None, None, Some msg))).
Proof.
  unfold Transcripts.fetch_transcript, try_except.
  destruct (Transcripts.fetch_try video_id
              {| Transcripts.ytt_api := None; Transcripts.world := w |})
    as [[r|e] fr] eqn:Htry.
  - exists r, (Transcripts.world fr). split; [reflexivity|]. left.
    revert Htry. unfold Transcripts.fetch_try, bind, ret.
    repeat case_match; intros; simplify_eq. eexists _, _, _; reflexivity.
  - destruct (fetch_except_returns video_id e fr) as (r & fr' & -> & Hshape).
    exists r, (Transcripts.world fr'). split; [reflexivity|].
    destruct Hshape as [Hok|(msg & Hne & ->)]; [by left|right].
    exists msg. split; [|reflexivity]. by destruct msg.
Qed.

Lemma truthy_nonempty msg : truthy (Some msg) = true <-> msg <> "".
Proof. by destruct msg. Qed.

(** The result dictionaries of the three ways out of [process_video]. *)
Lemma process_video_cases (video_url : string) (st : State) :
  match VectorStoreManager.extract_video_id video_url with
  | Ret (Some (String c rest)) =>
      let video_id := String c rest in
      let named := <["video_id" := Py (PyStr video_id)]> initial_result in
      exists r w',
        Transcripts.fetch_transcript video_id (source st) = (Ret r, w') /\
        ((exists msg,
            r = (None, None, None, Some msg) /\ msg <> "" /\
            process_video video_url st =
              (Ret (<["error" := Py (PyStr msg)]> named),
               {| manager := manager st; source := w' |})) \/
         (exists text language generated chunks,
            r = (Some text, Some language, Some generated, None) /\
            VectorStoreManager.chunk_transcript text 1000 200 = Ret chunks /\
            process_video video_url st =
              match VectorStoreManager.from_documents chunks
                      (VectorStoreManager.embedding_model (manager st))
                      (VectorStoreManager.world (manager st)) with
              | (Ret vs, w2) =>
                  (Ret (<["metadata" :=
                            Dict (list_to_map
                                    [("video_id", PyStr video_id);
                                     ("language", PyStr language);
                                     ("is_generated", PyBool generated);
                                     ("num_chunks", PyInt (py_len chunks));
                                     ("transcript_length", PyInt (len text))])]>
                          (<["vector_store" := Store vs]>
                             (<["success" := Py (PyBool true)]> named))),
                   {| manager :=
                        {| VectorStoreManager.embedding_model :=
                             VectorStoreManager.embedding_model (manager st);
                           VectorStoreManager.world := w2 |};
                      source := w' |})
              | (Raise e, w2) =>
                  (Ret (<["error" :=
                            Py (PyStr ("Error creating vector store: " +:+ exn_str e))]>
                          named),
                   {| manager :=
                        {| VectorStoreManager.embedding_model :=
                             VectorStoreManager.embedding_model (manager st);
                           VectorStoreManager.world := w2 |};
                      source := w' |})
              end))
  | _ =>
      process_video video_url st =
        (Ret (<["error" := Py (PyStr "Invalid YouTube URL")]> initial_result), st)
  end.
Proof.
  unfold process_video, bind, VectorStoreManager.extract_video_id.
  destruct (VectorStoreManager.extract_try video_url) as [[[|c rest]|]|e];
    try reflexivity.
  cbv zeta. set (video_id := String c rest). unfold lift_source.
  destruct (fetch_transcript_truthy video_id (source st))
    as (r & w' & Hfetch & Hshape).
  exists r, w'. rewrite Hfetch. split; [reflexivity|].
  destruct Hshape as [(text & language & generated & ->)|(msg & Hmsg & ->)].
  - right. cbn [truthy]. unfold lift_manager, create_default.
    destruct (default_chunks_of_spans text) as (spans & Hrun & _).
    eexists text, language, generated, _. split; [reflexivity|].
    split; [exact Hrun|].
    unfold VectorStoreManager.create_vector_store, try_except, bind,
      VectorStoreManager.lift_outcome, get, VectorStoreManager.lift_world, ret.
    cbn [manager source]. rewrite Hrun.
    destruct (VectorStoreManager.from_documents _ _ _) as [[vs|e] w2];
      [reflexivity|].
    cbn [truthy]. by destruct (exn_str e).
  - left. exists msg. split; [reflexivity|].
    split; [by apply truthy_nonempty|]. by rewrite Hmsg.
Qed.

Lemma initial_result_keys key :
  is_Some (initial_result (backend := backend) !! key) <-> In key RESULT_KEYS.
Proof.
  unfold initial_result, RESULT_KEYS. split.
  - intros [v Hv]. apply elem_of_list_to_map_2 in Hv.
    repeat (apply elem_of_cons in Hv as [Hv|Hv];
            [apply (f_equal fst) in Hv; cbn [fst] in Hv; subst key;
             cbn [In]; tauto|]).
    by apply elem_of_nil in Hv.
  - cbn [In]. intros [<-|[<-|[<-|[<-|[<-|[]]]]]]; by eexists.
Qed.

Lemma result_keys_insert (d : gmap string value) k v :
  In k RESULT_KEYS ->
  (forall key, is_Some (d !! key) <-> In key RESULT_KEYS) ->
  forall key, is_Some (<[k := v]> d !! key) <-> In key RESULT_KEYS.
Proof.
  intros Hk Hd key. rewrite lookup_insert_is_Some, Hd.
  split; [intros [<-|[_ ?]]; assumption|].
  intros Hin. destruct (decide (k = key)); [by left|by right].
Qed.

Ltac keys_tac :=
  repeat (match goal with
          | |- forall key, is_Some (<[_ := _]> _ !! key) <-> _ =>
              apply result_keys_insert; [unfold RESULT_KEYS; cbn [In]; tauto|]
          end);
  exact initial_result_keys.

(** X17. For every input, [process_video] returns a dictionary and never
    raises.  The dictionary has the five keys of the result, and it is
    either the success of this run (the identifier extracted from the URL,
    the store built from the chunks of the transcript fetched for it, and
    metadata that count those chunks and the characters of that
    transcript) or the failure of this run (the message of the step that
    stopped it, with the identifier if one was extracted, no store and
    empty metadata). *)
Theorem process_video_result_invariant (video_url : string) (st : State) :
  exists d st',
    process_video video_url st = (Ret d, st') /\
    (forall key, is_Some (d !! key) <-> In key RESULT_KEYS) /\
    (pipeline_success video_url st d \/ pipeline_failure video_url st d).
Proof.
  pose proof (process_video_cases video_url st) as Hcases.
  assert (Hinvalid :
            VectorStoreManager.extract_video_id video_url = Ret None \/
            VectorStoreManager.extract_video_id video_url = Ret (Some "") ->
            process_video video_url st =
              (Ret (<["error" := Py (PyStr "Invalid YouTube URL")]> initial_result), st) ->
            exists d st',
              process_video video_url st = (Ret d, st') /\
              (forall key, is_Some (d !! key) <-> In key RESULT_KEYS) /\
              (pipeline_success video_url st d \/ pipeline_failure video_url st d)).
  { intros Hid ->. eexists _, _. split; [reflexivity|]. split; [keys_tac|].
    right. exists None, "Invalid YouTube URL".
    split; [left; by repeat split|]. split; [discriminate|]. repeat split. }
  assert (Hret : forall e, VectorStoreManager.extract_video_id video_url <> Raise e).
  { intros e. unfold VectorStoreManager.extract_video_id.
    by destruct (VectorStoreManager.extract_try video_url). }
  destruct (VectorStoreManager.extract_video_id video_url)
    as [[[|c rest]|]|e] eqn:Hid;
    [apply Hinvalid; [by right|exact Hcases]
    |
    |apply Hinvalid; [by left|exact Hcases]
    |by destruct (Hret e)].
  clear Hinvalid Hret. cbv zeta in Hcases.
  destruct Hcases as (r & w' & Hfetch & [(msg & -> & Hne & ->)|
                       (text & language & generated & chunks & -> & Hrun & ->)]).
  - eexists _, _. split; [reflexivity|]. split; [keys_tac|].
    right. exists (Some (String c rest)), msg. split.
    + right. exists (String c rest).
      split; [reflexivity|]. split; [exact Hid|]. split; [discriminate|].
      left. by exists w'.
    + split; [exact Hne|]. repeat split.
  - destruct (VectorStoreManager.from_documents _ _ _) as [[vs|e] w2] eqn:Hbuild;
      (eexists _, _; split; [reflexivity|]; split; [keys_tac|]).
    + left. exists (String c rest), text, language, generated, w', chunks, vs, w2.
      split; [exact Hid|]. split; [discriminate|]. split; [exact Hfetch|].
      split; [exact Hrun|]. split; [exact Hbuild|]. repeat split.
    + right.
      exists (Some (String c rest)), ("Error creating vector store: " +:+ exn_str e).
      split.
      * right. exists (String c rest).
        split; [reflexivity|]. split; [exact Hid|]. split; [discriminate|].
        right. exists text, language, generated, w', chunks, e, w2.
        by repeat split.
      * split; [by rewrite append_cons|]. repeat split.
Qed.

(** X18. [process_video] reports a result without identifier exactly when
    the extractor gives null or the empty string; then the message is
    [Invalid YouTube URL] and nothing has been asked of the transcript
    source or of the embedding service. *)
Theorem process_video_invalid_url (video_url : string) (st : State) :
  exists d st',
    process_video video_url st = (Ret d, st') /\
    (d !! "video_id" = Some (Py PyNone) <->
       VectorStoreManager.extract_video_id video_url = Ret None \/
       VectorStoreManager.extract_video_id video_url = Ret (Some "")) /\
    (d !! "video_id" = Some (Py PyNone) ->
       st' = st /\
       d = <["error" := Py (PyStr "Invalid YouTube URL")]> initial_result).
Proof.
  pose proof (process_video_cases video_url st) as Hcases.
  assert (Hret : forall e, VectorStoreManager.extract_video_id video_url <> Raise e).
  { intros e. unfold VectorStoreManager.extract_video_id.
    by destruct (VectorStoreManager.extract_try video_url). }
  destruct (VectorStoreManager.extract_video_id video_url) as [[[|c rest]|]|e];
    [| | |by destruct (Hret e)].
  - rewrite Hcases. eexists _, _. split; [reflexivity|]. split; [|done].
    split; [by right|reflexivity].
  - cbv zeta in Hcases.
    destruct Hcases as (r & w' & _ & [(msg & _ & Hne & ->)|
                         (text & language & generated & chunks & _ & Hrun & ->)]).
    + eexists _, _. split; [reflexivity|].
      split; [split; [discriminate|intros [|]; discriminate]|discriminate].
    + destruct (VectorStoreManager.from_documents _ _ _) as [[vs|e] w2];
        (eexists _, _; split; [reflexivity|]);
        (split; [split; [discriminate|intros [|]; discriminate]|discriminate]).
  - rewrite Hcases. eexists _, _. split; [reflexivity|]. split; [|done].
    split; [by left|reflexivity].
Qed.

(** X19. When the identifier is extracted and the transcript fetcher gives
    an error, [process_video] reports that error with the identifier, and
    the manager is as it was: nothing is chunked and the embedding service
    is not called. *)
Theorem process_video_stops_at_fetch_error
    (video_url video_id : string) (st : State)
    (transcript language : option string) (generated : option bool)
    (msg : string) (w' : Transcripts.World) :
  VectorStoreManager.extract_video_id video_url = Ret (Some video_id) ->
  video_id <> "" ->
  Transcripts.fetch_transcript video_id (source st) =
    (Ret (transcript, language, generated, Some msg), w') ->
  process_video video_url st =
    (Ret (<["error" := Py (PyStr msg)]>
            (<["video_id" := Py (PyStr video_id)]> initial_result)),
     {| manager := manager st; source := w' |}).
Proof.
  intros Hid Hne Hfetch.
  pose proof (process_video_cases video_url st) as Hcases.
  rewrite Hid in Hcases. destruct video_id as [|c rest]; [done|].
  cbv zeta in Hcases.
  destruct Hcases as (r & w1 & Hfetch' & [(msg' & -> & _ & ->)|
                       (text & lang & gen & chunks & -> & _)]);
    rewrite Hfetch in Hfetch'; by simplify_eq.
Qed.

End PipelineProperties.

Lemma process_video_stops_at_fetch_error_witness :
  Pipeline.process_video (unicode := DemoUnicode.unicode)
    "https://youtu.be/Gfr50f6ZBvo"
    (DemoPipeline.state DemoSource.captions_disabled tt) =
  (Ret (<["error" := Pipeline.Py (PyStr "Transcripts are disabled for this video")]>
          (<["video_id" := Pipeline.Py (PyStr "Gfr50f6ZBvo")]>
             Pipeline.initial_result)),
   DemoPipeline.state DemoSource.captions_disabled tt).
Proof.
  apply (process_video_stops_at_fetch_error (unicode := DemoUnicode.unicode)
           "https://youtu.be/Gfr50f6ZBvo" "Gfr50f6ZBvo"
           (DemoPipeline.state DemoSource.captions_disabled tt)
           None None None "Transcripts are disabled for this video" tt);
    [vm_compute; reflexivity|discriminate|vm_compute; reflexivity].
Defined.

Example process_video_english_captions :
  match Pipeline.process_video (unicode := DemoUnicode.unicode)
          "https://www.youtube.com/watch?v=Gfr50f6ZBvo"
          (DemoPipeline.state DemoSource.english tt) with
  | (Ret d, _) => (d !! "success", d !! "vector_store", d !! "metadata")
  | (Raise _, _) => (None, None, None)
  end =
  (Some (Pipeline.Py (PyBool true)),
   Some (Pipeline.Store (backend := DemoBackend.backend)
           [ {| page_content := "hello world" |} ]),
   Some (Pipeline.Dict
           (list_to_map [("video_id", PyStr "Gfr50f6ZBvo");
                         ("language", PyStr "English");
                         ("is_generated", PyBool true);
                         ("num_chunks", PyInt 1);
                         ("transcript_length", PyInt 11)]))).
Proof. vm_compute. reflexivity. Qed.

(** ** Where the token comes from *)

Section TokenProperties.

Context {backend : VectorStoreManager.Backend}.

(** X20. When streamlit is installed and its secret store can be read, the
    store alone decides the token: the environment is not consulted, so a
    store without the entry makes the manager hand null to the embedding
    client even if the environment holds a token. *)
Theorem readable_secret_store_decides_token
    (cfg : Config) (secrets : gmap string string) :
  HAS_STREAMLIT cfg = true ->
  st_secrets cfg = Ret secrets ->
  get_api_token cfg = secrets !! TOKEN_KEY /\
  forall st : VectorStoreManager.State,
    VectorStoreManager.__init__ cfg st =
      match VectorStoreManager.new_embeddings
              VectorStoreManager.EMBEDDING_MODEL_NAME (secrets !! TOKEN_KEY)
              (VectorStoreManager.world st) with
      | (Ret m, w) =>
          (Ret tt, {| VectorStoreManager.embedding_model := Some m;
                      VectorStoreManager.world := w |})
      | (Raise e, w) =>
          (Raise e, {| VectorStoreManager.embedding_model := None;
                       VectorStoreManager.world := w |})
      end.
Proof.
  intros Hst Hsecrets.
  assert (Htok : get_api_token cfg = secrets !! TOKEN_KEY)
    by (unfold get_api_token; by rewrite Hst, Hsecrets).
  split; [exact Htok|]. intros st.
  unfold VectorStoreManager.__init__, VectorStoreManager._initialize_embeddings,
    VectorStoreManager.set_embedding_model, VectorStoreManager.lift_world,
    try_except, bind, raise.
  rewrite Htok. cbn.
  destruct (VectorStoreManager.new_embeddings _ _ _) as [[m|e] w]; reflexivity.
Qed.

End TokenProperties.

Lemma readable_secret_store_decides_token_witness :
  environ DemoBackend.token_in_environment_only !! TOKEN_KEY = Some "hf_environment" /\
  get_api_token DemoBackend.token_in_environment_only = None.
Proof.
  split; [reflexivity|].
  destruct (readable_secret_store_decides_token (backend := DemoBackend.backend)
              DemoBackend.token_in_environment_only ∅) as [Htoken _];
    [reflexivity|reflexivity|exact Htoken].
Defined.

(** ** The query engine: the two searches of a query *)

Section TwoSearches.

Import QueryEngine.
Context {svc : Services}.

(** X21. A query searches twice.  The context given to the model is made
    of the documents of a first search; the sources returned with the
    answer are the documents of a second search, made after the model has
    answered, from the world the model left. *)
Theorem query_sources_come_from_second_search
    (question : string) (st : State) (c : RagChain) (r : loc) (rt : Retriever)
    (vs : VectorStore) (docs1 docs2 : list Document) (answer : string)
    (w1 w2 w3 : World) :
  rag_chain (self st) = Some c ->
  retriever (self st) = Some r ->
  chain_retriever c = r ->
  retrievers st !! r = Some rt ->
  stores st !! vectorstore rt = Some vs ->
  similarity_retrieve vs (search_type rt) (search_kwargs rt) question (world st) =
    (Ret docs1, w1) ->
  chat_invoke (chain_model c) system_message
    (user_message (format_docs docs1) question) w1 = (Ret answer, w2) ->
  similarity_retrieve vs (search_type rt) (search_kwargs rt) question w2 =
    (Ret docs2, w3) ->
  query question st =
    (Ret (dict [("success", PyBool true);
                ("question", PyStr question);
                ("answer", PyStr answer);
                ("sources", PyList (map PyStr (map page_content docs2)));
                ("num_sources", PyInt (py_len docs2));
                ("error", PyNone)]),
     {| self := self st; stores := stores st; retrievers := retrievers st;
        world := w3 |}).
Proof.
  intros Hc Hr Hshared Hrt Hvs H1 Hchat H2.
  rewrite query_total, (query_try_steps question st c r Hc Hr).
  unfold rag_chain_invoke, retriever_invoke, bind, get, lift_world.
  rewrite Hshared, Hrt, Hvs, H1. cbn. rewrite Hchat. cbn.
  rewrite Hrt, Hvs. cbn. rewrite H2.
  unfold py_len. by rewrite length_map.
Qed.

End TwoSearches.

Lemma query_sources_come_from_second_search_witness :
  QueryEngine.query (svc := Demo.drifting) "What is said?" Demo.drifting_state =
  (Ret (QueryEngine.dict
          [("success", PyBool true);
           ("question", PyStr "What is said?");
           ("answer",
            PyStr (QueryEngine.user_message
                     (QueryEngine.format_docs Demo.chunks) "What is said?"));
           ("sources", PyList [PyStr "beta"; PyStr "gamma"]);
           ("num_sources", PyInt 2);
           ("error", PyNone)]),
   @QueryEngine.Build_State Demo.drifting
     (QueryEngine.self Demo.drifting_state)
     (QueryEngine.stores Demo.drifting_state)
     (QueryEngine.retrievers Demo.drifting_state) 2%nat).
Proof.
  apply (query_sources_come_from_second_search (svc := Demo.drifting)
           "What is said?" Demo.drifting_state Demo.drifting_chain 0%nat
           Demo.retriever0 Demo.chunks Demo.chunks
           [ {| page_content := "beta" |}; {| page_content := "gamma" |} ]
           (QueryEngine.user_message
              (QueryEngine.format_docs Demo.chunks) "What is said?")
           1%nat 1%nat 2%nat); reflexivity.
Defined.
